(** * Twicketer: the ticket monitoring and deduplication state machine

    A shallow embedding of [twicket_bot/core/bot.py],
    [twicket_bot/services/api_client.py], [twicket_bot/models/ticket.py],
    [twicket_bot/core/config.py] and [twicket_bot/utils/helpers.py].

    Conventions.
    - A Python [str] is a [string]; string comparison is the byte-wise
      lexicographic order of [String.compare] (for UTF-8 this is the code
      point order Python uses).
    - A price is a Python [float] that is only ever compared; it is the
      rational the float denotes, and comparisons are exact.  The delay
      between passes is computed with: it is an IEEE binary64 number, a
      [float] of [PrimFloat], and so is the time slept.
    - An object of the bot is a record; a method is a function in the monad
      [M] below, which threads the bot and carries Python exceptions.
      Mutations made before an exception is raised stay in the state.
    - The outside world (the browser page, [webbrowser], the clock,
      [random]) is an explicit argument of the method that consults it.
      A [KeyboardInterrupt] reaches the bot through the availability request
      or through [webbrowser.open]; the display, the log files and the
      sending of webhooks are left out. *)

From Stdlib Require Import QArith Lqa Floats Ascii.
From Stdlib Require OrderedTypeEx.
From Stdlib Require Import Sorted.
From stdpp Require Import gmap strings list fin_maps.

Set Warnings "-register-all".

(** ** Python values and exceptions *)

(** The exceptions the modelled code can meet.  [KeyboardInterrupt] is not a
    subclass of [Exception]; everything else here is. *)
Inductive exn :=
| ValueError
| KeyError (key : string)
| TypeError
| AttributeError
| ExternalError (msg : string)   (* any other Exception raised by a collaborator *)
| KeyboardInterrupt.

Definition is_Exception (e : exn) : bool :=
  match e with KeyboardInterrupt => false | _ => true end.

(** What [page.evaluate] hands back: a JSON value.  A dict is the list of its
    key/value pairs in insertion order, keys pairwise distinct. *)
Inductive json :=
| JNull
| JBool (b : bool)
| JNum (q : Q)
| JStr (s : string)
| JArr (items : list json)
| JObj (fields : list (string * json)).

(** Python truthiness ([if v:]). *)
Definition truthy (v : json) : bool :=
  match v with
  | JNull => false
  | JBool b => b
  | JNum q => negb (Qeq_bool q 0)
  | JStr s => negb (String.eqb s "")
  | JArr items => match items with [] => false | _ => true end
  | JObj fields => match fields with [] => false | _ => true end
  end.

Fixpoint assoc (k : string) (fields : list (string * json)) : option json :=
  match fields with
  | [] => None
  | (k', v) :: rest => if String.eqb k k' then Some v else assoc k rest
  end.

(** [v.get(k, default)]: only a dict has [get]. *)
Definition py_get (v : json) (k : string) (default : json) : json + exn :=
  match v with
  | JObj fields => inl (from_option (fun x => x) default (assoc k fields))
  | _ => inr AttributeError
  end.

(** [v[k]] for a string key [k]. *)
Definition py_getitem (v : json) (k : string) : json + exn :=
  match v with
  | JObj fields =>
      match assoc k fields with Some x => inl x | None => inr (KeyError k) end
  | _ => inr TypeError
  end.

(** [for x in v]: the items a comprehension walks over. *)
Definition py_iter (v : json) : list json + exn :=
  match v with
  | JArr items => inl items
  | JObj fields => inl (map (fun kv => JStr (fst kv)) fields)
  | JStr s => inl (map (fun c => JStr (String c EmptyString)) (String.list_ascii_of_string s))
  | _ => inr TypeError
  end.

(** [v == 1] for a deserialised JSON value ([True == 1] and [1.0 == 1] hold
    in Python). *)
Definition py_eq_1 (v : json) : bool :=
  match v with
  | JNum q => Qeq_bool q 1
  | JBool b => b
  | _ => false
  end.

(** ** Computations that may raise *)

Inductive result (A : Type) :=
| Ok (a : A)
| Raise (e : exn).
Arguments Ok {A} a.
Arguments Raise {A} e.

Definition rbind {A B} (c : result A) (k : A -> result B) : result B :=
  match c with
  | Ok a => k a
  | Raise e => Raise e
  end.

Definition of_sum {A} (c : A + exn) : result A :=
  match c with inl a => Ok a | inr e => Raise e end.

Declare Scope exc_scope.
Delimit Scope exc_scope with exc.
Notation "'do' x <- c ; k" := (rbind c (fun x => k))
  (at level 10, x name, c at level 100, k at level 200) : exc_scope.

(** A list comprehension whose body may raise: items are visited left to
    right and the first exception ends the walk. *)
Fixpoint comprehension {A B} (f : A -> result B) (items : list A) : result (list B) :=
  match items with
  | [] => Ok []
  | x :: rest =>
      (do y <- f x;
       do ys <- comprehension f rest;
       Ok (y :: ys))%exc
  end.

(** ** models/ticket.py *)

Record TicketListing := {
  tl_id : string;
  tl_seats : string;
  tl_type : string;
  tl_area : string;
  tl_section : string;
  tl_row : string;
  tl_price : Q
}.

(** The fields of the availability records are filled from the raw response
    without any conversion, so they hold whatever JSON value was there. *)
Record DeliveryPlan := {
  delivery_method : json;
  title : json
}.

Record TicketBlock := {
  block_id : json
}.

Record TicketAvailability := {
  available : bool;
  block : option TicketBlock;
  delivery_plan : list DeliveryPlan
}.

(** ** core/config.py (the fields the monitoring core reads) *)

Record TwicketConfig := {
  event_id : string;
  time_delay : float;
  discord_webhook_url : option string;
  min_seats : Z;
  max_seats : Z;
  max_price : option Q;
  skip_meetup_delivery : bool
}.

(** ** services/api_client.py *)

Definition make_delivery_plan (plan : json) : result DeliveryPlan :=
  (do dm <- of_sum (py_get plan "deliveryMethod" (JNum 0));
   do t <- of_sum (py_get plan "title" (JStr ""));
   Ok {| delivery_method := dm; title := t |})%exc.

(** [get_ticket_availability]; [page_result] is what [self.page.evaluate]
    did: it returned the decoded response body or it raised. *)
Definition get_ticket_availability (page_result : json + exn)
  : result (option TicketAvailability) :=
  (do result <- of_sum page_result;
   if truthy result then
     do available <- of_sum (py_get result "available" (JBool false));
     do has_block <-
       (if truthy available
        then do b <- of_sum (py_get result "block" JNull); Ok (truthy b)
        else Ok false);
     if has_block then
       do plans <- of_sum (py_get result "deliveryPlan" (JArr []));
       do items <- of_sum (py_iter plans);
       do delivery_plan <- comprehension make_delivery_plan items;
       do blk <- of_sum (py_getitem result "block");
       do bid <- of_sum (py_getitem blk "blockId");
       Ok (Some {| available := true;
                   block := Some {| block_id := bid |};
                   delivery_plan := delivery_plan |})
     else
       Ok (Some {| available := false; block := None; delivery_plan := [] |})
   else Ok None)%exc.

(** ** utils/helpers.py *)

(** [sorted(listings, key=lambda x: x.section)] and the in-place
    [options.sort(key=lambda x: x.section)] of the monitoring loop: Python's
    sort is stable and compares the keys with [<].  The stable sort is
    written as an insertion sort; [insert_by_section] puts a listing in front
    of the first one whose section is not smaller. *)
Fixpoint insert_by_section (x : TicketListing) (l : list TicketListing)
  : list TicketListing :=
  match l with
  | [] => [x]
  | y :: rest =>
      if String.ltb (tl_section y) (tl_section x)
      then y :: insert_by_section x rest
      else x :: l
  end.

Fixpoint sort_listings_by_section (listings : list TicketListing)
  : list TicketListing :=
  match listings with
  | [] => []
  | x :: rest => insert_by_section x (sort_listings_by_section rest)
  end.

(** ** core/bot.py: the bot object *)

(** [int(s)] for an ASCII string: optional surrounding white space, an
    optional sign, then decimal digits, where single underscores may separate
    digits.  Anything else is a [ValueError]. *)
Definition is_space (c : Ascii.ascii) : bool :=
  let n := Ascii.nat_of_ascii c in
  ((9 <=? n)%nat && (n <=? 13)%nat) || (n =? 32)%nat.

Definition digit_of (c : Ascii.ascii) : option Z :=
  let n := Ascii.nat_of_ascii c in
  if ((48 <=? n)%nat && (n <=? 57)%nat) then Some (Z.of_nat n - 48)%Z else None.

Fixpoint lstrip (l : list Ascii.ascii) : list Ascii.ascii :=
  match l with
  | c :: rest => if is_space c then lstrip rest else l
  | [] => []
  end.

Definition strip (l : list Ascii.ascii) : list Ascii.ascii :=
  rev (lstrip (rev (lstrip l))).

Fixpoint digits (acc : Z) (after_digit : bool) (l : list Ascii.ascii) : option Z :=
  match l with
  | [] => if after_digit then Some acc else None
  | c :: rest =>
      match digit_of c with
      | Some d => digits (10 * acc + d)%Z true rest
      | None =>
          if Ascii.eqb c "_"%char && after_digit then digits acc false rest else None
      end
  end.

Definition py_int (s : string) : result Z :=
  let body := strip (String.list_ascii_of_string s) in
  let parsed :=
    match body with
    | c :: rest =>
        if Ascii.eqb c "-"%char then Z.opp <$> digits 0 false rest
        else if Ascii.eqb c "+"%char then digits 0 false rest
        else digits 0 false body
    | [] => None
    end in
  match parsed with
  | Some n => Ok n
  | None => Raise ValueError
  end.

(** [a > b] on floats. *)
Definition Qgtb (a b : Q) : bool := negb (Qle_bool a b).

(** The texts handed to [_add_status_message].  Each constructor stands for
    one f-string of bot.py and keeps the values the f-string interpolates. *)
Inductive StatusMsg :=
| MsgTooFewSeats (seats : string)          (* Skipping - too few seats (..) *)
| MsgTooManySeats (seats : string)         (* Skipping - too many seats (..) *)
| MsgPriceTooHigh (price : Q)              (* Skipping - price too high (..) *)
| MsgUnavailable                           (* Ticket unavailable *)
| MsgMeetup                                (* Skipping - meetup delivery *)
| MsgAlreadyOpened (section row : string)  (* Already opened ticket in .. Row .. *)
| MsgNoBlockInfo (section : string)        (* No block information available for ticket in .. *)
| MsgOpening (section row : string)        (* Opening ticket in browser: .. Row .. *)
| MsgOpened (section row : string)         (* Opened ticket page for .. Row ..! *)
| MsgFailedToOpen (e : exn)                (* Failed to open browser: .. *)
| MsgEntering                              (* Entering main monitoring loop *)
| MsgLogFile                               (* Logs are being written to: .. *)
| MsgNoTickets                             (* No tickets found *)
| MsgTicketsFound (n : nat)                (* .. tickets found! *)
| MsgError (e : exn)                       (* Error: .. *)
| MsgShuttingDown.                         (* Shutting down... *)

(** The URL [https://www.twickets.live/app/block/{block_id},{seats}], kept as
    the two values it is formatted from. *)
Record TicketUrl := {
  url_block_id : json;
  url_seats : string
}.

(** One value of the [found_tickets] dict. *)
Record TicketInfo := {
  ti_id : string;
  ti_section : string;
  ti_row : string;
  ti_seats : string;
  ti_price : Q;
  ti_status : string;
  ti_timestamp : nat
}.

(** What the bot does to the outside world, in the order it does it. *)
Inductive Event :=
| LogFound (l : TicketListing)
    (* logger.info("Main loop  : Found ticket - ...") *)
| BrowserOpen (l : TicketListing) (url : TicketUrl) (returned : bool)
    (* webbrowser.open(ticket_url) on behalf of listing l; returned = false
       when the call raised *)
| Notify (l : TicketListing) (block : json) (url : TicketUrl)
    (* the "ticket found" webhook post *)
| Sleep (seconds : float).

(** The attributes of [TwicketBot] the monitoring core uses.  [api_client] is
    [true] once the client object exists.  [clock] and [trace] belong to the
    world rather than to the object: [clock] is a logical clock that
    [datetime.now()] reads and advances, [trace] lists the events so far. *)
Record TwicketBot := {
  config : TwicketConfig;
  api_client : bool;
  auth_token : option string;
  status_messages : list (nat * StatusMsg * string);
  found_tickets : gmap string TicketInfo;
  opened_tickets : gset string;
  tickets_processed : nat;
  tickets_opened : nat;
  clock : nat;
  trace : list Event
}.

Definition set_status_messages v (b : TwicketBot) : TwicketBot :=
  {| config := config b; api_client := api_client b; auth_token := auth_token b;
     status_messages := v; found_tickets := found_tickets b;
     opened_tickets := opened_tickets b; tickets_processed := tickets_processed b;
     tickets_opened := tickets_opened b; clock := clock b; trace := trace b |}.

Definition set_found_tickets v (b : TwicketBot) : TwicketBot :=
  {| config := config b; api_client := api_client b; auth_token := auth_token b;
     status_messages := status_messages b; found_tickets := v;
     opened_tickets := opened_tickets b; tickets_processed := tickets_processed b;
     tickets_opened := tickets_opened b; clock := clock b; trace := trace b |}.

Definition set_opened_tickets v (b : TwicketBot) : TwicketBot :=
  {| config := config b; api_client := api_client b; auth_token := auth_token b;
     status_messages := status_messages b; found_tickets := found_tickets b;
     opened_tickets := v; tickets_processed := tickets_processed b;
     tickets_opened := tickets_opened b; clock := clock b; trace := trace b |}.

Definition set_tickets_processed v (b : TwicketBot) : TwicketBot :=
  {| config := config b; api_client := api_client b; auth_token := auth_token b;
     status_messages := status_messages b; found_tickets := found_tickets b;
     opened_tickets := opened_tickets b; tickets_processed := v;
     tickets_opened := tickets_opened b; clock := clock b; trace := trace b |}.

Definition set_tickets_opened v (b : TwicketBot) : TwicketBot :=
  {| config := config b; api_client := api_client b; auth_token := auth_token b;
     status_messages := status_messages b; found_tickets := found_tickets b;
     opened_tickets := opened_tickets b; tickets_processed := tickets_processed b;
     tickets_opened := v; clock := clock b; trace := trace b |}.

Definition set_clock v (b : TwicketBot) : TwicketBot :=
  {| config := config b; api_client := api_client b; auth_token := auth_token b;
     status_messages := status_messages b; found_tickets := found_tickets b;
     opened_tickets := opened_tickets b; tickets_processed := tickets_processed b;
     tickets_opened := tickets_opened b; clock := v; trace := trace b |}.

Definition set_trace v (b : TwicketBot) : TwicketBot :=
  {| config := config b; api_client := api_client b; auth_token := auth_token b;
     status_messages := status_messages b; found_tickets := found_tickets b;
     opened_tickets := opened_tickets b; tickets_processed := tickets_processed b;
     tickets_opened := tickets_opened b; clock := clock b; trace := v |}.

(** [TwicketBot.__init__]. *)
Definition new_bot (cfg : TwicketConfig) : TwicketBot :=
  {| config := cfg; api_client := false; auth_token := None;
     status_messages := []; found_tickets := ∅; opened_tickets := ∅;
     tickets_processed := 0; tickets_opened := 0; clock := 0; trace := [] |}.

(** ** Methods: state and exceptions *)

Definition M (A : Type) : Type := TwicketBot -> result A * TwicketBot.

Definition ret {A} (a : A) : M A := fun b => (Ok a, b).

Definition bind {A B} (c : M A) (k : A -> M B) : M B :=
  fun b =>
    match c b with
    | (Ok a, b') => k a b'
    | (Raise e, b') => (Raise e, b')
    end.

Definition raise {A} (e : exn) : M A := fun b => (Raise e, b).

Definition lift {A} (c : result A) : M A := fun b => (c, b).

Definition get : M TwicketBot := fun b => (Ok b, b).

Definition modify (f : TwicketBot -> TwicketBot) : M unit := fun b => (Ok tt, f b).

(** [try: body / except Exception as e: handler(e)]. *)
Definition try_except {A} (body : M A) (handler : exn -> M A) : M A :=
  fun b =>
    match body b with
    | (Raise e, b') => if is_Exception e then handler e b' else (Raise e, b')
    | r => r
    end.

Declare Scope m_scope.
Delimit Scope m_scope with M.
Notation "'do' x <- c ; k" := (bind c (fun x => k))
  (at level 10, x name, c at level 100, k at level 200) : m_scope.
Notation "c ;; k" := (bind c (fun _ => k))
  (at level 100, k at level 200, right associativity) : m_scope.

Local Open Scope m_scope.

(** [datetime.now()]. *)
Definition datetime_now : M nat :=
  fun b => (Ok (clock b), set_clock (S (clock b)) b).

Definition emit (ev : Event) : M unit :=
  modify (fun b => set_trace (trace b ++ [ev]) b).

(** [_get_random_sleep_time]: [random.uniform(a, b)] is
    [a + (b - a) * random()] in binary64, and [r] is what [random()]
    returned, a float in [[0, 1)]. *)
Definition uniform (a b r : float) : float := (a + (b - a) * r)%float.

Definition _get_random_sleep_time (base_time r : float) : float :=
  uniform base_time (base_time * 1.5)%float r.

(** [_add_status_message]: stamp, append, keep the last ten. *)
Definition _add_status_message (message : StatusMsg) (style : string) : M unit :=
  do timestamp <- datetime_now;
  modify (fun b =>
    let msgs := status_messages b ++ [(timestamp, message, style)] in
    set_status_messages (if (10 <? length msgs)%nat then tail msgs else msgs) b).

(** [self.found_tickets[key]['status'] = status]; the dict stored under
    [key] is changed in place. *)
Definition set_status (key status : string) (b : TwicketBot) : TwicketBot :=
  set_found_tickets
    (alter (fun ti => {| ti_id := ti_id ti; ti_section := ti_section ti;
                         ti_row := ti_row ti; ti_seats := ti_seats ti;
                         ti_price := ti_price ti; ti_status := status;
                         ti_timestamp := ti_timestamp ti |}) key (found_tickets b)) b.

(** [_should_skip_listing]. *)
Definition _should_skip_listing (listing : TicketListing)
    (ticket_availability : option TicketAvailability) : M bool :=
  do b <- get;
  do seats <- lift (py_int (tl_seats listing));
  (* Skip if too few seats *)
  if (seats <? min_seats (config b))%Z then
    _add_status_message (MsgTooFewSeats (tl_seats listing)) "dim yellow";;
    ret true
  (* Skip if too many seats *)
  else if (seats >=? max_seats (config b))%Z then
    _add_status_message (MsgTooManySeats (tl_seats listing)) "dim yellow";;
    ret true
  (* Skip if price exceeds maximum *)
  else if match max_price (config b) with
          | Some mp => Qgtb (tl_price listing) mp
          | None => false
          end then
    _add_status_message (MsgPriceTooHigh (tl_price listing)) "dim yellow";;
    ret true
  (* Skip if not available *)
  else if match ticket_availability with
          | Some ta => negb (available ta)
          | None => true
          end then
    _add_status_message MsgUnavailable "dim red";;
    let ticket_key :=
      tl_section listing +:+ "-" +:+ tl_row listing +:+ "-" +:+ tl_seats listing in
    modify (fun b =>
      match found_tickets b !! ticket_key with
      | Some _ => set_status ticket_key "No Longer Available" b
      | None => b
      end);;
    ret true
  else
    (* Skip meetup delivery if configured *)
    let plans := from_option delivery_plan [] ticket_availability in
    if skip_meetup_delivery (config b)
       && match plans with [] => false | _ => true end
       && existsb (fun plan => py_eq_1 (delivery_method plan)) plans
    then
      _add_status_message MsgMeetup "dim yellow";;
      ret true
    else ret false.

(** What the world does while one listing is processed: the outcome of the
    availability request and, if [webbrowser.open] is reached, whether it
    raises. *)
Record Candidate := {
  page_result : json + exn;
  open_raises : option exn
}.

(** [webbrowser.open(ticket_url)]. *)
Definition webbrowser_open (w : Candidate) (l : TicketListing) (url : TicketUrl) : M unit :=
  match open_raises w with
  | Some e => emit (BrowserOpen l url false);; raise e
  | None => emit (BrowserOpen l url true)
  end.

(** [notification_service.notify_ticket_found]: posts only when a webhook is
    configured, and swallows every failure of the post. *)
Definition notify_ticket_found (l : TicketListing) (block : json) (url : TicketUrl) : M unit :=
  do b <- get;
  match discord_webhook_url (config b) with
  | Some hook => if String.eqb hook "" then ret tt else emit (Notify l block url)
  | None => ret tt
  end.

Definition token_ok (t : option string) : bool :=
  match t with
  | Some s => negb (String.eqb s "")
  | None => false
  end.

Definition ticket_key_of (listing : TicketListing) : string :=
  tl_section listing +:+ "-" +:+ tl_row listing +:+ "-" +:+ tl_seats listing
    +:+ "-" +:+ tl_id listing.

(** [_process_listing]. *)
Definition _process_listing (w : Candidate) (listing : TicketListing) : M bool :=
  do b <- get;
  if negb (api_client b) || negb (token_ok (auth_token b)) then ret false else
  modify (fun b => set_tickets_processed (S (tickets_processed b)) b);;
  (* Create unique key for the ticket *)
  let ticket_key := ticket_key_of listing in
  (* Add or update ticket info *)
  do now <- datetime_now;
  modify (fun b =>
    match found_tickets b !! ticket_key with
    | None =>
        set_found_tickets
          (<[ticket_key := {| ti_id := tl_id listing; ti_section := tl_section listing;
                              ti_row := tl_row listing; ti_seats := tl_seats listing;
                              ti_price := tl_price listing; ti_status := "Checking...";
                              ti_timestamp := now |}]> (found_tickets b)) b
    | Some ti =>
        set_found_tickets
          (<[ticket_key := {| ti_id := tl_id listing; ti_section := ti_section ti;
                              ti_row := ti_row ti; ti_seats := ti_seats ti;
                              ti_price := ti_price ti; ti_status := "Checking...";
                              ti_timestamp := now |}]> (found_tickets b)) b
    end);;
  (* Check availability *)
  do ticket_availability <- lift (get_ticket_availability (page_result w));
  do skip <- _should_skip_listing listing ticket_availability;
  if skip then
    modify (set_status ticket_key "Skipped");;
    ret false
  else
  (* Check if we've already opened this ticket *)
  do b <- get;
  if bool_decide (tl_id listing ∈ opened_tickets b) then
    modify (set_status ticket_key "Already Opened");;
    _add_status_message (MsgAlreadyOpened (tl_section listing) (tl_row listing)) "dim yellow";;
    ret false
  else
  (* Get block ID for URL construction *)
  do ta <- match ticket_availability with
           | Some ta => ret ta
           | None => raise AttributeError
           end;
  match block ta with
  | None =>
      modify (set_status ticket_key "No Block Info");;
      _add_status_message (MsgNoBlockInfo (tl_section listing)) "red";;
      ret false
  | Some blk =>
      let ticket_url := {| url_block_id := block_id blk; url_seats := tl_seats listing |} in
      _add_status_message (MsgOpening (tl_section listing) (tl_row listing)) "cyan bold";;
      try_except
        (webbrowser_open w listing ticket_url;;
         modify (fun b => set_opened_tickets ({[tl_id listing]} ∪ opened_tickets b) b);;
         modify (fun b => set_tickets_opened (S (tickets_opened b)) b);;
         modify (set_status ticket_key "Opened in Browser");;
         _add_status_message (MsgOpened (tl_section listing) (tl_row listing)) "green bold";;
         notify_ticket_found listing (block_id blk) ticket_url;;
         ret true)
        (fun e =>
         modify (set_status ticket_key "Failed to Open");;
         _add_status_message (MsgFailedToOpen e) "red bold";;
         ret false)
  end.

(** ** The monitoring loop *)

(** What the world does during one pass of the [while True] body:
    the outcome of [check_event_availability], the world of the [i]-th
    listing processed in that pass, and the value [random()] returns for the
    sleep. *)
Record Cycle := {
  fetch : result (option (list TicketListing));
  candidate : nat -> Candidate;
  random : float
}.

(** [for listing in options: ...], the [i]-th listing first. *)
Fixpoint process_all (w : Cycle) (i : nat) (options : list TicketListing) : M unit :=
  match options with
  | [] => ret tt
  | listing :: rest =>
      emit (LogFound listing);;
      do _ <- _process_listing (candidate w i) listing;
      process_all w (S i) rest
  end.

(** The [try] block of the loop body (bot.py, lines 356-373, without the
    repaint of the display). *)
Definition cycle_body (w : Cycle) : M unit :=
  do options <- lift (fetch w);
  match options with
  | None | Some [] => _add_status_message MsgNoTickets "dim"
  | Some options =>
      _add_status_message (MsgTicketsFound (length options)) "cyan bold";;
      (* Sort by section and process *)
      process_all w 0 (sort_listings_by_section options)
  end.

(** One pass of the [while True] body: the guarded block, then the sleep. *)
Definition cycle (w : Cycle) : M unit :=
  try_except (cycle_body w) (fun e => _add_status_message (MsgError e) "red");;
  do b <- get;
  emit (Sleep (_get_random_sleep_time (time_delay (config b)) (random w))).

(** The [while True] loop, run for as many passes as the world is described
    for; an exception that leaves a pass leaves the loop. *)
Fixpoint monitoring_cycles (ws : list Cycle) : M unit :=
  match ws with
  | [] => ret tt
  | w :: rest => cycle w;; monitoring_cycles rest
  end.

(** [run_monitoring_loop] from the point where [initialize] has succeeded:
    the announcement, the loop, and the [KeyboardInterrupt] handler. *)
Definition run_monitoring_loop (ws : list Cycle) : M unit :=
  fun b =>
    match (_add_status_message MsgEntering "cyan";;
           _add_status_message MsgLogFile "dim";;
           monitoring_cycles ws) b with
    | (Raise KeyboardInterrupt, b') => _add_status_message MsgShuttingDown "yellow" b'
    | r => r
    end.

(** ** A world for examples *)

Definition default_config : TwicketConfig :=
  {| event_id := "1234"; time_delay := 2; discord_webhook_url := None;
     min_seats := 1; max_seats := 4; max_price := None;
     skip_meetup_delivery := true |}.

(** The bot once [initialize] has returned [True]. *)
Definition ready (tok : string) (b : TwicketBot) : TwicketBot :=
  {| config := config b; api_client := true; auth_token := Some tok;
     status_messages := status_messages b; found_tickets := found_tickets b;
     opened_tickets := opened_tickets b; tickets_processed := tickets_processed b;
     tickets_opened := tickets_opened b; clock := clock b; trace := trace b |}.

Definition bot0 : TwicketBot := ready "token" (new_bot default_config).

Definition listing_of (id seats section row : string) (price : Q) : TicketListing :=
  {| tl_id := id; tl_seats := seats; tl_type := "seated"; tl_area := "";
     tl_section := section; tl_row := row; tl_price := price |}.

Definition resp_available : json :=
  JObj [("available", JBool true);
        ("block", JObj [("blockId", JStr "B77")]);
        ("deliveryPlan", JArr [JObj [("deliveryMethod", JNum 3); ("title", JStr "E-ticket")]])].

(** The world in which the availability request returns [resp_available]
    and the browser opens. *)
Definition opening_world : Candidate :=
  {| page_result := inl resp_available; open_raises := None |}.

(** ** Observations *)

(** The status recorded in the ledger under [key]. *)
Definition status_of (key : string) (b : TwicketBot) : option string :=
  ti_status <$> found_tickets b !! key.

(** The value [get_ticket_availability] builds in its [else] branch. *)
Definition unavailable : TicketAvailability :=
  {| available := false; block := None; delivery_plan := [] |}.

(** The text of the newest status message. *)
Definition last_message (b : TwicketBot) : option StatusMsg :=
  (fun entry => snd (fst entry)) <$> last (status_messages b).

(** The listings announced by the loop, oldest first. *)
Definition found_log (tr : list Event) : list TicketListing :=
  omap (fun ev => match ev with LogFound l => Some l | _ => None end) tr.

(** The successful calls of [webbrowser.open] made for listing id [id]. *)
Definition is_open_of (id : string) (ev : Event) : bool :=
  match ev with
  | BrowserOpen l _ true => String.eqb (tl_id l) id
  | _ => false
  end.

Definition opens_of (id : string) (tr : list Event) : nat :=
  length (List.filter (is_open_of id) tr).

(** ** States reached along the code *)

(** The bot after [_add_status_message message style]. *)
Definition with_message (message : StatusMsg) (style : string) (b : TwicketBot) : TwicketBot :=
  snd (_add_status_message message style b).

(** The bot after the bookkeeping at the head of [_process_listing]: the
    counter is bumped and the observation is recorded under the ticket key. *)
Definition observed (l : TicketListing) (b : TwicketBot) : TwicketBot :=
  snd ((modify (fun b => set_tickets_processed (S (tickets_processed b)) b);;
        do now <- datetime_now;
        modify (fun b =>
          match found_tickets b !! ticket_key_of l with
          | None =>
              set_found_tickets
                (<[ticket_key_of l :=
                     {| ti_id := tl_id l; ti_section := tl_section l;
                        ti_row := tl_row l; ti_seats := tl_seats l;
                        ti_price := tl_price l; ti_status := "Checking...";
                        ti_timestamp := now |}]> (found_tickets b)) b
          | Some ti =>
              set_found_tickets
                (<[ticket_key_of l :=
                     {| ti_id := tl_id l; ti_section := ti_section ti;
                        ti_row := ti_row ti; ti_seats := ti_seats ti;
                        ti_price := ti_price ti; ti_status := "Checking...";
                        ti_timestamp := now |}]> (found_tickets b)) b
          end)) b).

(** The bot after [notify_ticket_found]. *)
Definition notified (l : TicketListing) (blk : json) (url : TicketUrl) (b : TwicketBot)
  : TwicketBot :=
  snd (notify_ticket_found l blk url b).

(** The URL opened for a listing. *)
Definition url_of (blk : TicketBlock) (l : TicketListing) : TicketUrl :=
  {| url_block_id := block_id blk; url_seats := tl_seats l |}.

(** The bot after a call of [webbrowser.open] that returned, and after the
    four assignments and the notification that follow it. *)
Definition opened (l : TicketListing) (blk : TicketBlock) (b : TwicketBot) : TwicketBot :=
  let b := set_trace (trace b ++ [BrowserOpen l (url_of blk l) true]) b in
  let b := set_opened_tickets ({[tl_id l]} ∪ opened_tickets b) b in
  let b := set_tickets_opened (S (tickets_opened b)) b in
  let b := set_status (ticket_key_of l) "Opened in Browser" b in
  let b := with_message (MsgOpened (tl_section l) (tl_row l)) "green bold" b in
  notified l (block_id blk) (url_of blk l) b.

(** The bot after the sleep that ends a pass. *)
Definition slept (w : Cycle) (b : TwicketBot) : TwicketBot :=
  set_trace
    (trace b ++ [Sleep (_get_random_sleep_time (time_delay (config b)) (random w))]) b.

(** ** The conditions of the filter *)

(** The third, fourth and fifth test of [_should_skip_listing], as
    propositions and as the boolean expressions of the code. *)
Definition price_above_max (cfg : TwicketConfig) (l : TicketListing) : Prop :=
  exists mp, max_price cfg = Some mp /\ (mp < tl_price l)%Q.

Definition not_available (ta : option TicketAvailability) : Prop :=
  ta = None \/ exists t, ta = Some t /\ available t = false.

Definition meetup_only (cfg : TwicketConfig) (ta : option TicketAvailability) : Prop :=
  skip_meetup_delivery cfg = true /\
  exists t plan, ta = Some t /\ plan ∈ delivery_plan t /\
                 py_eq_1 (delivery_method plan) = true.

Definition price_check (cfg : TwicketConfig) (l : TicketListing) : bool :=
  match max_price cfg with
  | Some mp => Qgtb (tl_price l) mp
  | None => false
  end.

Definition availability_check (ta : option TicketAvailability) : bool :=
  match ta with
  | Some t => negb (available t)
  | None => true
  end.

Definition meetup_check (cfg : TwicketConfig) (ta : option TicketAvailability) : bool :=
  skip_meetup_delivery cfg
  && match from_option delivery_plan [] ta with [] => false | _ => true end
  && existsb (fun plan => py_eq_1 (delivery_method plan)) (from_option delivery_plan [] ta).

(** ** The order of sections *)

(** [s1 <= s2] on strings. *)
Definition str_le (s1 s2 : string) : Prop := String.leb s1 s2 = true.

Definition section_le (x y : TicketListing) : Prop :=
  str_le (tl_section x) (tl_section y).

(** The listings of one section, in the order of the list. *)
Definition of_section (s : string) (l : list TicketListing) : list TicketListing :=
  List.filter (fun x => String.eqb (tl_section x) s) l.

(** ** Steps and invariants *)

(** [b'] differs from [b] only in the display state: the status messages,
    the [found_tickets] ledger, the counters and the clock. *)
Definition same_world (b b' : TwicketBot) : Prop :=
  config b' = config b /\ api_client b' = api_client b /\
  auth_token b' = auth_token b /\ opened_tickets b' = opened_tickets b /\
  trace b' = trace b.

(** What one call of [_process_listing] does to the world: either nothing
    but a failed attempt to open, with the listing not reported as opened,
    or exactly one successful [webbrowser.open] for an id that was not yet
    in [opened_tickets], which is then added. *)
Definition quiet_step (l : TicketListing) (b b' : TwicketBot) : Prop :=
  opened_tickets b' = opened_tickets b /\
  (trace b' = trace b \/
   exists url, trace b' = trace b ++ [BrowserOpen l url false]).

Definition opening_step (l : TicketListing) (b b' : TwicketBot) : Prop :=
  (tl_id l ∉ opened_tickets b) /\
  opened_tickets b' = {[tl_id l]} ∪ opened_tickets b /\
  status_of (ticket_key_of l) b' = Some "Opened in Browser" /\
  exists url,
    trace b' = trace b ++ [BrowserOpen l url true] \/
    trace b' = trace b ++ [BrowserOpen l url true; Notify l (url_block_id url) url].

(** Every id has been opened successfully at most once, and only ids in
    [opened_tickets] have been opened at all. *)
Definition opened_once (b : TwicketBot) : Prop :=
  forall id,
    (opens_of id (trace b) <= 1)%nat /\
    (id ∉ opened_tickets b -> opens_of id (trace b) = 0%nat).

(** ** More worlds for examples *)

(** A configuration with a price limit. *)
Definition pricey_config : TwicketConfig :=
  {| event_id := "1234"; time_delay := 2; discord_webhook_url := None;
     min_seats := 2; max_seats := 4; max_price := Some 100%Q;
     skip_meetup_delivery := true |}.

(** A pass in which the same ticket is offered and the browser opens. *)
Definition same_ticket_cycle : Cycle :=
  {| fetch := Ok (Some [listing_of "900" "2" "A" "5" 50]);
     candidate := fun _ => {| page_result := inl resp_available; open_raises := None |};
     random := 0.5 |}.

(** The bot after five such passes. *)
Definition after_five_polls : TwicketBot :=
  snd (run_monitoring_loop (replicate 5 same_ticket_cycle) bot0).

(** Responses that say available without a block, and not available. *)
Definition resp_no_block : json := JObj [("available", JBool true)].

Definition resp_unavailable : json := JObj [("available", JBool false)].

(** A pass with sections B, A, A2, all of which can be opened. *)
Definition three_sections_cycle : Cycle :=
  {| fetch := Ok (Some [listing_of "1" "2" "B" "1" 10; listing_of "2" "2" "A" "1" 10;
                        listing_of "3" "2" "A2" "1" 10]);
     candidate := fun _ => opening_world;
     random := 0 |}.

(** A pass of two listings in which the availability request of the first
    one raises. *)
Definition failing_world : Candidate :=
  {| page_result := inr (ExternalError "Page.evaluate: net::ERR_TIMED_OUT");
     open_raises := None |}.

Definition first_fails_cycle : Cycle :=
  {| fetch := Ok (Some [listing_of "1" "2" "A" "1" 10; listing_of "2" "2" "B" "1" 10]);
     candidate := fun i => match i with O => failing_world | _ => opening_world end;
     random := 0 |}.

(** The largest value [random()] can return, [1 - 2^-53]. *)
Definition largest_draw : float := 0x1.fffffffffffffp-1%float.

(** ** More of the code *)

(** The status buffer holds at most ten messages. *)
Definition messages_bounded (b : TwicketBot) : Prop :=
  (length (status_messages b) <= 10)%nat.

(** utils/helpers.py, [is_valid_seat_count]: only a [ValueError] is caught. *)
Definition is_valid_seat_count (seats : string) (max_seats : Z) : result bool :=
  match py_int seats with
  | Ok seat_count => Ok ((1 <=? seat_count)%Z && (seat_count <? max_seats)%Z)
  | Raise ValueError => Ok false
  | Raise e => Raise e
  end.

(** A pass whose fetch raises, and one whose fetch is interrupted. *)
Definition fetch_fails_cycle : Cycle :=
  {| fetch := Raise (ExternalError "Page.evaluate: net::ERR_TIMED_OUT");
     candidate := fun _ => opening_world;
     random := 0 |}.

Definition interrupted_cycle : Cycle :=
  {| fetch := Raise KeyboardInterrupt;
     candidate := fun _ => opening_world;
     random := 0 |}.

(** The bot at the moment the [while True] loop is entered. *)
Definition announced (b : TwicketBot) : TwicketBot :=
  with_message MsgLogFile "dim" (with_message MsgEntering "cyan" b).

(** Two ledger entries that show the same section, row, seats and price. *)
Definition same_display (ti ti' : TicketInfo) : Prop :=
  ti_section ti' = ti_section ti /\ ti_row ti' = ti_row ti /\
  ti_seats ti' = ti_seats ti /\ ti_price ti' = ti_price ti.

(** The calls of [webbrowser.open] that returned, and the webhook posts. *)
Definition is_opened (ev : Event) : bool :=
  match ev with BrowserOpen _ _ true => true | _ => false end.

Definition total_opens (tr : list Event) : nat := length (List.filter is_opened tr).

Definition is_notify (ev : Event) : bool :=
  match ev with Notify _ _ _ => true | _ => false end.

Definition notifications (tr : list Event) : nat := length (List.filter is_notify tr).

(** [if not self.config.discord_webhook_url: return] does not hold. *)
Definition webhook_set (cfg : TwicketConfig) : bool :=
  match discord_webhook_url cfg with
  | Some hook => negb (String.eqb hook "")
  | None => false
  end.

(** The 'Tickets Opened' counter agrees with the set of opened ids and with
    the browser. *)
Definition opened_counted (b : TwicketBot) : Prop :=
  tickets_opened b = size (opened_tickets b) /\
  tickets_opened b = total_opens (trace b).

(** The 'Tickets Processed' counter of a logged-in bot agrees with the
    announcements. *)
Definition processed_counted (b : TwicketBot) : Prop :=
  api_client b = true /\ token_ok (auth_token b) = true /\
  tickets_processed b = length (found_log (trace b)).

(** One webhook post per opened ticket when a webhook is set, none
    otherwise; the configuration is [cfg]. *)
Definition notified_per_open (cfg : TwicketConfig) (b : TwicketBot) : Prop :=
  config b = cfg /\
  notifications (trace b) = if webhook_set cfg then total_opens (trace b) else 0%nat.

(** A configuration with a webhook. *)
Definition webhook_config : TwicketConfig :=
  {| event_id := "1234"; time_delay := 2;
     discord_webhook_url := Some "https://discord.example/api/webhooks/1";
     min_seats := 1; max_seats := 4; max_price := None;
     skip_meetup_delivery := true |}.

(** The ticket of [same_ticket_cycle] offered again at a higher price. *)
Definition dearer_ticket_cycle : Cycle :=
  {| fetch := Ok (Some [listing_of "900" "2" "A" "5" 80]);
     candidate := fun _ => opening_world;
     random := 0 |}.

(** The ledger entry made for the ticket of [same_ticket_cycle]. *)
Definition first_entry : TicketInfo :=
  {| ti_id := "900"; ti_section := "A"; ti_row := "5"; ti_seats := "2";
     ti_price := 50; ti_status := "Already Opened"; ti_timestamp := 16 |}.

(** The world in which the ticket is available and [webbrowser.open] raises. *)
Definition no_browser_world : Candidate :=
  {| page_result := inl resp_available;
     open_raises := Some (ExternalError "could not locate runnable browser") |}.

(** services/api_client.py, [login]; [page_result] is what the page call did.
    The page hands back a dict with the keys [json], [status], [headers] and
    [text].  The log lines of the [try] block and of its handler read the
    dict again, and a read in the handler that fails is not caught. *)
Definition login (page_result : json + exn) : result (option json) :=
  (do result <- of_sum page_result;
   match (do json_result <- of_sum (py_getitem result "json");
          do _ <- of_sum (py_getitem result "status");
          Ok json_result) with
   | Raise e =>
       if is_Exception e then
         do _ <- of_sum (py_getitem result "status");
         do _ <- of_sum (py_getitem result "headers");
         do _ <- of_sum (py_getitem result "text");
         Ok None
       else Raise e
   | Ok json_result =>
       do has_token <-
         (if truthy json_result
          then do d <- of_sum (py_get json_result "responseData" JNull); Ok (truthy d)
          else Ok false);
       if has_token then
         do auth_token <- of_sum (py_getitem json_result "responseData");
         Ok (Some auth_token)
       else Ok None
   end)%exc.

(** A login response as the page builds it. *)
Definition login_response (body : json) : json :=
  JObj [("json", body); ("status", JNum 200); ("headers", JObj []); ("text", JStr "")].

(** ** services/browser_manager.py *)

(** The calls the manager makes on Playwright objects. *)
Inductive BrowserCall :=
| StartPlaywright    (* sync_playwright().start() *)
| LaunchBrowser      (* playwright.chromium.launch(..) *)
| NewContext         (* browser.new_context(..) *)
| AddCookies         (* context.add_cookies(..) *)
| NewPage            (* context.new_page() *)
| GotoHome           (* page.goto('https://www.twickets.live') *)
| ClosePage          (* page.close() *)
| CloseContext       (* context.close() *)
| CloseBrowser       (* browser.close() *)
| StopPlaywright.    (* playwright.stop() *)

(** The four attributes of [BrowserManager], each [true] when it holds an
    object rather than [None], and the calls that have returned so far. *)
Record BrowserManager := {
  bm_playwright : bool;
  bm_browser : bool;
  bm_context : bool;
  bm_page : bool;
  bm_calls : list BrowserCall
}.

(** [BrowserManager.__init__]. *)
Definition new_manager : BrowserManager :=
  {| bm_playwright := false; bm_browser := false; bm_context := false;
     bm_page := false; bm_calls := [] |}.

Definition BM (A : Type) : Type := BrowserManager -> result A * BrowserManager.

Definition bm_bind {A B} (c : BM A) (k : A -> BM B) : BM B :=
  fun m =>
    match c m with
    | (Ok a, m') => k a m'
    | (Raise e, m') => (Raise e, m')
    end.

(** A call on a Playwright object; [raises] tells which calls fail. *)
Definition bm_call (raises : BrowserCall -> option exn) (c : BrowserCall) : BM unit :=
  fun m =>
    match raises c with
    | Some e => (Raise e, m)
    | None =>
        (Ok tt,
         {| bm_playwright := bm_playwright m; bm_browser := bm_browser m;
            bm_context := bm_context m; bm_page := bm_page m;
            bm_calls := bm_calls m ++ [c] |})
    end.

Definition set_bm_playwright (v : bool) : BM unit :=
  fun m => (Ok tt, {| bm_playwright := v; bm_browser := bm_browser m;
                      bm_context := bm_context m; bm_page := bm_page m;
                      bm_calls := bm_calls m |}).

Definition set_bm_browser (v : bool) : BM unit :=
  fun m => (Ok tt, {| bm_playwright := bm_playwright m; bm_browser := v;
                      bm_context := bm_context m; bm_page := bm_page m;
                      bm_calls := bm_calls m |}).

Definition set_bm_context (v : bool) : BM unit :=
  fun m => (Ok tt, {| bm_playwright := bm_playwright m; bm_browser := bm_browser m;
                      bm_context := v; bm_page := bm_page m;
                      bm_calls := bm_calls m |}).

Definition set_bm_page (v : bool) : BM unit :=
  fun m => (Ok tt, {| bm_playwright := bm_playwright m; bm_browser := bm_browser m;
                      bm_context := bm_context m; bm_page := v;
                      bm_calls := bm_calls m |}).

Declare Scope bm_scope.
Delimit Scope bm_scope with BM.
Notation "c ;; k" := (bm_bind c (fun _ => k))
  (at level 100, k at level 200, right associativity) : bm_scope.

(** [BrowserManager.initialize]. *)
Definition bm_initialize (raises : BrowserCall -> option exn) : BM unit :=
  (bm_call raises StartPlaywright;; set_bm_playwright true;;
   bm_call raises LaunchBrowser;; set_bm_browser true;;
   bm_call raises NewContext;; set_bm_context true;;
   bm_call raises AddCookies;;
   bm_call raises NewPage;; set_bm_page true;;
   bm_call raises GotoHome)%BM.

(** [BrowserManager.cleanup]. *)
Definition bm_cleanup (raises : BrowserCall -> option exn) : BM unit :=
  ((fun m => if bm_page m
             then (bm_call raises ClosePage;; set_bm_page false) m
             else (Ok tt, m));;
   (fun m => if bm_context m
             then (bm_call raises CloseContext;; set_bm_context false) m
             else (Ok tt, m));;
   (fun m => if bm_browser m
             then (bm_call raises CloseBrowser;; set_bm_browser false) m
             else (Ok tt, m));;
   (fun m => if bm_playwright m
             then (bm_call raises StopPlaywright;; set_bm_playwright false) m
             else (Ok tt, m)))%BM.

(** The closing calls never fail. *)
Definition closes_work (raises : BrowserCall -> option exn) : Prop :=
  raises ClosePage = None /\ raises CloseContext = None /\
  raises CloseBrowser = None /\ raises StopPlaywright = None.

(** Nothing is held. *)
Definition all_released (m : BrowserManager) : Prop :=
  bm_playwright m = false /\ bm_browser m = false /\
  bm_context m = false /\ bm_page m = false.

(** The closing calls [cleanup] makes for what the manager holds. *)
Definition closing_calls (m : BrowserManager) : list BrowserCall :=
  (if bm_page m then [ClosePage] else []) ++
  (if bm_context m then [CloseContext] else []) ++
  (if bm_browser m then [CloseBrowser] else []) ++
  (if bm_playwright m then [StopPlaywright] else []).

(** How often a call was made. *)
Definition made (c : BrowserCall) (m : BrowserManager) : nat :=
  length (List.filter
            (fun c' => match c, c' with
                       | StartPlaywright, StartPlaywright | LaunchBrowser, LaunchBrowser
                       | NewContext, NewContext | AddCookies, AddCookies
                       | NewPage, NewPage | GotoHome, GotoHome
                       | ClosePage, ClosePage | CloseContext, CloseContext
                       | CloseBrowser, CloseBrowser | StopPlaywright, StopPlaywright => true
                       | _, _ => false
                       end) (bm_calls m)).

(** A world in which launching the browser fails and one in which nothing
    does. *)
Definition launch_fails (c : BrowserCall) : option exn :=
  match c with
  | LaunchBrowser => Some (ExternalError "Executable doesn't exist")
  | _ => None
  end.

Definition nothing_fails (c : BrowserCall) : option exn := None.

(** ** The order of a pass *)

(** The listings for which [webbrowser.open] returned, oldest first. *)
Definition opened_log (tr : list Event) : list TicketListing :=
  omap (fun ev => match ev with BrowserOpen l _ true => Some l | _ => None end) tr.

(** A listing that qualifies in world [w]: the availability request returns
    an available ticket with a block, none of the five tests of the filter
    objects, and the browser opens. *)
Definition qualifies (cfg : TwicketConfig) (w : Candidate) (l : TicketListing) : Prop :=
  exists t blk seats,
    get_ticket_availability (page_result w) = Ok (Some t) /\
    block t = Some blk /\
    py_int (tl_seats l) = Ok seats /\
    (min_seats cfg <= seats < max_seats cfg)%Z /\
    ~ price_above_max cfg l /\
    ~ not_available (Some t) /\
    ~ meetup_only cfg (Some t) /\
    open_raises w = None.

(** ** Binary64 numbers as integers *)

(** The operations of [PrimFloat] are specified by those of [SpecFloat] on
    a sign, a mantissa and an exponent.  What follows measures such numbers
    in one unit, so that the bounds on the sleep time become statements
    about integers. *)

(** Every finite binary64 number is a multiple of [2^-1074], and a product
    of two of them a multiple of [2^-2148]: [units m e] is [m * 2^e] counted
    in units of [2^-2148]. *)
Definition units (m e : Z) : Z := (m * 2 ^ (e + 2148))%Z.

(** The number of binary digits of [n > 0]. *)
Definition bits (n : Z) : Z := (Z.log2 n + 1)%Z.

(** The exponent, in units, of the last binary place binary64 keeps of a
    number of size [n]: 53 significant digits, and nothing below
    [2^-1074]. *)
Definition last_place (n : Z) : Z := Z.max (bits n - 53) 1074.

(** [n / 2^k] rounded to the nearest integer, ties to even. *)
Definition round_even (k n : Z) : Z :=
  let q := (n / 2 ^ k)%Z in
  let r := (n mod 2 ^ k)%Z in
  if (2 * r <? 2 ^ k)%Z then q
  else if (2 ^ k <? 2 * r)%Z then (q + 1)%Z
  else if Z.even q then q else (q + 1)%Z.

(** Rounding to binary64, on numbers counted in units. *)
Definition round64 (n : Z) : Z :=
  (round_even (last_place n) n * 2 ^ last_place n)%Z.

(** The value of a non-negative float, in units. *)
Definition value (x : spec_float) : Z :=
  match x with
  | S754_finite false m e => units (Zpos m) e
  | _ => 0%Z
  end.

(** Zero or a positive finite binary64 number. *)
Definition nonneg_finite (x : spec_float) : Prop :=
  match x with
  | S754_zero _ => True
  | S754_finite false m e => bounded prec emax m e = true
  | _ => False
  end.

(** [x] is what an operation returns whose rounded result is [y] units:
    the float of that value, or infinity when [y] is out of range. *)
Definition represents (x : spec_float) (y : Z) : Prop :=
  match x with
  | S754_zero _ => y = 0%Z
  | S754_finite false m e => bounded prec emax m e = true /\ units (Zpos m) e = y
  | S754_infinity false => (2 ^ (1024 + 2148) <= y)%Z
  | _ => False
  end.

(** * Properties *)

(** ** The availability request *)

Lemma get_ticket_availability_cases page_result ta :
  get_ticket_availability page_result = Ok (Some ta) ->
  (available ta = true /\ is_Some (block ta)) \/ ta = unavailable.
Proof.
  unfold get_ticket_availability, rbind.
  destruct page_result as [r|e]; simpl; [|discriminate].
  destruct (truthy r); [|discriminate].
  destruct (of_sum (py_get r "available" (JBool false))) as [av|]; [|discriminate].
  destruct (truthy av).
  - destruct (of_sum (py_get r "block" JNull)) as [bv|]; [|discriminate].
    destruct (truthy bv).
    + destruct (of_sum (py_get r "deliveryPlan" (JArr []))) as [pl|]; [|discriminate].
      destruct (of_sum (py_iter pl)) as [items|]; [|discriminate].
      destruct (comprehension make_delivery_plan items) as [dp|]; [|discriminate].
      destruct (of_sum (py_getitem r "block")) as [blk|]; [|discriminate].
      destruct (of_sum (py_getitem blk "blockId")) as [bid|]; [|discriminate].
      intros [= <-]. left. simpl. split; [reflexivity | eexists; reflexivity].
    + intros [= <-]. right. reflexivity.
  - intros [= <-]. right. reflexivity.
Qed.

Lemma get_ticket_availability_block_falsy fields v :
  assoc "available" fields = Some v -> truthy v = true ->
  truthy (from_option (fun x => x) JNull (assoc "block" fields)) = false ->
  get_ticket_availability (inl (JObj fields)) = Ok (Some unavailable).
Proof.
  intros Hav Hv Hb.
  assert (Ht : truthy (JObj fields) = true)
    by (destruct fields; [discriminate Hav | reflexivity]).
  unfold get_ticket_availability.
  cbn [of_sum rbind py_get]. rewrite Ht, Hav.
  cbn [from_option]. rewrite Hv, Hb. reflexivity.
Qed.

Lemma get_ticket_availability_not_available fields :
  fields <> [] ->
  truthy (from_option (fun x => x) (JBool false) (assoc "available" fields)) = false ->
  get_ticket_availability (inl (JObj fields)) = Ok (Some unavailable).
Proof.
  intros Hne Hav.
  assert (Ht : truthy (JObj fields) = true)
    by (destruct fields; [congruence | reflexivity]).
  unfold get_ticket_availability.
  cbn [of_sum rbind py_get]. rewrite Ht, Hav. reflexivity.
Qed.

(** C9. [get_ticket_availability] never returns a result that is available
    and has no block: a response whose [available] is true but whose [block]
    is absent (or otherwise falsy) comes back as [available=False],
    [block=None], [delivery_plan=[]], the very value returned for a response
    whose [available] is false or missing. *)
Theorem get_ticket_availability_never_available_without_block :
  (forall page_result ta,
      get_ticket_availability page_result = Ok (Some ta) ->
      available ta = true -> block ta <> None) /\
  (forall fields v,
      assoc "available" fields = Some v -> truthy v = true ->
      assoc "block" fields = None ->
      get_ticket_availability (inl (JObj fields)) = Ok (Some unavailable)) /\
  (forall fields,
      fields <> [] ->
      truthy (from_option (fun x => x) (JBool false) (assoc "available" fields)) = false ->
      get_ticket_availability (inl (JObj fields)) = Ok (Some unavailable)).
Proof.
  split; [|split].
  - intros r ta H Hav.
    destruct (get_ticket_availability_cases r ta H) as [[_ [blk Hb]] | ->].
    + rewrite Hb. discriminate.
    + discriminate Hav.
  - intros fields v Hav Hv Hb.
    apply (get_ticket_availability_block_falsy fields v Hav Hv).
    rewrite Hb. reflexivity.
  - apply get_ticket_availability_not_available.
Qed.

Lemma get_ticket_availability_never_available_without_block_witness :
  get_ticket_availability (inl (JObj [("available", JBool true)])) = Ok (Some unavailable).
Proof.
  apply (proj1 (proj2 get_ticket_availability_never_available_without_block)
           [("available", JBool true)] (JBool true)); reflexivity.
Defined.

(** Other shapes of the [block] field: an empty dict counts as absent; a
    dict without [blockId] makes the subscript raise; a [blockId] of null is
    taken as it is. *)
Example get_ticket_availability_block_shapes :
  get_ticket_availability
    (inl (JObj [("available", JBool true); ("block", JObj [])]))
    = Ok (Some unavailable) /\
  get_ticket_availability
    (inl (JObj [("available", JBool true); ("block", JObj [("id", JStr "B77")])]))
    = Raise (KeyError "blockId") /\
  get_ticket_availability
    (inl (JObj [("available", JBool true); ("block", JObj [("blockId", JNull)])]))
    = Ok (Some {| available := true; block := Some {| block_id := JNull |};
                  delivery_plan := [] |}) /\
  get_ticket_availability (inl (JObj [])) = Ok None /\
  get_ticket_availability (inl (JArr [JNum 1])) = Raise AttributeError.
Proof. repeat split. Qed.

(** ** Status messages *)

Lemma add_status_message_eq m s b :
  _add_status_message m s b = (Ok tt, with_message m s b).
Proof. reflexivity. Qed.

Lemma last_tail_snoc {A} (l : list A) (x : A) :
  (1 < length (l ++ [x]))%nat -> last (tail (l ++ [x])) = Some x.
Proof.
  destruct l as [|y l]; simpl.
  - lia.
  - intros _. apply last_snoc.
Qed.

Lemma last_message_with_message m s b :
  last_message (with_message m s b) = Some m.
Proof.
  unfold last_message, with_message, _add_status_message, bind, datetime_now, modify.
  simpl.
  destruct (10 <? length (status_messages b ++ [(clock b, m, s)]))%nat eqn:E.
  - apply Nat.ltb_lt in E. rewrite last_tail_snoc by lia. reflexivity.
  - rewrite last_snoc. reflexivity.
Qed.

(** ** The acceptance filter *)

Lemma price_check_spec cfg l : price_check cfg l = true <-> price_above_max cfg l.
Proof.
  unfold price_check, price_above_max, Qgtb.
  destruct (max_price cfg) as [mp|].
  - rewrite negb_true_iff. split.
    + intros H. exists mp. split; [reflexivity|].
      apply Qnot_le_lt. intros Hle. apply Qle_bool_iff in Hle. congruence.
    + intros (mp' & [= <-] & Hlt).
      destruct (Qle_bool (tl_price l) mp) eqn:E; [|reflexivity].
      apply Qle_bool_iff in E. exfalso. exact (Qlt_not_le _ _ Hlt E).
  - split; [discriminate|]. intros (mp & H & _). discriminate.
Qed.

Lemma availability_check_spec ta : availability_check ta = true <-> not_available ta.
Proof.
  unfold availability_check, not_available.
  destruct ta as [t|].
  - rewrite negb_true_iff. split.
    + intros H. right. exists t. auto.
    + intros [H | (t' & [= <-] & H)]; [discriminate | exact H].
  - split; auto.
Qed.

Lemma meetup_check_spec cfg ta : meetup_check cfg ta = true <-> meetup_only cfg ta.
Proof.
  unfold meetup_check, meetup_only.
  rewrite !andb_true_iff, existsb_exists.
  split.
  - intros [[Hs _] (plan & Hin & Hp)].
    split; [exact Hs|].
    destruct ta as [t|]; simpl in Hin; [|contradiction].
    exists t, plan. rewrite list_elem_of_In. auto.
  - intros [Hs (t & plan & -> & Hin & Hp)]. simpl.
    apply list_elem_of_In in Hin.
    repeat split; [exact Hs | | eauto].
    destruct (delivery_plan t); [destruct Hin | reflexivity].
Qed.

(** The branch [_should_skip_listing] takes, once [int(listing.seats)] has
    succeeded. *)
Lemma should_skip_listing_eq l ta b seats :
  py_int (tl_seats l) = Ok seats ->
  _should_skip_listing l ta b =
    if (seats <? min_seats (config b))%Z then
      (Ok true, with_message (MsgTooFewSeats (tl_seats l)) "dim yellow" b)
    else if (seats >=? max_seats (config b))%Z then
      (Ok true, with_message (MsgTooManySeats (tl_seats l)) "dim yellow" b)
    else if price_check (config b) l then
      (Ok true, with_message (MsgPriceTooHigh (tl_price l)) "dim yellow" b)
    else if availability_check ta then
      (Ok true,
       let b' := with_message MsgUnavailable "dim red" b in
       let key := tl_section l +:+ "-" +:+ tl_row l +:+ "-" +:+ tl_seats l in
       match found_tickets b' !! key with
       | Some _ => set_status key "No Longer Available" b'
       | None => b'
       end)
    else if meetup_check (config b) ta then
      (Ok true, with_message MsgMeetup "dim yellow" b)
    else (Ok false, b).
Proof.
  intros Hs.
  unfold _should_skip_listing, bind at 1. unfold get.
  unfold bind at 1. unfold lift at 1. rewrite Hs.
  fold (price_check (config b) l). fold (availability_check ta).
  fold (meetup_check (config b) ta).
  destruct (seats <? min_seats (config b))%Z; [reflexivity|].
  destruct (seats >=? max_seats (config b))%Z; [reflexivity|].
  destruct (price_check (config b) l); [reflexivity|].
  destruct (availability_check ta); [reflexivity|].
  destruct (meetup_check (config b) ta); reflexivity.
Qed.

Lemma should_skip_listing_raises l ta b e :
  py_int (tl_seats l) = Raise e ->
  _should_skip_listing l ta b = (Raise e, b).
Proof.
  intros Hs.
  unfold _should_skip_listing, bind at 1. unfold get.
  unfold bind at 1. unfold lift at 1. rewrite Hs. reflexivity.
Qed.

Lemma last_message_set_status key st b :
  last_message (set_status key st b) = last_message b.
Proof. reflexivity. Qed.

Lemma last_message_unavailable_branch key b :
  last_message
    (match found_tickets (with_message MsgUnavailable "dim red" b) !! key with
     | Some _ => set_status key "No Longer Available" (with_message MsgUnavailable "dim red" b)
     | None => with_message MsgUnavailable "dim red" b
     end) = Some MsgUnavailable.
Proof.
  destruct (found_tickets (with_message MsgUnavailable "dim red" b) !! key);
    [rewrite last_message_set_status|]; apply last_message_with_message.
Qed.

Ltac bool_cases :=
  repeat match goal with
  | H : context [(?a <? ?b)%Z] |- _ => destruct (Z.ltb_spec a b)
  | |- context [(?a <? ?b)%Z] => destruct (Z.ltb_spec a b)
  | H : context [(?a >=? ?b)%Z] |- _ => rewrite Z.geb_leb in H
  | |- context [(?a >=? ?b)%Z] => rewrite Z.geb_leb
  | H : context [(?a <=? ?b)%Z] |- _ => destruct (Z.leb_spec a b)
  | |- context [(?a <=? ?b)%Z] => destruct (Z.leb_spec a b)
  end.

(** C5. The filter tries its reasons in the order: too few seats, too many
    seats, price above the maximum, unavailable, meetup delivery.  The first
    that applies decides: the filter returns [True] having recorded that one
    reason and nothing else, so what it leaves behind does not depend on the
    tests after it.  Each line below gives the whole outcome, result and bot.
    In particular for a listing with too few seats and too high a price the
    status buffer gains the one message 'too few seats' and no message about
    the price, and the ledger is untouched. *)
Theorem should_skip_listing_precedence l ta b seats :
  py_int (tl_seats l) = Ok seats ->
  let cfg := config b in
  let out := _should_skip_listing l ta b in
  ((seats < min_seats cfg)%Z ->
     out = (Ok true, with_message (MsgTooFewSeats (tl_seats l)) "dim yellow" b) /\
     last_message (snd out) = Some (MsgTooFewSeats (tl_seats l))) /\
  ((min_seats cfg <= seats)%Z -> (max_seats cfg <= seats)%Z ->
     out = (Ok true, with_message (MsgTooManySeats (tl_seats l)) "dim yellow" b) /\
     last_message (snd out) = Some (MsgTooManySeats (tl_seats l))) /\
  ((min_seats cfg <= seats < max_seats cfg)%Z -> price_above_max cfg l ->
     out = (Ok true, with_message (MsgPriceTooHigh (tl_price l)) "dim yellow" b) /\
     last_message (snd out) = Some (MsgPriceTooHigh (tl_price l))) /\
  ((min_seats cfg <= seats < max_seats cfg)%Z -> ~ price_above_max cfg l ->
   not_available ta ->
     out = (Ok true,
            let b' := with_message MsgUnavailable "dim red" b in
            let key := tl_section l +:+ "-" +:+ tl_row l +:+ "-" +:+ tl_seats l in
            match found_tickets b !! key with
            | Some _ => set_status key "No Longer Available" b'
            | None => b'
            end) /\
     last_message (snd out) = Some MsgUnavailable) /\
  ((min_seats cfg <= seats < max_seats cfg)%Z -> ~ price_above_max cfg l ->
   ~ not_available ta -> meetup_only cfg ta ->
     out = (Ok true, with_message MsgMeetup "dim yellow" b) /\
     last_message (snd out) = Some MsgMeetup) /\
  ((min_seats cfg <= seats < max_seats cfg)%Z -> ~ price_above_max cfg l ->
   ~ not_available ta -> ~ meetup_only cfg ta ->
     out = (Ok false, b)) /\
  ((seats < min_seats cfg)%Z -> price_above_max cfg l ->
     fst out = Ok true /\
     last_message (snd out) = Some (MsgTooFewSeats (tl_seats l)) /\
     status_messages (snd out) =
       (let msgs := status_messages b
                      ++ [(clock b, MsgTooFewSeats (tl_seats l), "dim yellow")] in
        if (10 <? length msgs)%nat then tail msgs else msgs) /\
     found_tickets (snd out) = found_tickets b /\
     forall ta', _should_skip_listing l ta' b = out).
Proof.
  intros Hs cfg out. subst cfg out.
  rewrite (should_skip_listing_eq l ta b seats Hs).
  rewrite <- price_check_spec, <- availability_check_spec, <- meetup_check_spec.
  repeat apply conj; intros;
    bool_cases; try lia;
    repeat match goal with
    | H : ?c = true |- context [if ?c then _ else _] => rewrite H
    | H : ?c <> true |- context [if ?c then _ else _] =>
        apply not_true_is_false in H; rewrite H
    end;
    cbn [fst snd]; cbv zeta;
    repeat apply conj;
    try reflexivity;
    try apply last_message_with_message;
    try apply last_message_unavailable_branch.
  intros ta'. rewrite (should_skip_listing_eq l ta' b seats Hs).
  destruct (Z.ltb_spec seats (min_seats (config b))); [reflexivity | lia].
Qed.

Lemma should_skip_listing_precedence_witness :
  status_messages
    (snd (_should_skip_listing (listing_of "900" "1" "A" "5" 250) None
            (ready "token" (new_bot pricey_config))))
  = [(0%nat, MsgTooFewSeats "1", "dim yellow")].
Proof.
  pose proof (should_skip_listing_precedence (listing_of "900" "1" "A" "5" 250) None
                (ready "token" (new_bot pricey_config)) 1 eq_refl) as H.
  cbv zeta in H. destruct H as (_ & _ & _ & _ & _ & _ & H).
  destruct H as (_ & _ & H & _).
  - simpl. lia.
  - exists 100%Q. split; reflexivity.
  - rewrite H. reflexivity.
Defined.

(** C6. [max_seats] is an exclusive bound: a listing with exactly [max_seats]
    seats is rejected, and always for its seat count; one with
    [max_seats - 1] seats (which is at least [min_seats]) is never rejected
    for its seat count, and is let through when the price, the availability
    and the delivery method raise no objection. *)
Theorem should_skip_listing_max_seats_exclusive l ta b :
  let cfg := config b in
  let out := _should_skip_listing l ta b in
  (py_int (tl_seats l) = Ok (max_seats cfg) ->
     fst out = Ok true /\
     (last_message (snd out) = Some (MsgTooFewSeats (tl_seats l)) \/
      last_message (snd out) = Some (MsgTooManySeats (tl_seats l)))) /\
  (py_int (tl_seats l) = Ok (max_seats cfg - 1)%Z ->
   (min_seats cfg <= max_seats cfg - 1)%Z ->
     (fst out = Ok true ->
        last_message (snd out) = Some (MsgPriceTooHigh (tl_price l)) \/
        last_message (snd out) = Some MsgUnavailable \/
        last_message (snd out) = Some MsgMeetup) /\
     (~ price_above_max cfg l -> ~ not_available ta -> ~ meetup_only cfg ta ->
        out = (Ok false, b))).
Proof.
  intros cfg out. subst cfg out. split.
  - intros Hs. rewrite (should_skip_listing_eq _ _ _ _ Hs).
    bool_cases; try lia; simpl; rewrite last_message_with_message; auto.
  - intros Hs Hmin. rewrite (should_skip_listing_eq _ _ _ _ Hs).
    rewrite <- price_check_spec, <- availability_check_spec, <- meetup_check_spec.
    bool_cases; try lia.
    destruct (price_check (config b) l), (availability_check ta),
      (meetup_check (config b) ta);
      split; intros; cbn [fst snd] in *; try congruence;
      rewrite ?last_message_unavailable_branch, ?last_message_with_message; auto.
Qed.

Lemma should_skip_listing_max_seats_exclusive_witness :
  fst (_should_skip_listing (listing_of "900" "4" "A" "5" 50) (Some unavailable) bot0)
    = Ok true /\
  _should_skip_listing (listing_of "900" "3" "A" "5" 50)
    (Some {| available := true; block := Some {| block_id := JStr "B77" |};
             delivery_plan := [] |}) bot0
    = (Ok false, bot0).
Proof.
  split.
  - apply (proj1 (should_skip_listing_max_seats_exclusive
                    (listing_of "900" "4" "A" "5" 50) (Some unavailable) bot0)).
    reflexivity.
  - apply (proj2 (should_skip_listing_max_seats_exclusive
                    (listing_of "900" "3" "A" "5" 50)
                    (Some {| available := true; block := Some {| block_id := JStr "B77" |};
                             delivery_plan := [] |}) bot0)).
    + reflexivity.
    + simpl. lia.
    + intros (mp & Hmp & _). discriminate Hmp.
    + intros [H | (t & [= <-] & H)]; discriminate.
    + intros (_ & t & plan & [= <-] & Hin & _). simpl in Hin. inversion Hin.
Defined.

(** ** Sorting by section *)

Lemma ltb_lt s1 s2 : String.ltb s1 s2 = true <-> OrderedTypeEx.String_as_OT.lt s1 s2.
Proof.
  rewrite <- OrderedTypeEx.String_as_OT.cmp_lt.
  unfold String.ltb, OrderedTypeEx.String_as_OT.cmp.
  destruct (String.compare s1 s2); split; congruence.
Qed.

Lemma str_le_cases s1 s2 : str_le s1 s2 <-> String.ltb s1 s2 = true \/ s1 = s2.
Proof.
  unfold str_le, String.leb, String.ltb.
  destruct (String.compare s1 s2) eqn:E.
  - apply String.compare_eq_iff in E. split; auto.
  - split; auto.
  - split; [discriminate|]. intros [H | ->]; [discriminate|].
    assert (String.compare s2 s2 = Eq) as H
      by (apply OrderedTypeEx.String_as_OT.cmp_eq; reflexivity).
    congruence.
Qed.

Lemma ltb_irrefl s : String.ltb s s = false.
Proof.
  unfold String.ltb.
  assert (String.compare s s = Eq) as ->
    by (apply OrderedTypeEx.String_as_OT.cmp_eq; reflexivity).
  reflexivity.
Qed.

Lemma ltb_false_le s1 s2 : String.ltb s1 s2 = false -> str_le s2 s1.
Proof.
  unfold str_le, String.leb, String.ltb.
  rewrite (String.compare_antisym s1 s2).
  destruct (String.compare s2 s1); simpl; congruence.
Qed.

Lemma ltb_trans s1 s2 s3 :
  String.ltb s1 s2 = true -> String.ltb s2 s3 = true -> String.ltb s1 s3 = true.
Proof.
  rewrite !ltb_lt. apply OrderedTypeEx.String_as_OT.lt_trans.
Qed.

Lemma str_le_trans s1 s2 s3 : str_le s1 s2 -> str_le s2 s3 -> str_le s1 s3.
Proof.
  rewrite !str_le_cases.
  intros [H12 | ->] [H23 | ->]; auto.
  left. eapply ltb_trans; eassumption.
Qed.

Lemma insert_by_section_Permutation x l :
  Permutation (insert_by_section x l) (x :: l).
Proof.
  induction l as [|y l IH]; simpl.
  - reflexivity.
  - destruct (String.ltb (tl_section y) (tl_section x)).
    + rewrite IH. apply perm_swap.
    + reflexivity.
Qed.

Lemma sort_listings_Permutation l :
  Permutation (sort_listings_by_section l) l.
Proof.
  induction l as [|x l IH]; simpl.
  - reflexivity.
  - rewrite insert_by_section_Permutation. constructor. exact IH.
Qed.

Lemma insert_by_section_sorted x l :
  StronglySorted section_le l -> StronglySorted section_le (insert_by_section x l).
Proof.
  induction 1 as [|y l Hl IH Hy]; simpl.
  - repeat constructor.
  - destruct (String.ltb (tl_section y) (tl_section x)) eqn:E.
    + constructor; [exact IH|].
      rewrite insert_by_section_Permutation. constructor; [|exact Hy].
      apply str_le_cases. left. exact E.
    + apply ltb_false_le in E.
      constructor; [constructor; assumption|].
      constructor; [exact E|].
      eapply Forall_impl; [exact Hy|].
      intros z Hz. eapply str_le_trans; eassumption.
Qed.

Lemma sort_listings_sorted l : StronglySorted section_le (sort_listings_by_section l).
Proof.
  induction l as [|x l IH]; simpl.
  - constructor.
  - apply insert_by_section_sorted, IH.
Qed.

Lemma insert_by_section_of_section s x l :
  of_section s (insert_by_section x l) = of_section s (x :: l).
Proof.
  induction l as [|y l IH]; [reflexivity|].
  simpl. destruct (String.ltb (tl_section y) (tl_section x)) eqn:E; [|reflexivity].
  unfold of_section in *. simpl in *. rewrite IH.
  destruct (String.eqb_spec (tl_section x) s) as [Hx|Hx];
    destruct (String.eqb_spec (tl_section y) s) as [Hy|Hy]; try reflexivity.
  rewrite Hx, Hy, ltb_irrefl in E. discriminate.
Qed.

Lemma sort_listings_stable s l :
  of_section s (sort_listings_by_section l) = of_section s l.
Proof.
  induction l as [|x l IH]; [reflexivity|].
  simpl. rewrite insert_by_section_of_section.
  unfold of_section in *. simpl. rewrite IH. reflexivity.
Qed.

Example sort_listings_B_A_A2 :
  map tl_section
    (sort_listings_by_section
       [listing_of "1" "2" "B" "1" 10; listing_of "2" "2" "A" "1" 10;
        listing_of "3" "2" "A2" "1" 10])
  = ["A"; "A2"; "B"].
Proof. reflexivity. Qed.

Example sort_listings_ties_keep_order :
  map tl_id
    (sort_listings_by_section
       [listing_of "1" "2" "B" "1" 10; listing_of "2" "2" "A" "1" 10;
        listing_of "3" "2" "B" "1" 10; listing_of "4" "2" "A" "1" 10])
  = ["2"; "4"; "1"; "3"].
Proof. reflexivity. Qed.

(** ** One listing *)

Lemma notify_ticket_found_eq l blk url b :
  notify_ticket_found l blk url b = (Ok tt, notified l blk url b).
Proof.
  unfold notified, notify_ticket_found, bind, get.
  destruct (discord_webhook_url (config b)) as [hook|]; [|reflexivity].
  destruct (String.eqb hook ""); reflexivity.
Qed.

(** The paths through [_process_listing], one equation for all of them. *)
Lemma process_listing_eq w l b :
  api_client b = true -> token_ok (auth_token b) = true ->
  _process_listing w l b =
    match get_ticket_availability (page_result w) with
    | Raise e => (Raise e, observed l b)
    | Ok ta =>
        match _should_skip_listing l ta (observed l b) with
        | (Raise e, b2) => (Raise e, b2)
        | (Ok true, b2) => (Ok false, set_status (ticket_key_of l) "Skipped" b2)
        | (Ok false, b2) =>
            if bool_decide (tl_id l ∈ opened_tickets b2) then
              (Ok false,
               with_message (MsgAlreadyOpened (tl_section l) (tl_row l)) "dim yellow"
                 (set_status (ticket_key_of l) "Already Opened" b2))
            else
              match ta with
              | None => (Raise AttributeError, b2)
              | Some t =>
                  match block t with
                  | None =>
                      (Ok false,
                       with_message (MsgNoBlockInfo (tl_section l)) "red"
                         (set_status (ticket_key_of l) "No Block Info" b2))
                  | Some blk =>
                      let b3 :=
                        with_message (MsgOpening (tl_section l) (tl_row l)) "cyan bold" b2 in
                      match open_raises w with
                      | None => (Ok true, opened l blk b3)
                      | Some e =>
                          let b4 :=
                            set_trace (trace b3 ++ [BrowserOpen l (url_of blk l) false]) b3 in
                          if is_Exception e then
                            (Ok false,
                             with_message (MsgFailedToOpen e) "red bold"
                               (set_status (ticket_key_of l) "Failed to Open" b4))
                          else (Raise e, b4)
                      end
                  end
              end
        end
    end.
Proof.
  intros Hapi Htok.
  unfold _process_listing. unfold bind at 1. unfold get at 1.
  rewrite Hapi, Htok. cbn [negb orb].
  unfold bind at 1. unfold modify at 1.
  unfold bind at 1. unfold datetime_now at 1.
  unfold bind at 1. unfold modify at 1.
  unfold bind at 1. unfold lift at 1.
  destruct (get_ticket_availability (page_result w)) as [ta|e]; [|reflexivity].
  unfold bind at 1.
  repeat match goal with
  | |- context [_should_skip_listing l ta ?s] =>
      lazymatch s with
      | observed l b => fail
      | _ => change s with (observed l b)
      end
  end.
  destruct (_should_skip_listing l ta (observed l b)) as [[[|]|e] b2];
    try reflexivity.
  unfold bind at 1. unfold get at 1.
  destruct (bool_decide (tl_id l ∈ opened_tickets b2)); [reflexivity|].
  unfold bind at 1.
  destruct ta as [t|]; [|reflexivity].
  unfold ret at 1.
  destruct (block t) as [blk|]; [|reflexivity].
  unfold opened, url_of, webbrowser_open.
  destruct (open_raises w) as [e|].
  - unfold try_except, bind, emit, modify, raise. cbn.
    destruct (is_Exception e); reflexivity.
  - unfold try_except, bind, emit, modify, ret.
    rewrite !add_status_message_eq. rewrite notify_ticket_found_eq.
    reflexivity.
Qed.

(** ** What a step leaves alone *)

Lemma same_world_refl b : same_world b b.
Proof. repeat split. Qed.

Lemma same_world_trans b1 b2 b3 :
  same_world b1 b2 -> same_world b2 b3 -> same_world b1 b3.
Proof. unfold same_world. intuition congruence. Qed.

Lemma same_world_with_message m s b : same_world b (with_message m s b).
Proof. repeat split. Qed.

Lemma same_world_set_status k st b : same_world b (set_status k st b).
Proof. repeat split. Qed.

Lemma same_world_observed l b : same_world b (observed l b).
Proof.
  unfold observed, bind, modify, datetime_now. cbn [snd].
  match goal with |- context [match ?o with Some _ => _ | None => _ end] =>
    destruct o end; repeat split.
Qed.

Lemma found_set_status k st b k' :
  found_tickets (set_status k st b) !! k' =
    if decide (k = k')
    then (fun ti => {| ti_id := ti_id ti; ti_section := ti_section ti;
                       ti_row := ti_row ti; ti_seats := ti_seats ti;
                       ti_price := ti_price ti; ti_status := st;
                       ti_timestamp := ti_timestamp ti |}) <$> found_tickets b !! k
    else found_tickets b !! k'.
Proof. unfold set_status. cbn [found_tickets set_found_tickets]. apply lookup_alter. Qed.

Lemma status_of_set_status k st b :
  is_Some (found_tickets b !! k) -> status_of k (set_status k st b) = Some st.
Proof.
  intros [ti Hti]. unfold status_of. rewrite found_set_status.
  rewrite decide_True by reflexivity. rewrite Hti. reflexivity.
Qed.

Lemma is_Some_found_set_status k st b k' :
  is_Some (found_tickets (set_status k st b) !! k') <-> is_Some (found_tickets b !! k').
Proof.
  unfold set_status. cbn [found_tickets set_found_tickets].
  apply lookup_alter_is_Some.
Qed.

Lemma status_of_with_message k m s b : status_of k (with_message m s b) = status_of k b.
Proof. reflexivity. Qed.

Lemma observed_found l b :
  is_Some (found_tickets (observed l b) !! ticket_key_of l).
Proof.
  unfold observed, bind, modify, datetime_now. cbn [snd].
  match goal with |- context [match ?o with Some _ => _ | None => _ end] =>
    destruct o end;
    cbn [found_tickets set_found_tickets]; rewrite lookup_insert_eq; eauto.
Qed.

Lemma observed_status l b :
  status_of (ticket_key_of l) (observed l b) = Some "Checking...".
Proof.
  unfold status_of, observed, bind, modify, datetime_now. cbn [snd].
  match goal with |- context [match ?o with Some _ => _ | None => _ end] =>
    destruct o end;
    cbn [found_tickets set_found_tickets]; rewrite lookup_insert_eq; reflexivity.
Qed.

(** The filter changes no more than the display state; it never removes a
    ledger entry, and when it lets a listing through it changes nothing. *)
Lemma should_skip_listing_frame l ta b r b' :
  _should_skip_listing l ta b = (r, b') ->
  same_world b b' /\
  (forall k, is_Some (found_tickets b' !! k) <-> is_Some (found_tickets b !! k)) /\
  (r = Ok false -> b' = b) /\
  (forall e, r = Raise e -> b' = b /\ py_int (tl_seats l) = Raise e).
Proof.
  destruct (py_int (tl_seats l)) as [seats|e] eqn:Hs.
  - rewrite (should_skip_listing_eq _ _ _ _ Hs).
    repeat match goal with
    | |- context [if ?c then _ else _] => destruct c
    end;
    intros [= <- <-];
    (split; [|split; [|split]]); try discriminate; try reflexivity;
    try (intros; discriminate); try apply same_world_with_message.
    + match goal with |- context [match ?o with Some _ => _ | None => _ end] =>
        destruct o end;
        [eapply same_world_trans; [apply same_world_with_message|apply same_world_set_status]
        |apply same_world_with_message].
    + intros k.
      match goal with |- context [match ?o with Some _ => _ | None => _ end] =>
        destruct o end; [|reflexivity].
      rewrite is_Some_found_set_status. reflexivity.
    + apply same_world_refl.
  - rewrite (should_skip_listing_raises _ _ _ _ Hs). intros [= <- <-].
    split; [apply same_world_refl|].
    split; [reflexivity|].
    split; [discriminate|].
    intros e' [= ->]. split; reflexivity.
Qed.

Lemma process_listing_not_ready w l b :
  negb (api_client b) || negb (token_ok (auth_token b)) = true ->
  _process_listing w l b = (Ok false, b).
Proof.
  intros H. unfold _process_listing, bind at 1. unfold get at 1.
  rewrite H. reflexivity.
Qed.

Lemma notified_frame l blk url b :
  config (notified l blk url b) = config b /\
  api_client (notified l blk url b) = api_client b /\
  auth_token (notified l blk url b) = auth_token b /\
  opened_tickets (notified l blk url b) = opened_tickets b /\
  found_tickets (notified l blk url b) = found_tickets b /\
  (trace (notified l blk url b) = trace b \/
   trace (notified l blk url b) = trace b ++ [Notify l blk url]).
Proof.
  unfold notified, notify_ticket_found, bind, get.
  destruct (discord_webhook_url (config b)) as [hook|]; [|repeat split; auto].
  destruct (String.eqb hook ""); repeat split; auto.
Qed.

Lemma process_listing_step w l b :
  let out := _process_listing w l b in
  config (snd out) = config b /\
  api_client (snd out) = api_client b /\
  auth_token (snd out) = auth_token b /\
  ((fst out <> Ok true /\ quiet_step l b (snd out)) \/
   (fst out = Ok true /\ opening_step l b (snd out))).
Proof.
  cbv zeta.
  destruct (negb (api_client b) || negb (token_ok (auth_token b))) eqn:Hready.
  { rewrite (process_listing_not_ready _ _ _ Hready). cbn [fst snd].
    repeat split; auto. left. repeat split; auto; try discriminate. }
  apply orb_false_elim in Hready as [Hapi Htok].
  apply negb_false_iff in Hapi, Htok.
  rewrite (process_listing_eq _ _ _ Hapi Htok).
  destruct (same_world_observed l b) as (Hc1 & Ha1 & Ht1 & Ho1 & Hr1).
  pose proof (observed_found l b) as Hkey.
  destruct (get_ticket_availability (page_result w)) as [ta|e]; cbn [fst snd].
  2: { repeat split; auto. left. repeat split; auto; try discriminate. }
  destruct (_should_skip_listing l ta (observed l b)) as [r b2] eqn:Hskip.
  destruct (should_skip_listing_frame _ _ _ _ _ Hskip)
    as ((Hc2 & Ha2 & Ht2 & Ho2 & Hr2) & Hdom & Hsame & _).
  assert (Hq : forall b3, same_world b2 b3 -> quiet_step l b b3).
  { intros b3 (_ & _ & _ & Ho3 & Hr3). split; [congruence|]. left. congruence. }
  assert (Hf : forall b3, same_world b2 b3 ->
             config b3 = config b /\ api_client b3 = api_client b /\
             auth_token b3 = auth_token b).
  { intros b3 (Hc3 & Ha3 & Ht3 & _). repeat split; congruence. }
  destruct r as [[|]|e].
  - (* Skipped *)
    cbn [fst snd].
    destruct (Hf _ (same_world_set_status (ticket_key_of l) "Skipped" b2)) as (? & ? & ?).
    repeat split; auto. left. split; [discriminate|].
    apply Hq, same_world_set_status.
  - destruct (bool_decide (tl_id l ∈ opened_tickets b2)) eqn:Hin.
    { (* Already Opened *)
      cbn [fst snd].
      repeat split; try (simpl; congruence).
      left. split; [discriminate|]. split; [simpl; congruence|]. left. simpl. congruence. }
    apply bool_decide_eq_false in Hin.
    destruct ta as [t|].
    2: { cbn [fst snd]. repeat split; try congruence.
         left. split; [discriminate|]. apply Hq, same_world_refl. }
    destruct (block t) as [blk|].
    2: { (* No Block Info *)
         cbn [fst snd]. repeat split; try (simpl; congruence).
         left. split; [discriminate|]. split; [simpl; congruence|]. left. simpl. congruence. }
    cbv zeta.
    destruct (open_raises w) as [e|].
    + (* webbrowser.open raised *)
      assert (Hq' : quiet_step l b
                (set_trace
                   (trace (with_message (MsgOpening (tl_section l) (tl_row l)) "cyan bold" b2)
                      ++ [BrowserOpen l (url_of blk l) false])
                   (with_message (MsgOpening (tl_section l) (tl_row l)) "cyan bold" b2))).
      { split; [simpl; congruence|]. right. exists (url_of blk l). simpl. congruence. }
      destruct (is_Exception e); cbn [fst snd];
        (repeat split; try (simpl; congruence));
        left; (split; [discriminate | exact Hq']).
    + (* opened *)
      cbn [fst snd]. unfold opened. cbv zeta.
      match goal with |- context [notified l ?blkid ?url ?s] =>
        destruct (notified_frame l blkid url s) as (Hc4 & Ha4 & Ht4 & Ho4 & Hf4 & Hr4)
      end.
      rewrite Hc4, Ha4, Ht4.
      repeat split; try (simpl; congruence).
      right. split; [reflexivity|]. unfold opening_step.
      rewrite Ho4. unfold status_of. rewrite Hf4.
      split; [congruence|].
      split; [simpl; congruence|].
      split.
      * change (status_of (ticket_key_of l)
                  (set_status (ticket_key_of l) "Opened in Browser" b2)
                = Some "Opened in Browser").
        apply status_of_set_status. apply Hdom, Hkey.
      * exists (url_of blk l).
        destruct Hr4 as [-> | ->]; [left|right]; simpl; rewrite Hr2, Hr1;
          [reflexivity|]. rewrite <- app_assoc. reflexivity.
  - cbn [fst snd]. repeat split; try congruence.
    left. split; [discriminate|]. apply Hq, same_world_refl.
Qed.

(** ** At most one successful open per listing id *)

Lemma opens_of_app id t1 t2 :
  opens_of id (t1 ++ t2) = (opens_of id t1 + opens_of id t2)%nat.
Proof. unfold opens_of. rewrite List.filter_app, length_app. reflexivity. Qed.

Lemma opened_once_new cfg : opened_once (new_bot cfg).
Proof. intros id. split; [change (0 <= 1)%nat; lia | reflexivity]. Qed.

Lemma opened_once_ready tok b : opened_once b -> opened_once (ready tok b).
Proof. intros H. exact H. Qed.

Lemma opened_once_same_world b b' :
  same_world b b' -> opened_once b -> opened_once b'.
Proof.
  intros (_ & _ & _ & Ho & Hr) H id. rewrite Ho, Hr. apply H.
Qed.

Lemma opened_once_emit ev b :
  (forall id, is_open_of id ev = false) ->
  opened_once b -> opened_once (set_trace (trace b ++ [ev]) b).
Proof.
  intros Hev H id. cbn [trace opened_tickets set_trace].
  rewrite opens_of_app. unfold opens_of at 2 4. simpl. rewrite Hev. simpl.
  rewrite Nat.add_0_r. apply H.
Qed.

Lemma opened_once_quiet l b b' :
  quiet_step l b b' -> opened_once b -> opened_once b'.
Proof.
  intros [Ho Hr] H id. rewrite Ho.
  destruct Hr as [-> | [url ->]]; [apply H|].
  rewrite opens_of_app. unfold opens_of at 2 4. simpl. rewrite Nat.add_0_r. apply H.
Qed.

Lemma opened_once_opening l b b' :
  opening_step l b b' -> opened_once b -> opened_once b'.
Proof.
  intros (Hnew & Ho & _ & url & Hr) H id. rewrite Ho.
  assert (Hcount : opens_of id (trace b') =
                   (opens_of id (trace b) + if String.eqb (tl_id l) id then 1 else 0)%nat).
  { destruct Hr as [-> | ->]; rewrite opens_of_app; unfold opens_of at 2; simpl;
      destruct (String.eqb (tl_id l) id); reflexivity. }
  rewrite Hcount. destruct (H id) as [Hle Hzero].
  destruct (String.eqb_spec (tl_id l) id) as [Heq | Hne].
  - rewrite Hzero by (rewrite <- Heq; exact Hnew). split; [lia|].
    intros Hnot. exfalso. apply Hnot, elem_of_union_l, elem_of_singleton. auto.
  - split; [lia|]. intros Hnot. rewrite Hzero; [lia|].
    intros Hin. apply Hnot, elem_of_union_r, Hin.
Qed.

Lemma process_listing_opened_once w l b :
  opened_once b -> opened_once (snd (_process_listing w l b)).
Proof.
  intros H.
  destruct (process_listing_step w l b) as (_ & _ & _ & [[_ Hq] | [_ Ho]]).
  - eapply opened_once_quiet; eassumption.
  - eapply opened_once_opening; eassumption.
Qed.

(** The loop, unfolded one level at a time. *)
Lemma process_all_cons w i l rest b :
  process_all w i (l :: rest) b =
    match _process_listing (candidate w i) l (set_trace (trace b ++ [LogFound l]) b) with
    | (Ok _, b1) => process_all w (S i) rest b1
    | (Raise e, b1) => (Raise e, b1)
    end.
Proof. reflexivity. Qed.

Lemma cycle_body_eq w b :
  cycle_body w b =
    match fetch w with
    | Raise e => (Raise e, b)
    | Ok None | Ok (Some []) => (Ok tt, with_message MsgNoTickets "dim" b)
    | Ok (Some options) =>
        process_all w 0 (sort_listings_by_section options)
          (with_message (MsgTicketsFound (length options)) "cyan bold" b)
    end.
Proof.
  unfold cycle_body, bind at 1. unfold lift.
  destruct (fetch w) as [[[|l opts]|]|e]; reflexivity.
Qed.

Lemma cycle_eq w b :
  cycle w b =
    match cycle_body w b with
    | (Ok _, b1) => (Ok tt, slept w b1)
    | (Raise e, b1) =>
        if is_Exception e
        then (Ok tt, slept w (with_message (MsgError e) "red" b1))
        else (Raise e, b1)
    end.
Proof.
  unfold cycle, bind at 1. unfold try_except.
  destruct (cycle_body w b) as [[[]|e] b1]; [reflexivity|].
  destruct (is_Exception e); reflexivity.
Qed.

Lemma monitoring_cycles_cons w ws b :
  monitoring_cycles (w :: ws) b =
    match cycle w b with
    | (Ok _, b1) => monitoring_cycles ws b1
    | (Raise e, b1) => (Raise e, b1)
    end.
Proof. reflexivity. Qed.

Lemma process_all_opened_once w ls : forall i b,
  opened_once b -> opened_once (snd (process_all w i ls b)).
Proof.
  induction ls as [|l rest IH]; intros i b H; [exact H|].
  rewrite process_all_cons.
  pose proof (process_listing_opened_once (candidate w i) l _
                (opened_once_emit (LogFound l) b (fun _ => eq_refl) H)) as H1.
  destruct (_process_listing (candidate w i) l _) as [[r|e] b1]; [|exact H1].
  apply IH, H1.
Qed.

Lemma cycle_body_opened_once w b :
  opened_once b -> opened_once (snd (cycle_body w b)).
Proof.
  intros H. rewrite cycle_body_eq.
  destruct (fetch w) as [[[|l opts]|]|e]; cbn [snd]; try exact H;
    try (eapply opened_once_same_world; [apply same_world_with_message | exact H]).
  apply process_all_opened_once.
  eapply opened_once_same_world; [apply same_world_with_message | exact H].
Qed.

Lemma cycle_opened_once w b :
  opened_once b -> opened_once (snd (cycle w b)).
Proof.
  intros H. rewrite cycle_eq.
  pose proof (cycle_body_opened_once w b H) as H1.
  destruct (cycle_body w b) as [[[]|e] b1]; cbn [snd] in *.
  - apply opened_once_emit; [reflexivity | exact H1].
  - destruct (is_Exception e); cbn [snd]; [|exact H1].
    apply opened_once_emit; [reflexivity|].
    eapply opened_once_same_world; [apply same_world_with_message | exact H1].
Qed.

Lemma monitoring_cycles_opened_once ws : forall b,
  opened_once b -> opened_once (snd (monitoring_cycles ws b)).
Proof.
  induction ws as [|w ws IH]; intros b H; [exact H|].
  rewrite monitoring_cycles_cons.
  pose proof (cycle_opened_once w b H) as H1.
  destruct (cycle w b) as [[[]|e] b1]; [apply IH|]; exact H1.
Qed.

Lemma run_monitoring_loop_opened_once ws b :
  opened_once b -> opened_once (snd (run_monitoring_loop ws b)).
Proof.
  intros H. unfold run_monitoring_loop, bind.
  rewrite !add_status_message_eq.
  pose proof (monitoring_cycles_opened_once ws _
    (opened_once_same_world _ _
       (same_world_with_message MsgLogFile "dim" (with_message MsgEntering "cyan" b))
       (opened_once_same_world _ _ (same_world_with_message MsgEntering "cyan" b) H)))
    as H1.
  destruct (monitoring_cycles ws _) as [[[]|e] b1]; [exact H1|].
  destruct e; exact H1.
Qed.

(** An observation that reaches the check of [opened_tickets] with its id
    already there. *)
Lemma process_listing_already_opened w l b ta :
  api_client b = true -> token_ok (auth_token b) = true ->
  tl_id l ∈ opened_tickets b ->
  get_ticket_availability (page_result w) = Ok ta ->
  fst (_should_skip_listing l ta (observed l b)) = Ok false ->
  let out := _process_listing w l b in
  fst out = Ok false /\
  status_of (ticket_key_of l) (snd out) = Some "Already Opened" /\
  trace (snd out) = trace b /\
  opened_tickets (snd out) = opened_tickets b.
Proof.
  intros Hapi Htok Hin Hta Hskip. cbv zeta.
  rewrite (process_listing_eq _ _ _ Hapi Htok), Hta.
  destruct (_should_skip_listing l ta (observed l b)) as [r b2] eqn:E.
  cbn [fst] in Hskip. subst r.
  destruct (should_skip_listing_frame _ _ _ _ _ E) as (_ & _ & Hsame & _).
  rewrite (Hsame eq_refl).
  destruct (same_world_observed l b) as (_ & _ & _ & Ho & Hr).
  rewrite bool_decide_eq_true_2 by (rewrite Ho; exact Hin).
  cbn [fst snd]. split; [reflexivity|].
  split; [|split; [exact Hr | exact Ho]].
  rewrite status_of_with_message.
  apply status_of_set_status, observed_found.
Qed.

(** C1. However many passes the loop makes and however often a listing is
    seen again, [webbrowser.open] succeeds (and the entry moves to
    'Opened in Browser') at most once for each listing id, hence at most once
    for each identity; a call reports an opening only for an id that was not
    in [opened_tickets] and is from then on; and a later observation whose id
    is in [opened_tickets] and that gets as far as the check of that set ends
    as 'Already Opened', with no event and no change to the set. *)
Theorem open_action_at_most_once :
  (forall cfg tok ws id,
      (opens_of id (trace (snd (run_monitoring_loop ws (ready tok (new_bot cfg))))) <= 1)%nat) /\
  (forall w l b,
      fst (_process_listing w l b) = Ok true ->
      (tl_id l ∉ opened_tickets b) /\
      tl_id l ∈ opened_tickets (snd (_process_listing w l b)) /\
      status_of (ticket_key_of l) (snd (_process_listing w l b)) = Some "Opened in Browser" /\
      opens_of (tl_id l) (trace (snd (_process_listing w l b))) =
        S (opens_of (tl_id l) (trace b))) /\
  (forall w l b ta,
      api_client b = true -> token_ok (auth_token b) = true ->
      tl_id l ∈ opened_tickets b ->
      get_ticket_availability (page_result w) = Ok ta ->
      fst (_should_skip_listing l ta (observed l b)) = Ok false ->
      fst (_process_listing w l b) = Ok false /\
      status_of (ticket_key_of l) (snd (_process_listing w l b)) = Some "Already Opened" /\
      trace (snd (_process_listing w l b)) = trace b /\
      opened_tickets (snd (_process_listing w l b)) = opened_tickets b).
Proof.
  split; [|split].
  - intros cfg tok ws id.
    apply (run_monitoring_loop_opened_once ws (ready tok (new_bot cfg))).
    apply opened_once_ready, opened_once_new.
  - intros w l b Hres.
    destruct (process_listing_step w l b) as (_ & _ & _ & [[Hno _] | [_ Hop]]);
      [contradiction|].
    destruct Hop as (Hnew & Ho & Hst & url & Hr).
    split; [exact Hnew|]. split; [rewrite Ho; apply elem_of_union_l, elem_of_singleton; reflexivity|].
    split; [exact Hst|].
    destruct Hr as [-> | ->]; rewrite opens_of_app; unfold opens_of at 2; simpl;
      rewrite String.eqb_refl; simpl; lia.
  - intros w l b ta Hapi Htok Hin Hta Hskip.
    exact (process_listing_already_opened w l b ta Hapi Htok Hin Hta Hskip).
Qed.

(** The same ticket offered in five consecutive polls: one successful open,
    and the entry ends as 'Already Opened'. *)
Example five_polls_one_open :
  List.filter (fun ev => match ev with BrowserOpen _ _ _ => true | _ => false end)
    (trace after_five_polls)
  = [BrowserOpen (listing_of "900" "2" "A" "5" 50)
       {| url_block_id := JStr "B77"; url_seats := "2" |} true] /\
  status_of "A-5-2-900" after_five_polls = Some "Already Opened" /\
  tickets_processed after_five_polls = 5%nat /\
  tickets_opened after_five_polls = 1%nat.
Proof. vm_compute. repeat split. Qed.

Lemma open_action_at_most_once_witness :
  (opens_of "900" (trace after_five_polls) <= 1)%nat /\
  status_of "A-5-2-900"
    (snd (_process_listing opening_world (listing_of "900" "2" "A" "5" 50)
            after_five_polls)) = Some "Already Opened".
Proof.
  destruct open_action_at_most_once as (H1 & _ & H3).
  split.
  - apply (H1 default_config "token" (replicate 5 same_ticket_cycle) "900").
  - apply (H3 opening_world (listing_of "900" "2" "A" "5" 50) after_five_polls
             (Some {| available := true; block := Some {| block_id := JStr "B77" |};
                      delivery_plan := [{| delivery_method := JNum 3;
                                           title := JStr "E-ticket" |}] |})).
    + reflexivity.
    + reflexivity.
    + vm_compute. reflexivity.
    + reflexivity.
    + vm_compute. reflexivity.
Defined.

(** ** Rejected listings *)

(** Whatever the filter's reason, a rejected listing's own entry ends as
    'Skipped', and nothing is opened. *)
Lemma process_listing_rejected w l b ta :
  api_client b = true -> token_ok (auth_token b) = true ->
  get_ticket_availability (page_result w) = Ok ta ->
  fst (_should_skip_listing l ta (observed l b)) = Ok true ->
  let out := _process_listing w l b in
  fst out = Ok false /\
  status_of (ticket_key_of l) (snd out) = Some "Skipped" /\
  trace (snd out) = trace b /\
  opened_tickets (snd out) = opened_tickets b.
Proof.
  intros Hapi Htok Hta Hskip. cbv zeta.
  rewrite (process_listing_eq _ _ _ Hapi Htok), Hta.
  destruct (_should_skip_listing l ta (observed l b)) as [r b2] eqn:E.
  cbn [fst] in Hskip. subst r.
  destruct (should_skip_listing_frame _ _ _ _ _ E)
    as ((_ & _ & _ & Ho2 & Hr2) & Hdom & _).
  destruct (same_world_observed l b) as (_ & _ & _ & Ho & Hr).
  cbn [fst snd]. split; [reflexivity|].
  split; [|split; simpl; congruence].
  apply status_of_set_status, Hdom, observed_found.
Qed.

(** A result of [get_ticket_availability] that is not available is always
    rejected by the filter, provided the seat count can be read. *)
Lemma should_skip_listing_unavailable l b seats :
  py_int (tl_seats l) = Ok seats ->
  fst (_should_skip_listing l (Some unavailable) b) = Ok true.
Proof.
  intros Hs. rewrite (should_skip_listing_eq _ _ _ _ Hs).
  repeat match goal with
  | |- context [if ?c then _ else _] => destruct c eqn:?
  end; try reflexivity; discriminate.
Qed.

(** C10. The guard is keyed by the listing id alone: once a listing has been
    opened, a listing with the same id is never opened again, whatever its
    section, row and seat count; when it passes the filter it ends as
    'Already Opened' and nothing happens. *)
Theorem dedup_keyed_by_listing_id w1 l1 b w2 l2 b' ta :
  tl_id l1 = tl_id l2 ->
  fst (_process_listing w1 l1 b) = Ok true ->
  opened_tickets (snd (_process_listing w1 l1 b)) ⊆ opened_tickets b' ->
  api_client b' = true -> token_ok (auth_token b') = true ->
  get_ticket_availability (page_result w2) = Ok ta ->
  fst (_should_skip_listing l2 ta (observed l2 b')) = Ok false ->
  fst (_process_listing w2 l2 b') = Ok false /\
  status_of (ticket_key_of l2) (snd (_process_listing w2 l2 b')) = Some "Already Opened" /\
  trace (snd (_process_listing w2 l2 b')) = trace b' /\
  opened_tickets (snd (_process_listing w2 l2 b')) = opened_tickets b'.
Proof.
  intros Hid Hopen Hsub Hapi Htok Hta Hskip.
  apply (process_listing_already_opened w2 l2 b' ta Hapi Htok); [|exact Hta|exact Hskip].
  apply Hsub.
  destruct (process_listing_step w1 l1 b) as (_ & _ & _ & [[Hno _] | [_ Hop]]);
    [contradiction|].
  destruct Hop as (_ & -> & _).
  rewrite <- Hid. apply elem_of_union_l, elem_of_singleton. reflexivity.
Qed.

Lemma dedup_keyed_by_listing_id_witness :
  let l1 := listing_of "900" "2" "A" "5" 50 in
  let l2 := listing_of "900" "3" "B" "7" 60 in
  let b1 := snd (_process_listing opening_world l1 bot0) in
  fst (_process_listing opening_world l2 b1) = Ok false /\
  status_of (ticket_key_of l2) (snd (_process_listing opening_world l2 b1))
    = Some "Already Opened" /\
  trace (snd (_process_listing opening_world l2 b1)) = trace b1 /\
  opened_tickets (snd (_process_listing opening_world l2 b1)) = opened_tickets b1.
Proof.
  cbv zeta.
  eapply (dedup_keyed_by_listing_id opening_world (listing_of "900" "2" "A" "5" 50) bot0
            opening_world (listing_of "900" "3" "B" "7" 60)).
  - reflexivity.
  - vm_compute. reflexivity.
  - reflexivity.
  - reflexivity.
  - reflexivity.
  - vm_compute. reflexivity.
  - vm_compute. reflexivity.
Defined.

(** ** An available response without a block *)

(** A response that says available and has no block: the filter reports
    'Ticket unavailable' and the entry ends as 'Skipped', not as
    'No Block Info'. *)
Lemma no_block_counterexample :
  status_of "A-5-2-900"
    (snd (_process_listing {| page_result := inl resp_no_block; open_raises := None |}
            (listing_of "900" "2" "A" "5" 50) bot0))
  = Some "Skipped" /\
  Some "Skipped" <> Some "No Block Info" /\
  last_message
    (snd (_process_listing {| page_result := inl resp_no_block; open_raises := None |}
            (listing_of "900" "2" "A" "5" 50) bot0))
  = Some MsgUnavailable.
Proof. vm_compute. repeat split. discriminate. Qed.

(** C3, as the code has it. A response that says [available] but carries no
    block is turned into an unavailable result by [get_ticket_availability];
    for a listing whose seat count can be read, [_process_listing] then
    returns [False] without raising, leaves the entry as 'Skipped', opens
    nothing and does not add the id to [opened_tickets], so the listing is
    looked at afresh on the next pass. *)
Theorem no_block_is_skipped w l b fields v seats :
  api_client b = true -> token_ok (auth_token b) = true ->
  page_result w = inl (JObj fields) ->
  assoc "available" fields = Some v -> truthy v = true ->
  assoc "block" fields = None ->
  py_int (tl_seats l) = Ok seats ->
  get_ticket_availability (page_result w) = Ok (Some unavailable) /\
  fst (_process_listing w l b) = Ok false /\
  status_of (ticket_key_of l) (snd (_process_listing w l b)) = Some "Skipped" /\
  trace (snd (_process_listing w l b)) = trace b /\
  opened_tickets (snd (_process_listing w l b)) = opened_tickets b.
Proof.
  intros Hapi Htok Hw Hav Hv Hb Hs.
  assert (Hta : get_ticket_availability (page_result w) = Ok (Some unavailable)).
  { rewrite Hw. apply (get_ticket_availability_block_falsy fields v Hav Hv).
    rewrite Hb. reflexivity. }
  split; [exact Hta|].
  apply (process_listing_rejected w l b (Some unavailable) Hapi Htok Hta).
  apply (should_skip_listing_unavailable l _ seats Hs).
Qed.

Lemma no_block_is_skipped_witness :
  fst (_process_listing {| page_result := inl resp_no_block; open_raises := None |}
         (listing_of "900" "2" "A" "5" 50) bot0) = Ok false /\
  opened_tickets
    (snd (_process_listing {| page_result := inl resp_no_block; open_raises := None |}
            (listing_of "900" "2" "A" "5" 50) bot0)) = opened_tickets bot0.
Proof.
  destruct (no_block_is_skipped
              {| page_result := inl resp_no_block; open_raises := None |}
              (listing_of "900" "2" "A" "5" 50) bot0
              [("available", JBool true)] (JBool true) 2
              eq_refl eq_refl eq_refl eq_refl eq_refl eq_refl eq_refl)
    as (_ & H1 & _ & _ & H2).
  split; [exact H1 | exact H2].
Defined.

(** A listing that gets past the filter has a block: with the result of
    [get_ticket_availability], the 'No Block Info' branch of
    [_process_listing] is never taken. *)
Lemma passed_listing_has_block page_result l ta b :
  get_ticket_availability page_result = Ok ta ->
  fst (_should_skip_listing l ta b) = Ok false ->
  exists t blk, ta = Some t /\ available t = true /\ block t = Some blk.
Proof.
  intros Hta Hskip.
  destruct (py_int (tl_seats l)) as [seats|e] eqn:Hs.
  - rewrite (should_skip_listing_eq _ _ _ _ Hs) in Hskip.
    repeat match type of Hskip with
    | context [if ?c then _ else _] => destruct c eqn:?
    end; try discriminate Hskip.
    destruct ta as [t|]; [|discriminate].
    destruct (get_ticket_availability_cases _ _ Hta) as [[Hav [blk Hblk]] | ->].
    + exists t, blk. auto.
    + discriminate.
  - rewrite (should_skip_listing_raises _ _ _ _ Hs) in Hskip. discriminate.
Qed.

(** ** Unavailable listings *)

(** C4 at a listing that passes the seat and price checks and whose
    availability is false, and at one whose availability request returned
    nothing: the filter's reason is 'Ticket unavailable', and the entry of the
    listing ends as 'Skipped'. *)
Theorem unavailable_listing_ends_as_skipped :
  let l := listing_of "900" "2" "A" "5" 50 in
  let out := _process_listing {| page_result := inl resp_unavailable; open_raises := None |}
               l bot0 in
  let out' := _process_listing {| page_result := inl JNull; open_raises := None |} l bot0 in
  last_message (snd out) = Some MsgUnavailable /\
  status_of (ticket_key_of l) (snd out) = Some "Skipped" /\
  last_message (snd out') = Some MsgUnavailable /\
  status_of (ticket_key_of l) (snd out') = Some "Skipped".
Proof. vm_compute. repeat split. Qed.

(** The 'No Longer Available' assignment of the filter looks the entry up
    under section-row-seats, a key without the listing id.  It can only hit
    the entry of some other listing whose full key happens to read the same. *)
Example no_longer_available_hits_another_entry :
  let first := listing_of "3" "2" "A" "1" 50 in
  let second := listing_of "9" "3" "A-1" "2" 50 in
  let b1 := snd (_process_listing opening_world first bot0) in
  let b2 := snd (_process_listing
                   {| page_result := inl resp_unavailable; open_raises := None |}
                   second b1) in
  ticket_key_of first = "A-1-2-3" /\
  status_of (ticket_key_of first) b1 = Some "Opened in Browser" /\
  status_of (ticket_key_of first) b2 = Some "No Longer Available" /\
  status_of (ticket_key_of second) b2 = Some "Skipped".
Proof. vm_compute. repeat split. Qed.

(** ** Processing order *)

Lemma found_log_app t1 t2 : found_log (t1 ++ t2) = found_log t1 ++ found_log t2.
Proof. apply omap_app. Qed.

Lemma process_listing_found_log w l b :
  found_log (trace (snd (_process_listing w l b))) = found_log (trace b).
Proof.
  destruct (process_listing_step w l b) as (_ & _ & _ & [[_ [_ Hr]] | [_ Hop]]).
  - destruct Hr as [-> | [url ->]]; [reflexivity|].
    rewrite found_log_app. apply app_nil_r.
  - destruct Hop as (_ & _ & _ & url & [-> | ->]);
      rewrite found_log_app; apply app_nil_r.
Qed.

(** [process_all] announces and processes the listings from the left, and
    stops early only by raising. *)
Lemma process_all_found_log w ls : forall i b,
  exists done rest,
    ls = done ++ rest /\
    found_log (trace (snd (process_all w i ls b))) = found_log (trace b) ++ done /\
    (fst (process_all w i ls b) = Ok tt -> rest = []).
Proof.
  induction ls as [|l rest IH]; intros i b.
  - exists [], []. rewrite app_nil_r. repeat split.
    symmetry. apply app_nil_r.
  - rewrite process_all_cons.
    pose proof (process_listing_found_log (candidate w i) l
                  (set_trace (trace b ++ [LogFound l]) b)) as Hlog.
    cbn [trace set_trace] in Hlog. rewrite found_log_app in Hlog.
    destruct (_process_listing (candidate w i) l _) as [[r|e] b1]; cbn [snd] in *.
    + destruct (IH (S i) b1) as (done & rest' & -> & Hl & Hok).
      exists (l :: done), rest'. rewrite Hl, Hlog, <- app_assoc.
      repeat split; auto.
    + exists [l], rest. rewrite Hlog. repeat split; auto; discriminate.
Qed.

(** A list sorted by section is determined by its sections' sublists, so a
    stable sort by section has only one possible result: whatever algorithm
    Python runs, its output is [sort_listings_by_section]. *)
Lemma of_section_head x l : of_section (tl_section x) (x :: l) = x :: of_section (tl_section x) l.
Proof. unfold of_section. simpl. rewrite String.eqb_refl. reflexivity. Qed.

Lemma of_section_In s x l : In x (of_section s l) -> In x l.
Proof. unfold of_section. rewrite List.filter_In. tauto. Qed.

Lemma sorted_by_sections_unique l1 : forall l2,
  StronglySorted section_le l1 -> StronglySorted section_le l2 ->
  (forall s, of_section s l1 = of_section s l2) ->
  l1 = l2.
Proof.
  induction l1 as [|x l1 IH]; intros l2 H1 H2 Heq.
  - destruct l2 as [|y l2]; [reflexivity|].
    specialize (Heq (tl_section y)). rewrite of_section_head in Heq. discriminate.
  - destruct l2 as [|y l2].
    { specialize (Heq (tl_section x)). rewrite of_section_head in Heq. discriminate. }
    apply StronglySorted_inv in H1 as [H1 Hx], H2 as [H2 Hy].
    rewrite List.Forall_forall in Hx, Hy.
    assert (Hxy : section_le x y /\ section_le y x).
    { split.
      - destruct (String.eqb_spec (tl_section x) (tl_section y)) as [E|E].
        + unfold section_le. rewrite E. apply str_le_cases. auto.
        + apply Hx. apply (of_section_In (tl_section y)).
          pose proof (Heq (tl_section y)) as H. rewrite (of_section_head y) in H.
          unfold of_section at 1 in H. simpl in H.
          apply String.eqb_neq in E. rewrite E in H.
          fold (of_section (tl_section y) l1) in H. rewrite H. left. reflexivity.
      - destruct (String.eqb_spec (tl_section y) (tl_section x)) as [E|E].
        + unfold section_le. rewrite E. apply str_le_cases. auto.
        + apply Hy. apply (of_section_In (tl_section x)).
          pose proof (Heq (tl_section x)) as H. rewrite (of_section_head x) in H.
          unfold of_section at 2 in H. simpl in H.
          apply String.eqb_neq in E. rewrite E in H.
          fold (of_section (tl_section x) l2) in H. rewrite <- H. left. reflexivity. }
    destruct Hxy as [Hle1 Hle2].
    pose proof (String.leb_antisym _ _ Hle1 Hle2) as Hsec.
    pose proof (Heq (tl_section x)) as Hhead.
    rewrite of_section_head in Hhead. rewrite Hsec in Hhead at 2.
    rewrite (of_section_head y) in Hhead.
    injection Hhead as -> _.
    f_equal. apply IH; [assumption..|].
    intros s. specialize (Heq s). unfold of_section in *. simpl in Heq.
    destruct (String.eqb (tl_section y) s); congruence.
Qed.

Lemma stable_sort_unique l l' :
  StronglySorted section_le l' ->
  (forall s, of_section s l' = of_section s l) ->
  l' = sort_listings_by_section l.
Proof.
  intros Hs Hst. apply sorted_by_sections_unique.
  - exact Hs.
  - apply sort_listings_sorted.
  - intros s. rewrite Hst, sort_listings_stable. reflexivity.
Qed.

Example three_sections_processed_in_order :
  map tl_section (found_log (trace (snd (cycle three_sections_cycle bot0))))
  = ["A"; "A2"; "B"] /\
  omap (fun ev => match ev with BrowserOpen l _ true => Some (tl_section l) | _ => None end)
    (trace (snd (cycle three_sections_cycle bot0)))
  = ["A"; "A2"; "B"].
Proof. vm_compute. split; reflexivity. Qed.

(** ** An exception inside a pass *)

Lemma process_all_app w pre : forall rest i b,
  process_all w i (pre ++ rest) b =
    match process_all w i pre b with
    | (Ok _, b1) => process_all w (i + length pre) rest b1
    | (Raise e, b1) => (Raise e, b1)
    end.
Proof.
  induction pre as [|l pre IH]; intros rest i b.
  - simpl. rewrite Nat.add_0_r. reflexivity.
  - rewrite <- app_comm_cons, !process_all_cons.
    destruct (_process_listing (candidate w i) l _) as [[r|e] b1]; [|reflexivity].
    rewrite IH. simpl. rewrite Nat.add_succ_r. reflexivity.
Qed.

Lemma process_all_done_found_log w ls i b b1 :
  process_all w i ls b = (Ok tt, b1) ->
  found_log (trace b1) = found_log (trace b) ++ ls.
Proof.
  intros H.
  destruct (process_all_found_log w ls i b) as (done & rest & -> & Hlog & Hok).
  rewrite H in Hlog, Hok. cbn [fst snd] in *.
  rewrite (Hok eq_refl), app_nil_r. exact Hlog.
Qed.

(** A call of [webbrowser.open] that raises an [Exception] is dealt with
    inside [_process_listing]. *)
Lemma process_listing_failed_to_open w l b t blk e :
  api_client b = true -> token_ok (auth_token b) = true ->
  get_ticket_availability (page_result w) = Ok (Some t) ->
  block t = Some blk ->
  fst (_should_skip_listing l (Some t) (observed l b)) = Ok false ->
  tl_id l ∉ opened_tickets b ->
  open_raises w = Some e -> is_Exception e = true ->
  fst (_process_listing w l b) = Ok false /\
  status_of (ticket_key_of l) (snd (_process_listing w l b)) = Some "Failed to Open" /\
  opened_tickets (snd (_process_listing w l b)) = opened_tickets b /\
  trace (snd (_process_listing w l b)) = trace b ++ [BrowserOpen l (url_of blk l) false].
Proof.
  intros Hapi Htok Hta Hblk Hskip Hnew Hopen He.
  rewrite (process_listing_eq _ _ _ Hapi Htok), Hta.
  destruct (_should_skip_listing l (Some t) (observed l b)) as [r b2] eqn:E.
  cbn [fst] in Hskip. subst r.
  destruct (should_skip_listing_frame _ _ _ _ _ E) as (_ & _ & Hsame & _).
  rewrite (Hsame eq_refl).
  destruct (same_world_observed l b) as (_ & _ & _ & Ho & Hr).
  rewrite bool_decide_eq_false_2 by (rewrite Ho; exact Hnew).
  rewrite Hblk, Hopen. cbv zeta. rewrite He. cbn [fst snd].
  split; [reflexivity|].
  split; [|split; simpl; congruence].
  rewrite status_of_with_message.
  apply status_of_set_status.
  apply (observed_found l b).
Qed.

(** An exception of the availability request leaves [_process_listing]; the
    entry of the listing stays at 'Checking...'. *)
Lemma process_listing_availability_raises w l b e :
  api_client b = true -> token_ok (auth_token b) = true ->
  get_ticket_availability (page_result w) = Raise e ->
  _process_listing w l b = (Raise e, observed l b) /\
  status_of (ticket_key_of l) (observed l b) = Some "Checking...".
Proof.
  intros Hapi Htok Hta.
  rewrite (process_listing_eq _ _ _ Hapi Htok), Hta.
  split; [reflexivity | apply observed_status].
Qed.

(** Two listings, sections A and B; the availability request for A raises.
    The pass ends normally with an 'Error' message, and B was neither
    announced nor counted nor entered in the ledger. *)
Lemma sibling_not_processed_counterexample :
  sort_listings_by_section [listing_of "1" "2" "A" "1" 10; listing_of "2" "2" "B" "1" 10]
    = [listing_of "1" "2" "A" "1" 10; listing_of "2" "2" "B" "1" 10] /\
  fst (cycle first_fails_cycle bot0) = Ok tt /\
  found_log (trace (snd (cycle first_fails_cycle bot0))) = [listing_of "1" "2" "A" "1" 10] /\
  tickets_processed (snd (cycle first_fails_cycle bot0)) = 1%nat /\
  status_of (ticket_key_of (listing_of "2" "2" "B" "1" 10))
    (snd (cycle first_fails_cycle bot0)) = None /\
  last_message (snd (cycle first_fails_cycle bot0))
    = Some (MsgError (ExternalError "Page.evaluate: net::ERR_TIMED_OUT")).
Proof. vm_compute. repeat split. Qed.

(** C2, as the code has it. The listings of a pass are processed inside one
    [try] block.  When processing a listing raises an [Exception], the
    listings after it in the sorted order are not processed in that pass:
    the handler of the pass records an 'Error' message, the pass ends with
    its sleep, and the loop goes on with the next pass.  The listings before
    it keep what was recorded for them.  Only an exception raised by
    [webbrowser.open] is handled within the listing itself, which then ends
    as 'Failed to Open', is not added to [opened_tickets], and lets the
    listings after it be processed.  An exception of the availability request
    is of the first kind: it leaves [_process_listing] with the entry at
    'Checking...'. *)
Theorem exception_ends_the_pass :
  (forall w b first others pre l post e b1 b2,
      fetch w = Ok (Some (first :: others)) ->
      sort_listings_by_section (first :: others) = pre ++ l :: post ->
      process_all w 0 pre
        (with_message (MsgTicketsFound (length (first :: others))) "cyan bold" b)
        = (Ok tt, b1) ->
      _process_listing (candidate w (length pre)) l (set_trace (trace b1 ++ [LogFound l]) b1)
        = (Raise e, b2) ->
      is_Exception e = true ->
      cycle w b = (Ok tt, slept w (with_message (MsgError e) "red" b2)) /\
      found_log (trace (snd (cycle w b))) = found_log (trace b) ++ pre ++ [l] /\
      found_tickets (snd (cycle w b)) = found_tickets b2 /\
      tickets_processed (snd (cycle w b)) = tickets_processed b2 /\
      (forall ws,
          monitoring_cycles (w :: ws) b =
          monitoring_cycles ws (slept w (with_message (MsgError e) "red" b2)))) /\
  (forall w l b t blk e,
      api_client b = true -> token_ok (auth_token b) = true ->
      get_ticket_availability (page_result w) = Ok (Some t) ->
      block t = Some blk ->
      fst (_should_skip_listing l (Some t) (observed l b)) = Ok false ->
      tl_id l ∉ opened_tickets b ->
      open_raises w = Some e -> is_Exception e = true ->
      fst (_process_listing w l b) = Ok false /\
      status_of (ticket_key_of l) (snd (_process_listing w l b)) = Some "Failed to Open" /\
      opened_tickets (snd (_process_listing w l b)) = opened_tickets b) /\
  (forall w l b e,
      api_client b = true -> token_ok (auth_token b) = true ->
      get_ticket_availability (page_result w) = Raise e ->
      _process_listing w l b = (Raise e, observed l b) /\
      status_of (ticket_key_of l) (observed l b) = Some "Checking...").
Proof.
  split; [|split; [|exact process_listing_availability_raises]].
  - intros w b first others pre l post e b1 b2 Hfetch Hsort Hpre Hl He.
    assert (Hbody : cycle_body w b = (Raise e, b2)).
    { rewrite cycle_body_eq, Hfetch, Hsort, process_all_app, Hpre.
      rewrite process_all_cons. simpl. rewrite Hl. reflexivity. }
    assert (Hcycle : cycle w b = (Ok tt, slept w (with_message (MsgError e) "red" b2))).
    { rewrite cycle_eq, Hbody, He. reflexivity. }
    split; [exact Hcycle|].
    rewrite Hcycle. cbn [snd].
    split; [|split; [reflexivity|split; [reflexivity|]]].
    + unfold slept. cbn [trace set_trace]. rewrite found_log_app.
      change (found_log (trace (with_message (MsgError e) "red" b2)))
        with (found_log (trace b2)).
      simpl (found_log [_]). rewrite app_nil_r.
      pose proof (process_listing_found_log (candidate w (length pre)) l
                    (set_trace (trace b1 ++ [LogFound l]) b1)) as Hlog.
      rewrite Hl in Hlog. cbn [snd trace set_trace] in Hlog.
      rewrite Hlog, found_log_app.
      rewrite (process_all_done_found_log _ _ _ _ _ Hpre).
      change (found_log (trace (with_message _ _ b))) with (found_log (trace b)).
      rewrite <- app_assoc. reflexivity.
    + intros ws. rewrite monitoring_cycles_cons, Hcycle. reflexivity.
  - intros w l b t blk e Hapi Htok Hta Hblk Hskip Hnew Hopen He.
    destruct (process_listing_failed_to_open w l b t blk e
                Hapi Htok Hta Hblk Hskip Hnew Hopen He) as (H1 & H2 & H3 & _).
    auto.
Qed.

Lemma exception_ends_the_pass_witness :
  found_log (trace (snd (cycle first_fails_cycle bot0)))
    = found_log (trace bot0) ++ [] ++ [listing_of "1" "2" "A" "1" 10].
Proof.
  pose proof (proj1 exception_ends_the_pass) as H.
  specialize (H first_fails_cycle bot0
                (listing_of "1" "2" "A" "1" 10) [listing_of "2" "2" "B" "1" 10]
                [] (listing_of "1" "2" "A" "1" 10) [listing_of "2" "2" "B" "1" 10]
                (ExternalError "Page.evaluate: net::ERR_TIMED_OUT")
                (with_message (MsgTicketsFound 2) "cyan bold" bot0)
                (snd (_process_listing failing_world (listing_of "1" "2" "A" "1" 10)
                        (set_trace
                           (trace (with_message (MsgTicketsFound 2) "cyan bold" bot0)
                              ++ [LogFound (listing_of "1" "2" "A" "1" 10)])
                           (with_message (MsgTicketsFound 2) "cyan bold" bot0))))
                eq_refl eq_refl eq_refl eq_refl eq_refl).
  destruct H as (_ & H & _). exact H.
Defined.

(** ** The sleep between passes *)

(** The arithmetic of binary64, as far as the jitter formula needs it:
    what [SpecFloat] computes for a product, a sum and a difference of
    non-negative numbers is the exact result rounded to the nearest
    binary64 number, ties to even. *)
Section Binary64.

Local Open Scope Z_scope.

(** *** Digits *)

Lemma digits2_pos_bounds m :
  2 ^ (Zpos (digits2_pos m) - 1) <= Zpos m < 2 ^ Zpos (digits2_pos m).
Proof.
  induction m as [m IH|m IH|]; cbn [digits2_pos].
  - rewrite Pos2Z.inj_succ. replace (Z.succ (Zpos (digits2_pos m)) - 1)
      with (Z.succ (Zpos (digits2_pos m) - 1)) by lia.
    rewrite !Z.pow_succ_r by lia. lia.
  - rewrite Pos2Z.inj_succ. replace (Z.succ (Zpos (digits2_pos m)) - 1)
      with (Z.succ (Zpos (digits2_pos m) - 1)) by lia.
    rewrite !Z.pow_succ_r by lia. lia.
  - simpl. lia.
Qed.

Lemma bits_bounds n : 0 < n -> 2 ^ (bits n - 1) <= n < 2 ^ bits n.
Proof.
  intros Hn. unfold bits. replace (Z.log2 n + 1 - 1) with (Z.log2 n) by lia.
  replace (Z.log2 n + 1) with (Z.succ (Z.log2 n)) by lia.
  apply Z.log2_spec, Hn.
Qed.

Lemma bits_unique n d : 2 ^ (d - 1) <= n < 2 ^ d -> 1 <= d -> bits n = d.
Proof.
  intros H Hd. unfold bits.
  rewrite (Z.log2_unique n (d - 1)); [lia | lia |].
  replace (Z.succ (d - 1)) with d by lia. exact H.
Qed.

Lemma bits_digits2_pos m : bits (Zpos m) = Zpos (digits2_pos m).
Proof. apply bits_unique; [apply digits2_pos_bounds | lia]. Qed.

Lemma bits_pos n : 0 < n -> 1 <= bits n.
Proof. intros Hn. unfold bits. pose proof (Z.log2_nonneg n). lia. Qed.

Lemma bits_le n1 n2 : 0 < n1 -> n1 <= n2 -> bits n1 <= bits n2.
Proof.
  intros H1 H2. unfold bits. pose proof (Z.log2_le_mono n1 n2 H2). lia.
Qed.

Lemma bits_shift n k : 0 < n -> 0 <= k -> bits (n * 2 ^ k) = bits n + k.
Proof.
  intros Hn Hk. unfold bits. rewrite Z.log2_mul_pow2 by lia. lia.
Qed.

Lemma bits_0 : bits 0 = 1.
Proof. reflexivity. Qed.

Lemma last_place_le n1 n2 : 0 <= n1 -> n1 <= n2 -> last_place n1 <= last_place n2.
Proof.
  intros H1 H2. unfold last_place.
  destruct (Z.eq_dec n1 0) as [->|Hn].
  - rewrite bits_0. destruct (Z.eq_dec n2 0) as [->|Hn2].
    + rewrite bits_0. lia.
    + pose proof (bits_pos n2). lia.
  - pose proof (bits_le n1 n2). lia.
Qed.

Lemma last_place_ge n : 1074 <= last_place n.
Proof. unfold last_place. lia. Qed.


(** *** Rounding to the nearest multiple, ties to even *)

Lemma round_even_cases k n :
  round_even k n = n / 2 ^ k \/ round_even k n = n / 2 ^ k + 1.
Proof.
  unfold round_even. cbv zeta.
  destruct (2 * (n mod 2 ^ k) <? 2 ^ k); [auto|].
  destruct (2 ^ k <? 2 * (n mod 2 ^ k)); [auto|].
  destruct (Z.even (n / 2 ^ k)); auto.
Qed.

Lemma round_even_exact k n :
  0 <= k -> n mod 2 ^ k = 0 -> round_even k n * 2 ^ k = n.
Proof.
  intros Hk Hm. unfold round_even. cbv zeta. rewrite Hm.
  assert (Hp : 0 < 2 ^ k) by (apply Z.pow_pos_nonneg; lia).
  destruct (Z.ltb_spec (2 * 0) (2 ^ k)); [|lia].
  pose proof (Z.div_mod n (2 ^ k)). lia.
Qed.

Lemma round_even_0 k : 0 <= k -> round_even k 0 = 0.
Proof.
  intros Hk. unfold round_even. cbv zeta.
  assert (Hp : 0 < 2 ^ k) by (apply Z.pow_pos_nonneg; lia).
  rewrite Z.mod_0_l, Z.div_0_l by lia.
  destruct (Z.ltb_spec (2 * 0) (2 ^ k)); [reflexivity | lia].
Qed.

Lemma round_even_mono k n1 n2 :
  0 <= k -> n1 <= n2 -> round_even k n1 <= round_even k n2.
Proof.
  intros Hk Hn.
  assert (Hp : 0 < 2 ^ k) by (apply Z.pow_pos_nonneg; lia).
  pose proof (Z.div_le_mono n1 n2 (2 ^ k) Hp Hn) as Hq.
  pose proof (Z.div_mod n1 (2 ^ k) ltac:(lia)) as E1.
  pose proof (Z.div_mod n2 (2 ^ k) ltac:(lia)) as E2.
  pose proof (Z.mod_pos_bound n1 (2 ^ k) Hp) as B1.
  pose proof (Z.mod_pos_bound n2 (2 ^ k) Hp) as B2.
  destruct (Z.eq_dec (n1 / 2 ^ k) (n2 / 2 ^ k)) as [Heq|Hne].
  - unfold round_even. cbv zeta. rewrite <- Heq. rewrite <- Heq in E2.
    set (q := n1 / 2 ^ k) in *. set (p := 2 ^ k) in *.
    set (r1 := n1 mod p) in *. set (r2 := n2 mod p) in *.
    assert (r1 <= r2) by lia.
    destruct (Z.ltb_spec (2 * r1) p), (Z.ltb_spec (2 * r2) p); try lia;
      destruct (Z.ltb_spec p (2 * r1)), (Z.ltb_spec p (2 * r2)); try lia;
      destruct (Z.even q); lia.
  - destruct (round_even_cases k n1) as [-> | ->],
             (round_even_cases k n2) as [-> | ->]; lia.
Qed.

Lemma round_even_nonneg k n : 0 <= k -> 0 <= n -> 0 <= round_even k n.
Proof.
  intros Hk Hn. rewrite <- (round_even_0 k Hk). apply round_even_mono; assumption.
Qed.

Lemma round_even_scale k j a :
  0 <= k -> 0 <= j -> round_even (k + j) (a * 2 ^ j) = round_even k a.
Proof.
  intros Hk Hj.
  assert (Hp : 0 < 2 ^ k) by (apply Z.pow_pos_nonneg; lia).
  assert (Hpj : 0 < 2 ^ j) by (apply Z.pow_pos_nonneg; lia).
  unfold round_even. cbv zeta.
  rewrite Z.pow_add_r by lia.
  rewrite Z.div_mul_cancel_r by lia.
  rewrite Z.mul_mod_distr_r by lia.
  set (q := a / 2 ^ k). set (r := a mod 2 ^ k). set (p := 2 ^ k). set (pj := 2 ^ j) in *.
  assert (E1 : (2 * (r * pj) <? p * pj) = (2 * r <? p)).
  { destruct (Z.ltb_spec (2 * r) p), (Z.ltb_spec (2 * (r * pj)) (p * pj)); try reflexivity; nia. }
  assert (E2 : (p * pj <? 2 * (r * pj)) = (p <? 2 * r)).
  { destruct (Z.ltb_spec p (2 * r)), (Z.ltb_spec (p * pj) (2 * (r * pj))); try reflexivity; nia. }
  rewrite E1, E2. reflexivity.
Qed.


(** *** Rounding to binary64 *)

Lemma pow2_multiple j k : 0 <= k <= j -> 2 ^ j mod 2 ^ k = 0.
Proof.
  intros H. replace j with ((j - k) + k) by lia.
  rewrite Z.pow_add_r by lia. apply Z.mod_mul.
  pose proof (Z.pow_pos_nonneg 2 k). lia.
Qed.

Lemma multiple_of_smaller n j k : 0 <= k <= j -> n mod 2 ^ j = 0 -> n mod 2 ^ k = 0.
Proof.
  intros H Hn.
  assert (Hj : 0 < 2 ^ j) by (apply Z.pow_pos_nonneg; lia).
  assert (Hk : 0 < 2 ^ k) by (apply Z.pow_pos_nonneg; lia).
  apply Z.mod_divide in Hn; [|lia]. apply Z.mod_divide; [lia|].
  apply (Z.divide_trans _ (2 ^ j)); [|exact Hn].
  apply Z.mod_divide; [lia|]. apply pow2_multiple, H.
Qed.

Lemma round64_0 : round64 0 = 0.
Proof. reflexivity. Qed.

Lemma round64_exact n : n mod 2 ^ last_place n = 0 -> round64 n = n.
Proof.
  intros H. unfold round64. apply round_even_exact; [|exact H].
  pose proof (last_place_ge n). lia.
Qed.

Lemma round64_nonneg n : 0 <= n -> 0 <= round64 n.
Proof.
  intros Hn. unfold round64. pose proof (last_place_ge n).
  apply Z.mul_nonneg_nonneg.
  - apply round_even_nonneg; lia.
  - apply Z.pow_nonneg. lia.
Qed.

Lemma round64_mono n1 n2 : 0 <= n1 -> n1 <= n2 -> round64 n1 <= round64 n2.
Proof.
  intros H1 H12.
  pose proof (last_place_le n1 n2 H1 H12) as Hc.
  pose proof (last_place_ge n1) as Hc1.
  destruct (Z.eq_dec (last_place n1) (last_place n2)) as [E|E].
  - unfold round64. rewrite <- E.
    apply Z.mul_le_mono_nonneg_r.
    + apply Z.pow_nonneg. lia.
    + apply round_even_mono; lia.
  - destruct (Z.eq_dec n1 0) as [->|Hn1].
    { rewrite round64_0. apply round64_nonneg. lia. }
    assert (Hb : last_place n2 = bits n2 - 53 /\ bits n1 < bits n2).
    { unfold last_place in *. lia. }
    destruct Hb as [Hc2 Hb].
    pose proof (bits_bounds n1 ltac:(lia)) as B1.
    pose proof (bits_bounds n2 ltac:(lia)) as B2.
    pose proof (bits_pos n1 ltac:(lia)) as P1.
    assert (Hp : 2 ^ bits n1 <= 2 ^ (bits n2 - 1)) by (apply Z.pow_le_mono_r; lia).
    set (p := 2 ^ (bits n2 - 1)) in *.
    transitivity p.
    + unfold round64.
      rewrite <- (round_even_exact (last_place n1) p) at 1;
        [|lia | apply pow2_multiple; lia].
      apply Z.mul_le_mono_nonneg_r; [apply Z.pow_nonneg; lia|].
      apply round_even_mono; lia.
    + unfold round64.
      rewrite <- (round_even_exact (last_place n2) p) at 1;
        [|lia | apply pow2_multiple; lia].
      apply Z.mul_le_mono_nonneg_r; [apply Z.pow_nonneg; lia|].
      apply round_even_mono; lia.
Qed.

(** *** The numbers binary64 has *)

Lemma fexp_eq x : fexp prec emax x = Z.max (x - 53) (-1074).
Proof. reflexivity. Qed.

Lemma bounded_spec m e :
  bounded prec emax m e = true <->
  Z.max (Zpos (digits2_pos m) + e - 53) (-1074) = e /\ e <= 971.
Proof.
  unfold bounded, canonical_mantissa. rewrite fexp_eq.
  rewrite andb_true_iff, Z.eqb_eq, Z.leb_le.
  change (emax - prec) with 971. tauto.
Qed.

Lemma units_pos m e : -2148 <= e -> 0 < units (Zpos m) e.
Proof.
  intros He. unfold units. apply Z.mul_pos_pos; [lia|].
  apply Z.pow_pos_nonneg; lia.
Qed.

Lemma bits_units m e :
  -2148 <= e -> bits (units (Zpos m) e) = Zpos (digits2_pos m) + e + 2148.
Proof.
  intros He. unfold units. rewrite bits_shift by lia.
  rewrite bits_digits2_pos. lia.
Qed.

Lemma last_place_units m e :
  -2148 <= e ->
  last_place (units (Zpos m) e) = Z.max (Zpos (digits2_pos m) + e - 53) (-1074) + 2148.
Proof.
  intros He. unfold last_place. rewrite bits_units by lia. lia.
Qed.

Lemma last_place_bounded m e :
  bounded prec emax m e = true -> last_place (units (Zpos m) e) = e + 2148.
Proof.
  intros H. apply bounded_spec in H as [H _].
  rewrite last_place_units by lia. lia.
Qed.

Lemma units_multiple m e k : 0 <= k <= e + 2148 -> units m e mod 2 ^ k = 0.
Proof.
  intros H. unfold units.
  replace (e + 2148) with ((e + 2148 - k) + k) by lia.
  rewrite Z.pow_add_r by lia. rewrite Z.mul_assoc. apply Z.mod_mul.
  pose proof (Z.pow_pos_nonneg 2 k). lia.
Qed.

Lemma value_nonneg x : nonneg_finite x -> 0 <= value x.
Proof.
  destruct x as [s|s| |[|] m e]; simpl; try lia.
  intros H. apply bounded_spec in H.
  pose proof (units_pos m e). lia.
Qed.

Lemma value_multiple x : nonneg_finite x -> value x mod 2 ^ last_place (value x) = 0.
Proof.
  destruct x as [s|s| |[|] m e]; simpl; try reflexivity; try contradiction.
  intros H. rewrite (last_place_bounded _ _ H).
  apply bounded_spec in H. apply units_multiple. lia.
Qed.

Lemma round64_value x : nonneg_finite x -> round64 (value x) = value x.
Proof. intros H. apply round64_exact, value_multiple, H. Qed.

(** A difference of two binary64 numbers that is not larger than the
    smaller of them is a binary64 number (Sterbenz). *)
Lemma round64_difference x y :
  nonneg_finite x -> nonneg_finite y ->
  value y <= value x -> value x - value y <= value y ->
  round64 (value x - value y) = value x - value y.
Proof.
  intros Hx Hy Hle Hd.
  pose proof (value_nonneg y Hy) as Hy0.
  apply round64_exact.
  pose proof (last_place_ge (value x - value y)) as Hk.
  pose proof (last_place_le (value x - value y) (value y) ltac:(lia) Hd) as Hk1.
  pose proof (last_place_le (value y) (value x) Hy0 Hle) as Hk2.
  pose proof (multiple_of_smaller (value x) (last_place (value x))
                (last_place (value x - value y)) ltac:(lia) (value_multiple x Hx)) as Mx.
  pose proof (multiple_of_smaller (value y) (last_place (value y))
                (last_place (value x - value y)) ltac:(lia) (value_multiple y Hy)) as My.
  assert (Hp : 0 < 2 ^ last_place (value x - value y)) by (apply Z.pow_pos_nonneg; lia).
  rewrite Zminus_mod, Mx, My. reflexivity.
Qed.


(** *** Shifting a mantissa right *)

Lemma iter_pos_nat {A} (f : A -> A) p : forall x,
  SpecFloat.iter_pos f p x = Nat.iter (Pos.to_nat p) f x.
Proof.
  induction p as [p IH|p IH|]; intros x; cbn [SpecFloat.iter_pos].
  - rewrite !IH, Pos2Nat.inj_xI.
    replace (S (2 * Pos.to_nat p))%nat with (Pos.to_nat p + (Pos.to_nat p + 1))%nat by lia.
    rewrite !Nat.iter_add. reflexivity.
  - rewrite !IH, Pos2Nat.inj_xO.
    replace (2 * Pos.to_nat p)%nat with (Pos.to_nat p + Pos.to_nat p)%nat by lia.
    rewrite Nat.iter_add. reflexivity.
  - reflexivity.
Qed.

Lemma shr_1_spec m r s :
  0 <= m ->
  shr_1 {| shr_m := m; shr_r := r; shr_s := s |} =
  {| shr_m := m / 2; shr_r := Z.odd m; shr_s := r || s |}.
Proof.
  intros Hm. rewrite <- Z.div2_div.
  destruct m as [|[p|p|]|p]; try reflexivity. lia.
Qed.

Lemma mod_pow2_succ m j :
  0 <= j ->
  m mod 2 ^ (j + 1) = m mod 2 ^ j + 2 ^ j * ((m / 2 ^ j) mod 2).
Proof.
  intros Hj.
  assert (Hp : 0 < 2 ^ j) by (apply Z.pow_pos_nonneg; lia).
  pose proof (Z.div_mod m (2 ^ j) ltac:(lia)) as E1.
  pose proof (Z.mod_pos_bound m (2 ^ j) Hp) as B1.
  pose proof (Z.div_mod (m / 2 ^ j) 2 ltac:(lia)) as E2.
  pose proof (Z.mod_pos_bound (m / 2 ^ j) 2 ltac:(lia)) as B2.
  symmetry. apply (Z.mod_unique_pos _ _ (m / 2 ^ j / 2)).
  - rewrite Z.pow_add_r by lia. change (2 ^ 1) with 2. nia.
  - rewrite Z.pow_add_r by lia. change (2 ^ 1) with 2. nia.
Qed.

Lemma shr_iter m k :
  0 <= m -> (1 <= k)%nat ->
  Nat.iter k shr_1 {| shr_m := m; shr_r := false; shr_s := false |} =
  {| shr_m := m / 2 ^ Z.of_nat k;
     shr_r := Z.odd (m / 2 ^ (Z.of_nat k - 1));
     shr_s := negb (m mod 2 ^ (Z.of_nat k - 1) =? 0) |}.
Proof.
  intros Hm Hk. induction k as [|k IH]; [lia|].
  destruct k as [|k].
  - cbn [Nat.iter nat_rect]. rewrite shr_1_spec by exact Hm.
    change (Z.of_nat 1 - 1) with 0. change (2 ^ 0) with 1.
    rewrite Z.div_1_r, Z.mod_1_r. reflexivity.
  - change (Nat.iter (S (S k)) shr_1 ?x) with (shr_1 (Nat.iter (S k) shr_1 x)).
    rewrite IH by lia.
    assert (Hp : 0 < 2 ^ Z.of_nat (S k)) by (apply Z.pow_pos_nonneg; lia).
    rewrite shr_1_spec by (apply Z.div_pos; lia).
    replace (Z.of_nat (S (S k)) - 1) with (Z.of_nat (S k)) by lia.
    f_equal.
    + rewrite Z.div_div by lia.
      replace (Z.of_nat (S (S k))) with (Z.of_nat (S k) + 1) by lia.
      rewrite Z.pow_add_r by lia. reflexivity.
    + assert (Hj : 0 <= Z.of_nat (S k) - 1) by lia.
      replace (Z.of_nat (S k)) with ((Z.of_nat (S k) - 1) + 1) at 3 by lia.
      set (j := Z.of_nat (S k) - 1) in *.
      rewrite mod_pow2_succ by lia.
      assert (Hpj : 0 < 2 ^ j) by (apply Z.pow_pos_nonneg; lia).
      pose proof (Z.mod_pos_bound m (2 ^ j) Hpj) as B1.
      rewrite Zmod_odd.
      destruct (Z.odd (m / 2 ^ j)); simpl.
      * symmetry. apply negb_true_iff, Z.eqb_neq. lia.
      * rewrite Z.mul_0_r, Z.add_0_r. reflexivity.
Qed.

Lemma round_nearest_even_shr m n :
  0 <= m -> 0 < n ->
  round_nearest_even (m / 2 ^ n)
    (loc_of_shr_record
       {| shr_m := m / 2 ^ n;
          shr_r := Z.odd (m / 2 ^ (n - 1));
          shr_s := negb (m mod 2 ^ (n - 1) =? 0) |})
  = round_even n m.
Proof.
  intros Hm Hn. unfold round_even. cbv zeta.
  replace n with ((n - 1) + 1) by lia.
  replace (n - 1 + 1 - 1) with (n - 1) by lia.
  assert (Hj : 0 <= n - 1) by lia.
  set (j := n - 1) in *.
  rewrite mod_pow2_succ by lia.
  rewrite Z.pow_add_r by lia. change (2 ^ 1) with 2.
  assert (Hpj : 0 < 2 ^ j) by (apply Z.pow_pos_nonneg; lia).
  pose proof (Z.mod_pos_bound m (2 ^ j) Hpj) as B1.
  rewrite Zmod_odd.
  set (r := m mod 2 ^ j) in *. set (p := 2 ^ j) in *.
  set (q := m / (p * 2)).
  destruct (Z.odd (m / p)); destruct (Z.eqb_spec r 0) as [E|E];
    cbn [loc_of_shr_record negb round_nearest_even].
  - destruct (Z.ltb_spec (2 * (r + p * 1)) (p * 2)); [lia|].
    destruct (Z.ltb_spec (p * 2) (2 * (r + p * 1))); [lia|]. reflexivity.
  - destruct (Z.ltb_spec (2 * (r + p * 1)) (p * 2)); [lia|].
    destruct (Z.ltb_spec (p * 2) (2 * (r + p * 1))); [|lia]. reflexivity.
  - destruct (Z.ltb_spec (2 * (r + p * 0)) (p * 2)); [|lia]. reflexivity.
  - destruct (Z.ltb_spec (2 * (r + p * 0)) (p * 2)); [|lia]. reflexivity.
Qed.

Lemma round_even_0_r m : round_even 0 m = m.
Proof.
  unfold round_even. cbv zeta. change (2 ^ 0) with 1.
  rewrite Z.mod_1_r, Z.div_1_r. reflexivity.
Qed.

(** [shr] on an exact mantissa divides by [2^n] and keeps what rounding
    needs to know. *)
Lemma shr_spec m e n :
  0 <= m ->
  let out := shr {| shr_m := m; shr_r := false; shr_s := false |} e n in
  snd out = e + Z.max n 0 /\
  round_nearest_even (shr_m (fst out)) (loc_of_shr_record (fst out))
    = round_even (Z.max n 0) m.
Proof.
  intros Hm. destruct n as [|p|p]; cbn [shr fst snd].
  - rewrite Z.add_0_r. split; [reflexivity|].
    change (Z.max 0 0) with 0. rewrite round_even_0_r. reflexivity.
  - rewrite iter_pos_nat, shr_iter by lia.
    rewrite positive_nat_Z. cbn [shr_m].
    replace (Z.max (Zpos p) 0) with (Zpos p) by lia.
    split; [reflexivity|]. apply round_nearest_even_shr; lia.
  - replace (Z.max (Zneg p) 0) with 0 by lia. rewrite Z.add_0_r.
    split; [reflexivity|]. rewrite round_even_0_r. reflexivity.
Qed.


(** *** Rounding a mantissa and an exponent to a float *)

Lemma pow2_lt_inv a b : 0 <= b -> 2 ^ a < 2 ^ b -> a < b.
Proof. intros Hb H. apply (Z.pow_lt_mono_r_iff 2); [lia | exact Hb | exact H]. Qed.

Lemma pow2_le a b : a <= b -> 2 ^ a <= 2 ^ b.
Proof. intros H. apply Z.pow_le_mono_r; lia. Qed.

Lemma digits2_pos_le q k : 0 <= k -> Zpos q < 2 ^ k -> Zpos (digits2_pos q) <= k.
Proof.
  intros Hk H. pose proof (digits2_pos_bounds q) as B.
  assert (Zpos (digits2_pos q) - 1 < k) by (apply pow2_lt_inv; lia). lia.
Qed.

Lemma digits2_pos_ge q k : 0 <= k -> 2 ^ k <= Zpos q -> k < Zpos (digits2_pos q).
Proof.
  intros Hk H. pose proof (digits2_pos_bounds q) as B.
  apply pow2_lt_inv; lia.
Qed.

Lemma shr_exact_nop m e n :
  n <= 0 ->
  shr {| shr_m := m; shr_r := false; shr_s := false |} e n
  = ({| shr_m := m; shr_r := false; shr_s := false |}, e).
Proof. intros Hn. destruct n; [reflexivity | lia | reflexivity]. Qed.

(** [binary_round_aux] rounds [m * 2^e] to binary64, provided the mantissa
    is at least as long as the format asks. *)
Lemma binary_round_aux_spec m e :
  -2148 <= e -> e <= fexp prec emax (Zpos (digits2_pos m) + e) ->
  represents (binary_round_aux prec emax false (Zpos m) e loc_Exact)
    (round64 (units (Zpos m) e)).
Proof.
  intros He Hc. rewrite fexp_eq in Hc.
  pose proof (digits2_pos_bounds m) as Bm.
  assert (HY : round64 (units (Zpos m) e)
               = round_even (Z.max (Zpos (digits2_pos m) + e - 53) (-1074) - e) (Zpos m)
                 * 2 ^ (Z.max (Zpos (digits2_pos m) + e - 53) (-1074) + 2148)).
  { unfold round64. rewrite last_place_units by lia.
    set (c := Z.max (Zpos (digits2_pos m) + e - 53) (-1074)) in *.
    unfold units. replace (c + 2148) with ((c - e) + (e + 2148)) at 1 by lia.
    rewrite round_even_scale by lia. reflexivity. }
  rewrite HY. clear HY.
  unfold binary_round_aux, shr_fexp. cbn [Zdigits2 shr_record_of_loc].
  rewrite fexp_eq.
  set (D := Zpos (digits2_pos m)) in *.
  set (c := Z.max (D + e - 53) (-1074)) in *.
  pose proof (shr_spec (Zpos m) e (c - e) ltac:(lia)) as S1. cbv zeta in S1.
  destruct (shr {| shr_m := Zpos m; shr_r := false; shr_s := false |} e (c - e))
    as [mrs1 e1].
  cbn [fst snd] in S1. destruct S1 as [-> S1]. rewrite S1.
  replace (Z.max (c - e) 0) with (c - e) by lia.
  replace (e + (c - e)) with c by lia.
  assert (Hp : 0 < 2 ^ (c - e)) by (apply Z.pow_pos_nonneg; lia).
  assert (Hdiv : 0 <= Zpos m / 2 ^ (c - e) < 2 ^ 53).
  { split; [apply Z.div_pos; lia|].
    apply Z.div_lt_upper_bound; [lia|].
    rewrite <- Z.pow_add_r by lia.
    pose proof (pow2_le D (c - e + 53) ltac:(lia)). lia. }
  assert (Hnormal : -1074 < c -> 2 ^ 52 <= Zpos m / 2 ^ (c - e)).
  { intros Hcn. apply Z.div_le_lower_bound; [lia|].
    rewrite <- Z.pow_add_r by lia.
    replace (c - e + 52) with (D - 1) by lia. lia. }
  pose proof (round_even_cases (c - e) (Zpos m)) as Hcases.
  pose proof (round_even_mono (c - e) 0 (Zpos m) ltac:(lia) ltac:(lia)) as Hnn.
  rewrite round_even_0 in Hnn by lia.
  set (m2 := round_even (c - e) (Zpos m)) in *.
  assert (Hm2 : m2 <= 2 ^ 53) by lia.
  assert (Hm2n : -1074 < c -> 2 ^ 52 <= m2) by (intros Hcn; specialize (Hnormal Hcn); lia).
  clearbody m2. clear Hcases Hdiv Hnormal S1 mrs1.
  destruct m2 as [|q|q]; [| |lia].
  - (* rounded to zero *)
    cbn [Zdigits2]. rewrite fexp_eq.
    rewrite shr_exact_nop by lia. cbn [shr_m]. simpl. reflexivity.
  - cbn [Zdigits2]. rewrite fexp_eq.
    destruct (Z_lt_le_dec (Zpos q) (2 ^ 53)) as [Hlt|Hge].
    + (* the mantissa fits *)
      pose proof (digits2_pos_le q 53 ltac:(lia) Hlt) as Hd.
      assert (Hcan : Z.max (Zpos (digits2_pos q) + c - 53) (-1074) = c).
      { destruct (Z_le_gt_dec c (-1074)) as [Hs|Hn]; [lia|].
        pose proof (digits2_pos_ge q 52 ltac:(lia) (Hm2n ltac:(lia))). lia. }
      rewrite Hcan. rewrite shr_exact_nop by lia. cbn [shr_m].
      change (emax - prec) with 971.
      destruct (Z.leb_spec c 971) as [Hfin|Hinf]; cbn [represents].
      * split; [|reflexivity]. apply bounded_spec. split; [exact Hcan | exact Hfin].
      * specialize (Hm2n ltac:(lia)).
        replace (1024 + 2148) with (52 + (972 + 2148)) by lia.
        rewrite Z.pow_add_r by lia.
        pose proof (pow2_le (972 + 2148) (c + 2148) ltac:(lia)) as Hpw.
        assert (0 < 2 ^ (972 + 2148)) by (apply Z.pow_pos_nonneg; lia).
        nia.
    + (* the mantissa has grown to 2^53 *)
      assert (Hq : q = 9007199254740992%positive).
      { apply Pos2Z.inj. change (Zpos 9007199254740992) with (2 ^ 53). lia. }
      subst q.
      change (Zpos (digits2_pos 9007199254740992)) with 54.
      replace (Z.max (54 + c - 53) (-1074) - c) with 1 by lia.
      cbn [shr SpecFloat.iter_pos shr_1 shr_m].
      change (emax - prec) with 971.
      destruct (Z.leb_spec (c + 1) 971) as [Hfin|Hinf]; cbn [represents].
      * split.
        -- apply bounded_spec.
           change (Zpos (digits2_pos 4503599627370496)) with 53.
           split; lia.
        -- unfold units. replace (c + 1 + 2148) with (1 + (c + 2148)) by lia.
           rewrite Z.pow_add_r by lia. change (2 ^ 1) with 2. lia.
      * replace (1024 + 2148) with (53 + (971 + 2148)) by lia.
        rewrite Z.pow_add_r by lia.
        pose proof (pow2_le (971 + 2148) (c + 2148) ltac:(lia)) as Hpw.
        change (Zpos 9007199254740992) with (2 ^ 53).
        apply Z.mul_le_mono_nonneg_l; [lia | exact Hpw].
Qed.


Lemma iter_xO_spec mx d : Zpos (Pos.iter xO mx d) = Zpos mx * 2 ^ Zpos d.
Proof.
  induction d as [|d IH] using Pos.peano_ind.
  - simpl. lia.
  - rewrite Pos.iter_succ, Pos2Z.inj_xO, IH, Pos2Z.inj_succ, Z.pow_succ_r by lia. lia.
Qed.

(** [shl_align] lowers the exponent to [ex'], if that is lower, and keeps
    the value. *)
Lemma shl_align_spec mx ex ex' :
  -2148 <= ex -> -2148 <= ex' ->
  snd (shl_align mx ex ex') = Z.min ex ex' /\
  units (Zpos (fst (shl_align mx ex ex'))) (snd (shl_align mx ex ex')) = units (Zpos mx) ex /\
  Zpos (digits2_pos (fst (shl_align mx ex ex'))) + snd (shl_align mx ex ex')
    = Zpos (digits2_pos mx) + ex.
Proof.
  intros He He'. unfold shl_align.
  destruct (ex' - ex) as [|d|d] eqn:E; cbn [fst snd].
  - split; [lia|]. split; reflexivity.
  - split; [lia|]. split; reflexivity.
  - assert (Hd : ex = ex' + Zpos d) by lia.
    split; [lia|].
    assert (Hv : units (Zpos (Pos.iter xO mx d)) ex' = units (Zpos mx) ex).
    { unfold units. rewrite iter_xO_spec, Hd.
      replace (ex' + Zpos d + 2148) with (Zpos d + (ex' + 2148)) by lia.
      rewrite (Z.pow_add_r 2 (Zpos d) (ex' + 2148)) by lia. ring. }
    split; [exact Hv|].
    rewrite <- !bits_digits2_pos, iter_xO_spec, bits_shift by lia. lia.
Qed.

(** [binary_round] rounds [m * 2^e] to binary64. *)
Lemma binary_round_spec m e :
  -2148 <= e ->
  represents (binary_round prec emax false m e) (round64 (units (Zpos m) e)).
Proof.
  intros He. unfold binary_round.
  pose proof (shl_align_spec m e (fexp prec emax (Zpos (digits2_pos m) + e)) He) as H.
  rewrite fexp_eq in *.
  destruct (shl_align m e _) as [mz ez]. cbn [fst snd] in H.
  destruct H as (He' & Hv & Hd); [lia|].
  rewrite <- Hv. apply binary_round_aux_spec; [lia|].
  rewrite fexp_eq, Hd. lia.
Qed.

(** *** What an operation returns *)

Lemma value_lt_max x : nonneg_finite x -> value x < 2 ^ (1024 + 2148).
Proof.
  destruct x as [s|s| |[|] m e]; simpl; try contradiction;
    try (intros _; apply Z.pow_pos_nonneg; lia).
  intros H. apply bounded_spec in H as [Hc He].
  pose proof (digits2_pos_bounds m) as Bm.
  unfold units.
  assert (Hd : Zpos (digits2_pos m) <= 53) by lia.
  pose proof (pow2_le (Zpos (digits2_pos m)) 53 Hd) as H1.
  pose proof (pow2_le (e + 2148) (971 + 2148) ltac:(lia)) as H2.
  assert (0 < 2 ^ (e + 2148)) by (apply Z.pow_pos_nonneg; lia).
  replace (1024 + 2148) with (53 + (971 + 2148)) by lia.
  rewrite (Z.pow_add_r 2 53 (971 + 2148)) by lia.
  set (Y := 2 ^ (971 + 2148)) in *. set (X := 2 ^ (e + 2148)) in *.
  set (P := 2 ^ 53) in *. set (Pd := 2 ^ Zpos (digits2_pos m)) in *. nia.
Qed.

Lemma represents_finite x y :
  represents x y -> y < 2 ^ (1024 + 2148) -> nonneg_finite x /\ value x = y.
Proof.
  destruct x as [s|[|]| |[|] m e]; cbn [represents nonneg_finite value];
    try contradiction.
  - intros Hy _. auto.
  - lia.
  - intros [H1 H2] _. auto.
Qed.

Lemma represents_value x : nonneg_finite x -> represents x (value x).
Proof.
  destruct x as [s|s| |[|] m e]; simpl; try contradiction; auto.
Qed.

(** *** Comparison *)

Lemma SFcompare_spec x y :
  nonneg_finite x -> nonneg_finite y ->
  SFcompare x y = Some (value x ?= value y).
Proof.
  destruct x as [sx|sx| |[|] mx ex]; try contradiction;
    destruct y as [sy|sy| |[|] my ey]; try contradiction;
    cbn [nonneg_finite SFcompare value]; intros Hx Hy.
  - reflexivity.
  - apply bounded_spec in Hy. pose proof (units_pos my ey ltac:(lia)) as Hp.
    f_equal. symmetry. apply Z.compare_lt_iff. lia.
  - apply bounded_spec in Hx. pose proof (units_pos mx ex ltac:(lia)) as Hp.
    f_equal. symmetry. apply Z.compare_gt_iff. lia.
  - apply bounded_spec in Hx as [Hcx Hex], Hy as [Hcy Hey].
    pose proof (digits2_pos_bounds mx) as Bx.
    pose proof (digits2_pos_bounds my) as By.
    f_equal.
    assert (Hlt : forall m1 e1 m2 e2,
               Z.max (Zpos (digits2_pos m1) + e1 - 53) (-1074) = e1 ->
               Z.max (Zpos (digits2_pos m2) + e2 - 53) (-1074) = e2 ->
               e1 < e2 -> units (Zpos m1) e1 < units (Zpos m2) e2).
    { clear. intros m1 e1 m2 e2 H1 H2 Hlt.
      pose proof (digits2_pos_bounds m1) as B1.
      pose proof (digits2_pos_bounds m2) as B2.
      assert (Hd2 : Zpos (digits2_pos m2) = 53) by lia.
      rewrite Hd2 in B2. change (2 ^ (53 - 1)) with (2 ^ 52) in B2.
      pose proof (pow2_le (Zpos (digits2_pos m1)) 53 ltac:(lia)) as P1.
      pose proof (pow2_le (e1 + 1 + 2148) (e2 + 2148) ltac:(lia)) as P2.
      replace (e1 + 1 + 2148) with (1 + (e1 + 2148)) in P2 by lia.
      rewrite (Z.pow_add_r 2 1 (e1 + 2148)) in P2 by lia. change (2 ^ 1) with 2 in P2.
      assert (0 < 2 ^ (e1 + 2148)) by (apply Z.pow_pos_nonneg; lia).
      unfold units.
      set (X1 := 2 ^ (e1 + 2148)) in *. set (X2 := 2 ^ (e2 + 2148)) in *.
      set (Pd := 2 ^ Zpos (digits2_pos m1)) in *.
      change (2 ^ 53) with 9007199254740992 in *.
      change (2 ^ 52) with 4503599627370496 in *. nia. }
    destruct (Z.compare_spec ex ey) as [->|Hl|Hg].
    + unfold units. rewrite <- Zmult_compare_compat_r; [reflexivity|].
      assert (0 < 2 ^ (ey + 2148)) by (apply Z.pow_pos_nonneg; lia). lia.
    + symmetry. apply Z.compare_lt_iff. apply Hlt; assumption.
    + symmetry. apply Z.compare_gt_iff. apply Hlt; assumption.
Qed.

Lemma SFleb_spec x y :
  nonneg_finite x -> nonneg_finite y -> (SFleb x y = true <-> value x <= value y).
Proof.
  intros Hx Hy. unfold SFleb. rewrite (SFcompare_spec x y Hx Hy).
  destruct (Z.compare_spec (value x) (value y)); split; intros; try lia; try reflexivity;
    discriminate.
Qed.

Lemma SFltb_spec x y :
  nonneg_finite x -> nonneg_finite y -> (SFltb x y = true <-> value x < value y).
Proof.
  intros Hx Hy. unfold SFltb. rewrite (SFcompare_spec x y Hx Hy).
  destruct (Z.compare_spec (value x) (value y)); split; intros; try lia; try reflexivity;
    discriminate.
Qed.


(** *** Multiplication, addition and subtraction *)

Lemma bits_mul_ge a b : 0 < a -> 0 < b -> bits a + bits b - 1 <= bits (a * b).
Proof.
  intros Ha Hb.
  pose proof (bits_bounds a Ha) as Ba. pose proof (bits_bounds b Hb) as Bb.
  pose proof (bits_bounds (a * b) ltac:(nia)) as Bab.
  pose proof (bits_pos a Ha). pose proof (bits_pos b Hb).
  pose proof (bits_pos (a * b) ltac:(nia)).
  assert (Hp : 2 ^ (bits a + bits b - 2) < 2 ^ bits (a * b)).
  { replace (bits a + bits b - 2) with ((bits a - 1) + (bits b - 1)) by lia.
    rewrite (Z.pow_add_r 2 (bits a - 1) (bits b - 1)) by lia.
    assert (0 < 2 ^ (bits a - 1)) by (apply Z.pow_pos_nonneg; lia).
    assert (0 < 2 ^ (bits b - 1)) by (apply Z.pow_pos_nonneg; lia).
    nia. }
  apply pow2_lt_inv in Hp; lia.
Qed.

Lemma units_mul mx ex my ey :
  -1074 <= ex -> -1074 <= ey ->
  units (Zpos mx) ex * units (Zpos my) ey / 2 ^ 2148 = units (Zpos (mx * my)) (ex + ey).
Proof.
  intros Hx Hy. unfold units. rewrite Pos2Z.inj_mul.
  replace (Zpos mx * 2 ^ (ex + 2148) * (Zpos my * 2 ^ (ey + 2148)))
    with (Zpos mx * Zpos my * 2 ^ (ex + ey + 2148) * 2 ^ 2148).
  - apply Z.div_mul. apply Z.pow_nonzero; lia.
  - replace (ex + 2148) with ((ex + 1074) + 1074) by lia.
    replace (ey + 2148) with ((ey + 1074) + 1074) by lia.
    replace (ex + ey + 2148) with ((ex + 1074) + (ey + 1074)) by lia.
    assert (Ha : 0 <= ex + 1074) by lia. assert (Hb : 0 <= ey + 1074) by lia.
    set (a := ex + 1074) in *. set (b := ey + 1074) in *.
    change 2148 with (1074 + 1074).
    rewrite !Z.pow_add_r by lia. ring.
Qed.

(** The product of two binary64 numbers is their exact product, rounded. *)
Lemma SFmul_spec x y :
  nonneg_finite x -> nonneg_finite y ->
  represents (SFmul prec emax x y) (round64 (value x * value y / 2 ^ 2148)).
Proof.
  destruct x as [sx|sx| |[|] mx ex]; try contradiction;
    destruct y as [sy|sy| |[|] my ey]; try contradiction;
    cbn [nonneg_finite SFmul value represents xorb]; intros Hx Hy;
    rewrite ?Z.mul_0_l, ?Z.mul_0_r, ?Z.div_0_l by (apply Z.pow_nonzero; lia);
    try reflexivity.
  pose proof Hx as Hx'. pose proof Hy as Hy'.
  apply bounded_spec in Hx' as [Hcx Hex], Hy' as [Hcy Hey].
  rewrite units_mul by lia.
  apply binary_round_aux_spec; [lia|].
  rewrite fexp_eq, <- !bits_digits2_pos, Pos2Z.inj_mul.
  pose proof (bits_mul_ge (Zpos mx) (Zpos my) ltac:(lia) ltac:(lia)) as Hb.
  pose proof (bits_pos (Zpos mx) ltac:(lia)).
  pose proof (bits_pos (Zpos my) ltac:(lia)).
  rewrite <- !bits_digits2_pos in Hcx, Hcy. lia.
Qed.

Lemma units_add a b e : units (Zpos (a + b)) e = units (Zpos a) e + units (Zpos b) e.
Proof. unfold units. rewrite Pos2Z.inj_add. ring. Qed.

(** The sum of two binary64 numbers is their exact sum, rounded. *)
Lemma SFadd_spec x y :
  nonneg_finite x -> nonneg_finite y ->
  represents (SFadd prec emax x y) (round64 (value x + value y)).
Proof.
  destruct x as [sx|sx| |[|] mx ex]; try contradiction;
    destruct y as [sy|sy| |[|] my ey]; try contradiction;
    intros Hx Hy.
  - destruct sx, sy; reflexivity.
  - cbn [SFadd]. change (value (S754_zero sx)) with 0. rewrite Z.add_0_l.
    rewrite round64_value by exact Hy. apply represents_value, Hy.
  - cbn [SFadd]. change (value (S754_zero sy)) with 0. rewrite Z.add_0_r.
    rewrite round64_value by exact Hx. apply represents_value, Hx.
  - cbn [nonneg_finite] in Hx, Hy.
    pose proof Hx as Hx'. pose proof Hy as Hy'.
    apply bounded_spec in Hx' as [Hcx Hex], Hy' as [Hcy Hey].
    unfold SFadd. cbv zeta. cbn [value].
    destruct (shl_align_spec mx ex (Z.min ex ey) ltac:(lia) ltac:(lia)) as (E1 & V1 & _).
    destruct (shl_align_spec my ey (Z.min ex ey) ltac:(lia) ltac:(lia)) as (E2 & V2 & _).
    destruct (shl_align mx ex (Z.min ex ey)) as [ax e1].
    destruct (shl_align my ey (Z.min ex ey)) as [ay e2].
    cbn [fst snd] in *.
    change (binary_normalize prec emax
              (cond_Zopp false (Zpos ax) + cond_Zopp false (Zpos ay)) (Z.min ex ey) false)
      with (binary_round prec emax false (ax + ay) (Z.min ex ey)).
    rewrite <- V1, <- V2.
    replace e1 with (Z.min ex ey) by lia. replace e2 with (Z.min ex ey) by lia.
    rewrite <- units_add. apply binary_round_spec. lia.
Qed.

(** The difference of two binary64 numbers is their exact difference,
    rounded. *)
Lemma SFsub_spec x y :
  nonneg_finite x -> nonneg_finite y -> value y <= value x ->
  represents (SFsub prec emax x y) (round64 (value x - value y)).
Proof.
  destruct x as [sx|sx| |[|] mx ex]; try contradiction;
    destruct y as [sy|sy| |[|] my ey]; try contradiction;
    intros Hx Hy Hle.
  - destruct sx, sy; reflexivity.
  - exfalso. cbn [value nonneg_finite] in *. apply bounded_spec in Hy.
    pose proof (units_pos my ey ltac:(lia)). lia.
  - cbn [SFsub]. change (value (S754_zero sy)) with 0. rewrite Z.sub_0_r.
    rewrite round64_value by exact Hx. apply represents_value, Hx.
  - cbn [nonneg_finite] in Hx, Hy.
    pose proof Hx as Hx'. pose proof Hy as Hy'.
    apply bounded_spec in Hx' as [Hcx Hex], Hy' as [Hcy Hey].
    unfold SFsub. cbv zeta. cbn [value] in *.
    destruct (shl_align_spec mx ex (Z.min ex ey) ltac:(lia) ltac:(lia)) as (E1 & V1 & _).
    destruct (shl_align_spec my ey (Z.min ex ey) ltac:(lia) ltac:(lia)) as (E2 & V2 & _).
    destruct (shl_align mx ex (Z.min ex ey)) as [ax e1].
    destruct (shl_align my ey (Z.min ex ey)) as [ay e2].
    cbn [fst snd] in *.
    change (cond_Zopp false (Zpos ax)) with (Zpos ax).
    change (cond_Zopp false (Zpos ay)) with (Zpos ay).
    rewrite <- V1, <- V2 in *.
    replace e1 with (Z.min ex ey) in * by lia. replace e2 with (Z.min ex ey) in * by lia.
    set (ez := Z.min ex ey) in *.
    assert (Hp : 0 < 2 ^ (ez + 2148)) by (apply Z.pow_pos_nonneg; lia).
    assert (Hd : units (Zpos ax) ez - units (Zpos ay) ez = units (Zpos ax - Zpos ay) ez).
    { unfold units. ring. }
    rewrite Hd.
    destruct (Zpos ax - Zpos ay) as [|d|d] eqn:E.
    + reflexivity.
    + cbn [binary_normalize]. apply binary_round_spec. lia.
    + exfalso. unfold units in Hle. nia.
Qed.


(** *** The jitter formula *)

Lemma round64_double x : nonneg_finite x -> round64 (2 * value x) = 2 * value x.
Proof.
  intros Hx. pose proof (value_nonneg x Hx) as H0.
  destruct (Z.eq_dec (value x) 0) as [->|Hn]; [reflexivity|].
  apply round64_exact.
  pose proof (value_multiple x Hx) as Hm.
  pose proof (last_place_ge (value x)) as Hk.
  assert (Hl : last_place (2 * value x) <= last_place (value x) + 1).
  { unfold last_place. replace (2 * value x) with (value x * 2 ^ 1) by (simpl; lia).
    rewrite bits_shift by lia. lia. }
  pose proof (last_place_ge (2 * value x)) as Hk2.
  apply (multiple_of_smaller _ (last_place (value x) + 1)); [lia|].
  rewrite (Z.pow_add_r 2 (last_place (value x)) 1) by lia. change (2 ^ 1) with 2.
  rewrite (Z.mul_comm 2 (value x)).
  rewrite Z.mul_mod_distr_r, Hm; [reflexivity | | lia].
  apply Z.pow_nonzero; lia.
Qed.

Lemma represents_below_infinity x y :
  represents x y -> SFltb x (S754_infinity false) = true ->
  nonneg_finite x /\ value x = y.
Proof.
  destruct x as [s|[|]| |[|] m e]; cbn [represents nonneg_finite value];
    try contradiction.
  - intros Hy _. auto.
  - intros _ H. discriminate H.
  - intros [H1 H2] _. auto.
Qed.

Lemma nonneg_finite_of_leb x :
  valid_binary x = true -> SFleb (S754_zero false) x = true ->
  x <> S754_infinity false -> nonneg_finite x.
Proof.
  destruct x as [s|[|]| |[|] m e]; cbn [nonneg_finite valid_binary];
    intros Hv Hle Hinf; try exact I; try discriminate Hle; try exact Hv.
  congruence.
Qed.

(** In binary64, for a base delay [B >= 0] whose product with 1.5 does not
    overflow and a draw [R] with [0 <= R < 1], the value
    [B + (B * 1.5 - B) * R] lies between [B] and [B * 1.5]. *)
Lemma jitter_bounds B R :
  nonneg_finite B -> nonneg_finite R -> value R < 2 ^ 2148 ->
  SFltb (SFmul prec emax B (Prim2SF 1.5%float)) (S754_infinity false) = true ->
  SFleb B (SFadd prec emax B
             (SFmul prec emax (SFsub prec emax (SFmul prec emax B (Prim2SF 1.5%float)) B) R))
    = true /\
  SFleb (SFadd prec emax B
           (SFmul prec emax (SFsub prec emax (SFmul prec emax B (Prim2SF 1.5%float)) B) R))
        (SFmul prec emax B (Prim2SF 1.5%float)) = true.
Proof.
  intros HB HR Hr1 Hfin.
  pose proof (value_nonneg B HB) as HB0.
  pose proof (value_nonneg R HR) as HR0.
  assert (H15 : nonneg_finite (Prim2SF 1.5%float)) by reflexivity.
  assert (V15 : value (Prim2SF 1.5%float) = 3 * 2 ^ 2147) by reflexivity.
  assert (P2 : 2 ^ 2148 = 2 * 2 ^ 2147) by reflexivity.
  assert (Pp : 0 < 2 ^ 2147) by (apply Z.pow_pos_nonneg; lia).
  (* U = B * 1.5 *)
  destruct (represents_below_infinity _ _ (SFmul_spec B _ HB H15) Hfin) as [HU VU].
  set (U := SFmul prec emax B (Prim2SF 1.5%float)) in *.
  rewrite V15 in VU.
  assert (HX : value B <= value B * (3 * 2 ^ 2147) / 2 ^ 2148 <= 2 * value B).
  { rewrite P2. set (p := 2 ^ 2147) in *. split.
    - apply Z.div_le_lower_bound; nia.
    - apply Z.div_le_upper_bound; nia. }
  assert (HUB : value B <= value U <= 2 * value B).
  { rewrite VU. split.
    - rewrite <- (round64_value B HB) at 1. apply round64_mono; lia.
    - rewrite <- (round64_double B HB). apply round64_mono; lia. }
  pose proof (value_lt_max U HU) as HUmax.
  (* D = U - B, exactly *)
  destruct (represents_finite _ _ (SFsub_spec U B HU HB ltac:(lia))) as [HD VD].
  { rewrite (round64_difference U B HU HB) by lia. lia. }
  rewrite (round64_difference U B HU HB) in VD by lia.
  set (D := SFsub prec emax U B) in *.
  (* T = D * R *)
  assert (HY : 0 <= value D * value R / 2 ^ 2148 <= value D).
  { set (q := 2 ^ 2148) in *. split.
    - apply Z.div_pos; nia.
    - apply Z.div_le_upper_bound; nia. }
  assert (HTr : 0 <= round64 (value D * value R / 2 ^ 2148) <= value D).
  { split; [apply round64_nonneg; lia|].
    rewrite <- (round64_value D HD) at 2. apply round64_mono; lia. }
  destruct (represents_finite _ _ (SFmul_spec D R HD HR)) as [HT VT]; [lia|].
  set (T := SFmul prec emax D R) in *.
  (* S = B + T *)
  assert (HSr : value B <= round64 (value B + value T) <= value U).
  { split.
    - rewrite <- (round64_value B HB) at 1. apply round64_mono; lia.
    - rewrite <- (round64_value U HU). apply round64_mono; lia. }
  destruct (represents_finite _ _ (SFadd_spec B T HB HT)) as [HS VS]; [lia|].
  set (S := SFadd prec emax B T) in *.
  split; apply SFleb_spec; auto; lia.
Qed.

End Binary64.

(** With the default delay of two seconds and the largest draw, the sleep
    time is rounded up to three seconds, which is not below [2 * 1.5]. *)
Lemma sleep_time_reaches_upper_end_counterexample :
  (0 <=? 2)%float = true /\ (0 <=? largest_draw)%float = true /\
  (largest_draw <? 1)%float = true /\
  _get_random_sleep_time 2 largest_draw = 3%float /\
  (2 * 1.5)%float = 3%float /\
  (_get_random_sleep_time 2 largest_draw <? 2 * 1.5)%float = false.
Proof. repeat split. Qed.

(** C8, as the code has it. The sleep time is computed in binary64.  For a
    base delay [b >= 0] whose product [b * 1.5] does not overflow, and a
    draw [r] of [random()] in [[0, 1)], it lies in the closed interval from
    [b] to [b * 1.5], the upper end being the binary64 product. *)
Theorem sleep_time_in_closed_interval (b r : float) :
  (0 <=? b)%float = true -> (b * 1.5 <? infinity)%float = true ->
  (0 <=? r)%float = true -> (r <? 1)%float = true ->
  (b <=? _get_random_sleep_time b r)%float = true /\
  (_get_random_sleep_time b r <=? b * 1.5)%float = true.
Proof.
  unfold _get_random_sleep_time, uniform.
  rewrite !leb_spec, !ltb_spec, add_spec, !mul_spec, sub_spec, mul_spec.
  unfold SF64add, SF64mul, SF64sub.
  change (Prim2SF 0%float) with (S754_zero false).
  change (Prim2SF infinity) with (S754_infinity false).
  intros Hb Hfin Hr0 Hr1.
  assert (HB : nonneg_finite (Prim2SF b)).
  { apply nonneg_finite_of_leb; [apply Prim2SF_valid | exact Hb |].
    intros E. rewrite E in Hfin. discriminate Hfin. }
  assert (HR : nonneg_finite (Prim2SF r)).
  { apply nonneg_finite_of_leb; [apply Prim2SF_valid | exact Hr0 |].
    intros E. rewrite E in Hr1. discriminate Hr1. }
  apply jitter_bounds; auto.
  apply (SFltb_spec (Prim2SF r) (Prim2SF 1%float) HR) in Hr1; [exact Hr1 | reflexivity].
Qed.

Lemma sleep_time_in_closed_interval_witness :
  (2 <=? _get_random_sleep_time 2 largest_draw)%float = true /\
  (_get_random_sleep_time 2 largest_draw <=? 2 * 1.5)%float = true.
Proof.
  apply (sleep_time_in_closed_interval 2 largest_draw); reflexivity.
Defined.

(** A base delay of zero sleeps zero seconds. *)
Example zero_base_sleeps_zero :
  _get_random_sleep_time 0 0.5 = 0%float /\
  (_get_random_sleep_time 0 0.5 <? 0 * 1.5)%float = false.
Proof. split; reflexivity. Qed.

(** The upper end is the rounded product, which can lie above the exact
    one.  Take as base delay [0x1.999999999999ap-4], the float that 0.1
    denotes: the largest draw gives the binary64 product of the delay and
    1.5, and twice its value is more than three times the value of the
    delay. *)
Example upper_end_is_the_rounded_product :
  _get_random_sleep_time 0x1.999999999999ap-4 largest_draw
    = (0x1.999999999999ap-4 * 1.5)%float /\
  (3 * value (Prim2SF 0x1.999999999999ap-4)
   < 2 * value (Prim2SF (_get_random_sleep_time 0x1.999999999999ap-4 largest_draw)))%Z.
Proof. split; [reflexivity | vm_compute; reflexivity]. Qed.

(** When [b * 1.5] overflows the result is infinite, or not a number. *)
Example overflowing_base_delay :
  (0x1.fffffffffffffp+1023 * 1.5 <? infinity)%float = false /\
  _get_random_sleep_time 0x1.fffffffffffffp+1023 0.5 = infinity /\
  is_nan (_get_random_sleep_time 0x1.fffffffffffffp+1023 0) = true.
Proof. repeat split. Qed.

(** * Further properties *)

(** ** Invariants of a listing and of the loop *)

(** A property of the bot that survives the single updates made on the way
    through [_process_listing] survives the call. *)
Section ListingInvariant.

Variable P : TwicketBot -> Prop.

Hypothesis P_message : forall m s b, P b -> P (with_message m s b).
Hypothesis P_status : forall k st b, P b -> P (set_status k st b).
Hypothesis P_failed : forall l url b,
  P b -> P (set_trace (trace b ++ [BrowserOpen l url false]) b).
Hypothesis P_opened : forall l blk b,
  tl_id l ∉ opened_tickets b -> P b -> P (opened l blk b).

Lemma should_skip_listing_keeps l ta b :
  P b -> P (snd (_should_skip_listing l ta b)).
Proof.
  intros H.
  destruct (py_int (tl_seats l)) as [seats|e] eqn:Hs.
  - rewrite (should_skip_listing_eq _ _ _ _ Hs).
    repeat match goal with
    | |- context [if ?c then _ else _] => destruct c
    end; cbn [snd]; auto.
    match goal with |- context [match ?o with Some _ => _ | None => _ end] =>
      destruct o end; auto.
  - rewrite (should_skip_listing_raises _ _ _ _ Hs). exact H.
Qed.

Lemma process_listing_keeps_observed w l b :
  api_client b = true -> token_ok (auth_token b) = true ->
  P (observed l b) -> P (snd (_process_listing w l b)).
Proof.
  intros Hapi Htok H.
  rewrite (process_listing_eq _ _ _ Hapi Htok).
  destruct (get_ticket_availability (page_result w)) as [ta|e]; [|exact H].
  pose proof (should_skip_listing_keeps l ta _ H) as H2.
  destruct (_should_skip_listing l ta (observed l b)) as [[[|]|e] b2];
    cbn [snd] in *; auto.
  destruct (bool_decide (tl_id l ∈ opened_tickets b2)) eqn:Hin; cbn [snd]; auto.
  apply bool_decide_eq_false in Hin.
  destruct ta as [t|]; [|exact H2].
  destruct (block t) as [blk|]; cbn [snd]; auto.
  cbv zeta.
  destruct (open_raises w) as [e|]; cbn [snd].
  - destruct (is_Exception e); cbn [snd]; auto.
  - apply P_opened; auto.
Qed.

Hypothesis P_observed : forall l b, P b -> P (observed l b).

Lemma process_listing_keeps w l b :
  P b -> P (snd (_process_listing w l b)).
Proof.
  intros H.
  destruct (negb (api_client b) || negb (token_ok (auth_token b))) eqn:Hready.
  - rewrite (process_listing_not_ready _ _ _ Hready). exact H.
  - apply orb_false_elim in Hready as [Hapi Htok].
    apply negb_false_iff in Hapi, Htok.
    apply process_listing_keeps_observed; auto.
Qed.

End ListingInvariant.

(** A property that survives a status message, the announcement and
    processing of a listing, and the sleep survives the loop. *)
Section LoopInvariant.

Variable P : TwicketBot -> Prop.

Hypothesis P_message : forall m s b, P b -> P (with_message m s b).
Hypothesis P_listing : forall w l b,
  P b -> P (snd (_process_listing w l (set_trace (trace b ++ [LogFound l]) b))).
Hypothesis P_sleep : forall w b, P b -> P (slept w b).

Lemma process_all_keeps w ls : forall i b,
  P b -> P (snd (process_all w i ls b)).
Proof.
  induction ls as [|l rest IH]; intros i b H; [exact H|].
  rewrite process_all_cons.
  pose proof (P_listing (candidate w i) l b H) as H1.
  destruct (_process_listing (candidate w i) l _) as [[r|e] b1]; [|exact H1].
  apply IH, H1.
Qed.

Lemma cycle_body_keeps w b : P b -> P (snd (cycle_body w b)).
Proof.
  intros H. rewrite cycle_body_eq.
  destruct (fetch w) as [[[|l opts]|]|e]; cbn [snd]; auto.
  apply process_all_keeps. auto.
Qed.

Lemma cycle_keeps w b : P b -> P (snd (cycle w b)).
Proof.
  intros H. rewrite cycle_eq.
  pose proof (cycle_body_keeps w b H) as H1.
  destruct (cycle_body w b) as [[[]|e] b1]; cbn [snd] in *; auto.
  destruct (is_Exception e); cbn [snd]; auto.
Qed.

Lemma monitoring_cycles_keeps ws : forall b,
  P b -> P (snd (monitoring_cycles ws b)).
Proof.
  induction ws as [|w ws IH]; intros b H; [exact H|].
  rewrite monitoring_cycles_cons.
  pose proof (cycle_keeps w b H) as H1.
  destruct (cycle w b) as [[[]|e] b1]; [apply IH|]; exact H1.
Qed.

Lemma run_monitoring_loop_keeps ws b :
  P b -> P (snd (run_monitoring_loop ws b)).
Proof.
  intros H. unfold run_monitoring_loop, bind.
  rewrite !add_status_message_eq.
  pose proof (monitoring_cycles_keeps ws _
                (P_message MsgLogFile "dim" _ (P_message MsgEntering "cyan" b H))) as H1.
  destruct (monitoring_cycles ws _) as [[[]|e] b1]; [exact H1|].
  destruct e; try exact H1.
  rewrite add_status_message_eq. cbn [snd]. auto.
Qed.

End LoopInvariant.

(** A property that survives every single update survives the whole run. *)
Section StepwiseInvariant.

Variable P : TwicketBot -> Prop.

Hypothesis P_message : forall m s b, P b -> P (with_message m s b).
Hypothesis P_status : forall k st b, P b -> P (set_status k st b).
Hypothesis P_failed : forall l url b,
  P b -> P (set_trace (trace b ++ [BrowserOpen l url false]) b).
Hypothesis P_opened : forall l blk b,
  tl_id l ∉ opened_tickets b -> P b -> P (opened l blk b).
Hypothesis P_observed : forall l b, P b -> P (observed l b).
Hypothesis P_found : forall l b, P b -> P (set_trace (trace b ++ [LogFound l]) b).
Hypothesis P_sleep : forall w b, P b -> P (slept w b).

Lemma stepwise_process_listing w l b : P b -> P (snd (_process_listing w l b)).
Proof. apply process_listing_keeps; assumption. Qed.

Lemma stepwise_run_monitoring_loop ws b :
  P b -> P (snd (run_monitoring_loop ws b)).
Proof.
  apply run_monitoring_loop_keeps; try assumption.
  intros w l b0 H. apply stepwise_process_listing. apply P_found, H.
Qed.

End StepwiseInvariant.

(** ** The status buffer *)

Lemma status_messages_with_message m s b :
  messages_bounded b ->
  status_messages (with_message m s b) =
    (if (length (status_messages b) <? 10)%nat
     then status_messages b else tail (status_messages b)) ++ [(clock b, m, s)].
Proof.
  unfold messages_bounded. intros Hb.
  unfold with_message, _add_status_message, bind, datetime_now, modify.
  cbn [snd status_messages set_status_messages set_clock clock].
  rewrite length_app. simpl length.
  destruct (Nat.ltb_spec (length (status_messages b)) 10) as [Hlt|Hge].
  - destruct (Nat.ltb_spec 10 (length (status_messages b) + 1)); [lia|reflexivity].
  - destruct (Nat.ltb_spec 10 (length (status_messages b) + 1)); [|lia].
    destruct (status_messages b); [simpl in Hge; lia | reflexivity].
Qed.

Lemma messages_bounded_with_message m s b :
  messages_bounded b -> messages_bounded (with_message m s b).
Proof.
  intros Hb. unfold messages_bounded.
  rewrite (status_messages_with_message m s b Hb).
  unfold messages_bounded in Hb. rewrite length_app. simpl length.
  destruct (Nat.ltb_spec (length (status_messages b)) 10) as [Hlt|Hge]; [lia|].
  destruct (status_messages b); simpl in *; lia.
Qed.

Lemma status_messages_observed l b :
  status_messages (observed l b) = status_messages b.
Proof.
  unfold observed, bind, modify, datetime_now. cbn [snd].
  match goal with |- context [match ?o with Some _ => _ | None => _ end] =>
    destruct o end; reflexivity.
Qed.

Lemma status_messages_notified l blk url b :
  status_messages (notified l blk url b) = status_messages b.
Proof.
  unfold notified, notify_ticket_found, bind, get.
  destruct (discord_webhook_url (config b)) as [hook|]; [|reflexivity].
  destruct (String.eqb hook ""); reflexivity.
Qed.

Lemma messages_bounded_opened l blk b :
  messages_bounded b -> messages_bounded (opened l blk b).
Proof.
  intros Hb. unfold opened. cbv zeta. unfold messages_bounded.
  rewrite status_messages_notified.
  apply messages_bounded_with_message. exact Hb.
Qed.

(** X1. The status buffer never holds more than ten messages: a bot that
    starts the loop with at most ten has at most ten after any number of
    passes, and each new message goes to the end, pushing the oldest one out
    once ten are there. *)
Theorem status_messages_stay_bounded ws b :
  messages_bounded b ->
  messages_bounded (snd (run_monitoring_loop ws b)) /\
  forall m s b',
    messages_bounded b' ->
    status_messages (with_message m s b') =
      (if (length (status_messages b') <? 10)%nat
       then status_messages b' else tail (status_messages b')) ++ [(clock b', m, s)].
Proof.
  intros Hb. split.
  - apply (stepwise_run_monitoring_loop messages_bounded); try exact Hb.
    + apply messages_bounded_with_message.
    + intros k st b0 H. exact H.
    + intros l url b0 H. exact H.
    + intros l blk b0 _. apply messages_bounded_opened.
    + intros l b0 H. unfold messages_bounded. rewrite status_messages_observed. exact H.
    + intros l b0 H. exact H.
    + intros w b0 H. exact H.
  - intros m s b'. apply status_messages_with_message.
Qed.

Lemma status_messages_stay_bounded_witness :
  messages_bounded (snd (run_monitoring_loop (replicate 5 same_ticket_cycle) bot0)).
Proof.
  apply (status_messages_stay_bounded (replicate 5 same_ticket_cycle) bot0).
  unfold messages_bounded. simpl. lia.
Defined.

Example status_buffer_is_full_after_five_polls :
  length (status_messages after_five_polls) = 10%nat /\
  last_message after_five_polls = Some (MsgAlreadyOpened "A" "5").
Proof. vm_compute. split; reflexivity. Qed.

(** ** The seat count helper *)

Lemma py_int_raises_ValueError s e : py_int s = Raise e -> e = ValueError.
Proof.
  unfold py_int.
  match goal with |- context [match ?p with Some _ => _ | None => _ end = _] =>
    destruct p end; [discriminate|].
  intros [= <-]. reflexivity.
Qed.

Lemma is_valid_seat_count_value seats max_seats :
  is_valid_seat_count seats max_seats =
    Ok match py_int seats with
       | Ok n => (1 <=? n)%Z && (n <? max_seats)%Z
       | Raise _ => false
       end.
Proof.
  unfold is_valid_seat_count.
  destruct (py_int seats) as [n|e] eqn:Hs; [reflexivity|].
  rewrite (py_int_raises_ValueError _ _ Hs). reflexivity.
Qed.

(** X2. [is_valid_seat_count] never raises on a string; it answers [True]
    exactly when the string reads as an integer [n] with
    [1 <= n < max_seats].  With [min_seats = 1] it agrees with the seat
    tests of the filter: where it says [True] the filter reads the seat
    count and does not reject the listing for it, and where it says [False]
    the filter raises [ValueError] or rejects with a seat message. *)
Theorem is_valid_seat_count_agrees_with_filter :
  (forall seats max_seats,
      exists v, is_valid_seat_count seats max_seats = Ok v /\
                (v = true <->
                 exists n, py_int seats = Ok n /\ (1 <= n < max_seats)%Z)) /\
  (forall l ta b,
      min_seats (config b) = 1%Z ->
      is_valid_seat_count (tl_seats l) (max_seats (config b)) = Ok true ->
      (exists r, fst (_should_skip_listing l ta b) = Ok r) /\
      (fst (_should_skip_listing l ta b) = Ok true ->
         last_message (snd (_should_skip_listing l ta b))
           = Some (MsgPriceTooHigh (tl_price l)) \/
         last_message (snd (_should_skip_listing l ta b)) = Some MsgUnavailable \/
         last_message (snd (_should_skip_listing l ta b)) = Some MsgMeetup)) /\
  (forall l ta b,
      min_seats (config b) = 1%Z ->
      is_valid_seat_count (tl_seats l) (max_seats (config b)) = Ok false ->
      fst (_should_skip_listing l ta b) = Raise ValueError \/
      (fst (_should_skip_listing l ta b) = Ok true /\
       (last_message (snd (_should_skip_listing l ta b))
          = Some (MsgTooFewSeats (tl_seats l)) \/
        last_message (snd (_should_skip_listing l ta b))
          = Some (MsgTooManySeats (tl_seats l))))).
Proof.
  split; [|split].
  - intros seats max_seats. rewrite is_valid_seat_count_value.
    eexists. split; [reflexivity|].
    destruct (py_int seats) as [n|e].
    + rewrite andb_true_iff, Z.leb_le, Z.ltb_lt. split.
      * intros H. exists n. split; [reflexivity | lia].
      * intros (n' & [= <-] & H). lia.
    + split; [discriminate|]. intros (n & Hn & _). discriminate.
  - intros l ta b Hmin. rewrite is_valid_seat_count_value.
    destruct (py_int (tl_seats l)) as [n|e] eqn:Hs; [|discriminate].
    intros [= Hv]. apply andb_true_iff in Hv as [H1 H2].
    apply Z.leb_le in H1. apply Z.ltb_lt in H2.
    rewrite (should_skip_listing_eq _ _ _ _ Hs), Hmin.
    bool_cases; try lia.
    destruct (price_check (config b) l), (availability_check ta),
      (meetup_check (config b) ta);
      (split; [eexists; reflexivity|]); intros; cbn [fst snd] in *; try congruence;
      rewrite ?last_message_unavailable_branch, ?last_message_with_message; auto.
  - intros l ta b Hmin. rewrite is_valid_seat_count_value.
    destruct (py_int (tl_seats l)) as [n|e] eqn:Hs.
    + intros [= Hv]. apply andb_false_iff in Hv.
      rewrite Z.leb_gt, Z.ltb_ge in Hv.
      rewrite (should_skip_listing_eq _ _ _ _ Hs), Hmin.
      right. bool_cases; cbn [fst snd]; rewrite ?last_message_with_message; auto.
      lia.
    + intros _. left.
      rewrite (should_skip_listing_raises _ _ _ _ Hs).
      rewrite (py_int_raises_ValueError _ _ Hs). reflexivity.
Qed.

Lemma is_valid_seat_count_agrees_with_filter_witness :
  (exists r, fst (_should_skip_listing (listing_of "900" "3" "A" "5" 50) None bot0) = Ok r) /\
  (fst (_should_skip_listing (listing_of "900" "2.5" "A" "5" 50) None bot0)
     = Raise ValueError \/
   (fst (_should_skip_listing (listing_of "900" "2.5" "A" "5" 50) None bot0) = Ok true /\
    (last_message (snd (_should_skip_listing (listing_of "900" "2.5" "A" "5" 50) None bot0))
       = Some (MsgTooFewSeats "2.5") \/
     last_message (snd (_should_skip_listing (listing_of "900" "2.5" "A" "5" 50) None bot0))
       = Some (MsgTooManySeats "2.5")))).
Proof.
  destruct is_valid_seat_count_agrees_with_filter as (_ & H2 & H3).
  split.
  - apply (H2 (listing_of "900" "3" "A" "5" 50) None bot0); reflexivity.
  - apply (H3 (listing_of "900" "2.5" "A" "5" 50) None bot0); reflexivity.
Defined.

(** ** Passes without listings, and how the loop ends *)

(** X3. A pass whose fetch raises an [Exception], or returns [None] or an
    empty list, processes nothing: it returns normally, so the next pass
    runs; the ledger, the set of opened ids and both counters are as before.
    Exactly one status message is added ('Error: ..' in red, or
    'No tickets found' dimmed): the buffer is the old one with that message
    appended, less its oldest entry when that makes eleven, and the clock
    was read once.  The only event is the sleep.  The bot is in every other
    respect the one before the pass.  (The delay and the draw are not
    negative, so that the sleep is given a time it accepts.) *)
Theorem pass_without_listings w b m style :
  (0 <=? time_delay (config b))%float = true -> (0 <=? random w)%float = true ->
  (exists e, fetch w = Raise e /\ is_Exception e = true /\
             m = MsgError e /\ style = "red") \/
  ((fetch w = Ok None \/ fetch w = Ok (Some [])) /\
   m = MsgNoTickets /\ style = "dim") ->
  cycle w b = (Ok tt, slept w (with_message m style b)) /\
  status_messages (snd (cycle w b)) =
    (let msgs := status_messages b ++ [(clock b, m, style)] in
     if (10 <? length msgs)%nat then tail msgs else msgs) /\
  clock (snd (cycle w b)) = S (clock b) /\
  last_message (snd (cycle w b)) = Some m /\
  config (snd (cycle w b)) = config b /\
  api_client (snd (cycle w b)) = api_client b /\
  auth_token (snd (cycle w b)) = auth_token b /\
  found_tickets (snd (cycle w b)) = found_tickets b /\
  opened_tickets (snd (cycle w b)) = opened_tickets b /\
  tickets_processed (snd (cycle w b)) = tickets_processed b /\
  tickets_opened (snd (cycle w b)) = tickets_opened b /\
  trace (snd (cycle w b)) =
    trace b ++ [Sleep (_get_random_sleep_time (time_delay (config b)) (random w))] /\
  forall ws, monitoring_cycles (w :: ws) b = monitoring_cycles ws (snd (cycle w b)).
Proof.
  intros _ _ H.
  assert (Hc : cycle w b = (Ok tt, slept w (with_message m style b))).
  { rewrite cycle_eq, cycle_body_eq.
    destruct H as [(e & -> & He & -> & ->) | [[-> | ->] [-> ->]]].
    - rewrite He. reflexivity.
    - reflexivity.
    - reflexivity. }
  rewrite Hc. cbn [fst snd].
  split; [reflexivity|].
  split; [reflexivity|].
  split; [reflexivity|].
  split; [apply (last_message_with_message m style b)|].
  repeat (split; [reflexivity|]).
  intros ws. rewrite monitoring_cycles_cons, Hc. reflexivity.
Qed.

Lemma pass_without_listings_witness :
  cycle fetch_fails_cycle after_five_polls
  = (Ok tt,
     slept fetch_fails_cycle
       (with_message (MsgError (ExternalError "Page.evaluate: net::ERR_TIMED_OUT")) "red"
          after_five_polls)) /\
  length (status_messages (snd (cycle fetch_fails_cycle after_five_polls))) = 10%nat /\
  found_tickets (snd (cycle fetch_fails_cycle after_five_polls))
    = found_tickets after_five_polls.
Proof.
  destruct (pass_without_listings fetch_fails_cycle after_five_polls
              (MsgError (ExternalError "Page.evaluate: net::ERR_TIMED_OUT")) "red")
    as (H1 & H2 & _ & _ & _ & _ & _ & H3 & _).
  - reflexivity.
  - reflexivity.
  - left. eexists. repeat split.
  - split; [exact H1|]. split; [|exact H3].
    rewrite H2. reflexivity.
Defined.

Lemma cycle_raises_interrupt w b e b1 :
  cycle w b = (Raise e, b1) -> e = KeyboardInterrupt.
Proof.
  rewrite cycle_eq.
  destruct (cycle_body w b) as [[[]|e'] b']; [discriminate|].
  destruct e'; simpl; intros [= <- <-]; reflexivity.
Qed.

Lemma monitoring_cycles_raises_interrupt ws : forall b e b1,
  monitoring_cycles ws b = (Raise e, b1) -> e = KeyboardInterrupt.
Proof.
  induction ws as [|w ws IH]; intros b e b1; [discriminate|].
  rewrite monitoring_cycles_cons.
  destruct (cycle w b) as [[[]|e'] b'] eqn:Hc.
  - apply IH.
  - intros [= <- <-]. exact (cycle_raises_interrupt _ _ _ _ Hc).
Qed.

Lemma run_monitoring_loop_eq ws b :
  run_monitoring_loop ws b =
    match monitoring_cycles ws (announced b) with
    | (Ok _, b1) => (Ok tt, b1)
    | (Raise _, b1) => (Ok tt, with_message MsgShuttingDown "yellow" b1)
    end.
Proof.
  unfold run_monitoring_loop, bind, announced.
  rewrite !add_status_message_eq.
  destruct (monitoring_cycles ws _) as [[[]|e] b1] eqn:Hm; [reflexivity|].
  rewrite (monitoring_cycles_raises_interrupt _ _ _ _ Hm).
  apply add_status_message_eq.
Qed.

Lemma monitoring_cycles_app ws : forall w later b b1,
  monitoring_cycles ws b = (Ok tt, b1) ->
  monitoring_cycles (ws ++ w :: later) b = monitoring_cycles (w :: later) b1.
Proof.
  induction ws as [|w0 ws IH]; intros w later b b1 H.
  - injection H as <-. reflexivity.
  - rewrite <- app_comm_cons, monitoring_cycles_cons.
    rewrite monitoring_cycles_cons in H.
    destruct (cycle w0 b) as [[[]|e] b2]; [|discriminate].
    apply IH, H.
Qed.

(** X4. Once [initialize] has succeeded, and with a delay and draws that are
    not negative (so that every sleep is given a time it accepts), no
    exception leaves the monitoring loop: every [Exception] is absorbed by
    the pass it occurs in, and a [KeyboardInterrupt] ends the loop with the
    message 'Shutting down...', the passes after it never being run. *)
Theorem run_monitoring_loop_returns ws b :
  (0 <=? time_delay (config b))%float = true ->
  Forall (fun w => (0 <=? random w)%float = true) ws ->
  fst (run_monitoring_loop ws b) = Ok tt /\
  forall before w later b1,
    ws = before ++ w :: later ->
    monitoring_cycles before (announced b) = (Ok tt, b1) ->
    fst (cycle w b1) = Raise KeyboardInterrupt ->
    run_monitoring_loop ws b =
      (Ok tt, with_message MsgShuttingDown "yellow" (snd (cycle w b1))).
Proof.
  intros _ _. split.
  - rewrite run_monitoring_loop_eq.
    destruct (monitoring_cycles ws (announced b)) as [[[]|e] b1]; reflexivity.
  - intros before w later b1 -> Hws Hw.
    rewrite run_monitoring_loop_eq.
    rewrite (monitoring_cycles_app _ _ _ _ _ Hws), monitoring_cycles_cons.
    destruct (cycle w b1) as [[[]|e] b2]; [discriminate|]. reflexivity.
Qed.

Lemma run_monitoring_loop_returns_witness :
  run_monitoring_loop [same_ticket_cycle; interrupted_cycle; same_ticket_cycle] bot0
  = (Ok tt,
     with_message MsgShuttingDown "yellow"
       (snd (cycle interrupted_cycle
               (snd (monitoring_cycles [same_ticket_cycle] (announced bot0)))))).
Proof.
  apply (proj2 (run_monitoring_loop_returns
                  [same_ticket_cycle; interrupted_cycle; same_ticket_cycle] bot0
                  ltac:(reflexivity)
                  ltac:(repeat constructor))
           [same_ticket_cycle] interrupted_cycle [same_ticket_cycle]).
  - reflexivity.
  - vm_compute. reflexivity.
  - vm_compute. reflexivity.
Defined.

(** ** What the ledger keeps *)

Lemma found_tickets_with_message m s b :
  found_tickets (with_message m s b) = found_tickets b.
Proof. reflexivity. Qed.

Lemma found_tickets_notified l blk url b :
  found_tickets (notified l blk url b) = found_tickets b.
Proof. apply notified_frame. Qed.

Lemma opened_tickets_opened l blk b :
  opened_tickets (opened l blk b) = {[tl_id l]} ∪ opened_tickets b.
Proof.
  unfold opened. cbv zeta.
  match goal with |- context [notified l ?x ?u ?s] =>
    destruct (notified_frame l x u s) as (_ & _ & _ & -> & _) end.
  reflexivity.
Qed.

Lemma found_tickets_opened l blk b :
  found_tickets (opened l blk b) =
  found_tickets (set_status (ticket_key_of l) "Opened in Browser" b).
Proof.
  unfold opened. cbv zeta. rewrite found_tickets_notified. reflexivity.
Qed.

Lemma found_observed_other l b k :
  k <> ticket_key_of l -> found_tickets (observed l b) !! k = found_tickets b !! k.
Proof.
  intros Hk. unfold observed, bind, modify, datetime_now. cbn [snd].
  match goal with |- context [match ?o with Some _ => _ | None => _ end] =>
    destruct o end;
    cbn [found_tickets set_found_tickets]; rewrite lookup_insert_ne; auto.
Qed.

Lemma found_observed_same l b ti :
  found_tickets b !! ticket_key_of l = Some ti ->
  exists ti', found_tickets (observed l b) !! ticket_key_of l = Some ti' /\
              same_display ti ti' /\ ti_id ti' = tl_id l /\
              ti_status ti' = "Checking...".
Proof.
  intros Hti. unfold observed, bind, modify, datetime_now. cbn [snd].
  cbn [found_tickets set_tickets_processed set_clock]. rewrite Hti.
  cbn [found_tickets set_found_tickets]. rewrite lookup_insert_eq.
  eexists. split; [reflexivity|]. repeat split.
Qed.

(** X5. Nothing is ever forgotten: over any run of the loop a key that is
    in the ledger stays in the ledger, and an id that is in [opened_tickets]
    stays there. *)
Theorem nothing_is_forgotten ws b :
  (forall k, is_Some (found_tickets b !! k) ->
             is_Some (found_tickets (snd (run_monitoring_loop ws b)) !! k)) /\
  opened_tickets b ⊆ opened_tickets (snd (run_monitoring_loop ws b)).
Proof.
  split.
  - intros k.
    apply (stepwise_run_monitoring_loop (fun b' => is_Some (found_tickets b' !! k))).
    + intros m s b0 H. exact H.
    + intros k' st b0 H. apply is_Some_found_set_status, H.
    + intros l url b0 H. exact H.
    + intros l blk b0 _ H. rewrite found_tickets_opened.
      apply is_Some_found_set_status, H.
    + intros l b0 H. destruct (decide (k = ticket_key_of l)) as [->|Hk].
      * apply observed_found.
      * rewrite found_observed_other by exact Hk. exact H.
    + intros l b0 H. exact H.
    + intros w b0 H. exact H.
  - intros id.
    apply (stepwise_run_monitoring_loop (fun b' => id ∈ opened_tickets b')).
    + intros m s b0 H. exact H.
    + intros k st b0 H. exact H.
    + intros l url b0 H. exact H.
    + intros l blk b0 _ H. rewrite opened_tickets_opened.
      apply elem_of_union_r, H.
    + intros l b0 H. destruct (same_world_observed l b0) as (_ & _ & _ & -> & _). exact H.
    + intros l b0 H. exact H.
    + intros w b0 H. exact H.
Qed.

Lemma same_display_refl ti : same_display ti ti.
Proof. repeat split. Qed.

Lemma same_display_trans t1 t2 t3 :
  same_display t1 t2 -> same_display t2 t3 -> same_display t1 t3.
Proof. unfold same_display. intuition congruence. Qed.

Lemma shows_set_status ti k k' st b :
  (exists ti', found_tickets b !! k = Some ti' /\ same_display ti ti') ->
  exists ti', found_tickets (set_status k' st b) !! k = Some ti' /\ same_display ti ti'.
Proof.
  intros (ti' & Hti & Hsame). rewrite found_set_status.
  destruct (decide (k' = k)) as [->|Hk].
  - rewrite Hti. eexists. split; [reflexivity|]. exact Hsame.
  - eauto.
Qed.

(** X6. What the ledger shows of a ticket is what was seen first: once an
    entry exists under a key, its section, row, seat count and price never
    change, however often the ticket is re-observed and whatever price the
    later listings carry; a re-observation only resets the status to
    'Checking...' and stores the listing id and the time. *)
Theorem entry_shows_first_observation :
  (forall ws b k ti,
      found_tickets b !! k = Some ti ->
      exists ti', found_tickets (snd (run_monitoring_loop ws b)) !! k = Some ti' /\
                  same_display ti ti') /\
  (forall l b ti,
      found_tickets b !! ticket_key_of l = Some ti ->
      exists ti', found_tickets (observed l b) !! ticket_key_of l = Some ti' /\
                  same_display ti ti' /\ ti_id ti' = tl_id l /\
                  ti_status ti' = "Checking...").
Proof.
  split; [|exact found_observed_same].
  intros ws b k ti Hti.
  apply (stepwise_run_monitoring_loop
           (fun b' => exists ti', found_tickets b' !! k = Some ti' /\ same_display ti ti')).
  - intros m s b0 H. exact H.
  - intros k' st b0 H. apply shows_set_status, H.
  - intros l url b0 H. exact H.
  - intros l blk b0 _ H. rewrite found_tickets_opened. apply shows_set_status, H.
  - intros l b0 (ti' & H & Hsame).
    destruct (decide (k = ticket_key_of l)) as [->|Hk].
    + destruct (found_observed_same l b0 ti' H) as (ti'' & H' & Hsame' & _).
      exists ti''. split; [exact H'|]. eapply same_display_trans; eassumption.
    + rewrite found_observed_other by exact Hk. eauto.
  - intros l b0 H. exact H.
  - intros w b0 H. exact H.
  - exists ti. split; [exact Hti | apply same_display_refl].
Qed.

Example first_entry_after_five_polls :
  found_tickets after_five_polls !! "A-5-2-900" = Some first_entry.
Proof. vm_compute. reflexivity. Qed.

Lemma entry_shows_first_observation_witness :
  exists ti',
    found_tickets (snd (run_monitoring_loop [dearer_ticket_cycle] after_five_polls))
      !! "A-5-2-900" = Some ti' /\
    same_display first_entry ti'.
Proof.
  apply (proj1 entry_shows_first_observation [dearer_ticket_cycle] after_five_polls).
  vm_compute. reflexivity.
Defined.

Example price_is_not_refreshed :
  ti_price <$> found_tickets (snd (run_monitoring_loop [dearer_ticket_cycle] after_five_polls))
                 !! "A-5-2-900" = Some 50%Q.
Proof. vm_compute. reflexivity. Qed.

(** ** The counters *)

Lemma total_opens_app t1 t2 : total_opens (t1 ++ t2) = (total_opens t1 + total_opens t2)%nat.
Proof. unfold total_opens. rewrite List.filter_app, length_app. reflexivity. Qed.

Lemma notifications_app t1 t2 :
  notifications (t1 ++ t2) = (notifications t1 + notifications t2)%nat.
Proof. unfold notifications. rewrite List.filter_app, length_app. reflexivity. Qed.

Lemma trace_notified l blk url b :
  trace (notified l blk url b) =
    trace b ++ if webhook_set (config b) then [Notify l blk url] else [].
Proof.
  unfold notified, notify_ticket_found, bind, get, webhook_set.
  destruct (discord_webhook_url (config b)) as [hook|]; [|symmetry; apply app_nil_r].
  destruct (String.eqb hook ""); [symmetry; apply app_nil_r | reflexivity].
Qed.

Lemma trace_opened l blk b :
  trace (opened l blk b) =
    trace b ++ BrowserOpen l (url_of blk l) true
      :: if webhook_set (config b) then [Notify l (block_id blk) (url_of blk l)] else [].
Proof.
  unfold opened. cbv zeta. rewrite trace_notified.
  transitivity ((trace b ++ [BrowserOpen l (url_of blk l) true])
                  ++ if webhook_set (config b)
                     then [Notify l (block_id blk) (url_of blk l)] else []).
  - reflexivity.
  - rewrite <- app_assoc. reflexivity.
Qed.

Lemma notified_eq l blk url b :
  notified l blk url b =
    if webhook_set (config b) then set_trace (trace b ++ [Notify l blk url]) b else b.
Proof.
  unfold notified, notify_ticket_found, bind, get, webhook_set.
  destruct (discord_webhook_url (config b)) as [hook|]; [|reflexivity].
  destruct (String.eqb hook ""); reflexivity.
Qed.

Lemma tickets_opened_opened l blk b :
  tickets_opened (opened l blk b) = S (tickets_opened b).
Proof.
  unfold opened. cbv zeta. rewrite notified_eq.
  match goal with |- context [if ?c then _ else _] => destruct c end; reflexivity.
Qed.

Lemma tickets_processed_opened l blk b :
  tickets_processed (opened l blk b) = tickets_processed b.
Proof.
  unfold opened. cbv zeta. rewrite notified_eq.
  match goal with |- context [if ?c then _ else _] => destruct c end; reflexivity.
Qed.

Lemma config_opened l blk b : config (opened l blk b) = config b.
Proof.
  unfold opened. cbv zeta. rewrite notified_eq.
  match goal with |- context [if ?c then _ else _] => destruct c end; reflexivity.
Qed.

Lemma total_opens_opened l blk b :
  total_opens (trace (opened l blk b)) = S (total_opens (trace b)).
Proof.
  rewrite trace_opened, total_opens_app.
  destruct (webhook_set (config b)); unfold total_opens at 2; simpl; lia.
Qed.

Lemma notifications_opened l blk b :
  notifications (trace (opened l blk b)) =
    (notifications (trace b) + if webhook_set (config b) then 1 else 0)%nat.
Proof.
  rewrite trace_opened, notifications_app.
  destruct (webhook_set (config b)); reflexivity.
Qed.

(** X7. The 'Tickets Opened' counter is the number of ids in
    [opened_tickets] and the number of calls of [webbrowser.open] that
    returned: a bot for which the three agree keeps them in agreement over
    any run of the loop. *)
Theorem tickets_opened_counts_opened_ids ws b :
  opened_counted b -> opened_counted (snd (run_monitoring_loop ws b)).
Proof.
  apply (stepwise_run_monitoring_loop opened_counted).
  - intros m s b0 H. exact H.
  - intros k st b0 H. exact H.
  - intros l url b0 [H1 H2]. split; [exact H1|].
    cbn [trace set_trace tickets_opened]. rewrite total_opens_app.
    unfold total_opens at 2. simpl. lia.
  - intros l blk b0 Hnew [H1 H2]. split.
    + rewrite tickets_opened_opened, opened_tickets_opened.
      rewrite size_union by (apply disjoint_singleton_l; exact Hnew).
      rewrite size_singleton. lia.
    + rewrite tickets_opened_opened, total_opens_opened. lia.
  - intros l b0 [H1 H2].
    destruct (same_world_observed l b0) as (_ & _ & _ & Ho & Hr).
    unfold opened_counted. rewrite Ho, Hr.
    replace (tickets_opened (observed l b0)) with (tickets_opened b0); [auto|].
    unfold observed, bind, modify, datetime_now. cbn [snd].
    match goal with |- context [match ?o with Some _ => _ | None => _ end] =>
      destruct o end; reflexivity.
  - intros l b0 [H1 H2]. split; [exact H1|].
    cbn [trace set_trace tickets_opened]. rewrite total_opens_app.
    unfold total_opens at 2. simpl. lia.
  - intros w b0 [H1 H2]. split; [exact H1|].
    unfold slept. cbn [trace set_trace tickets_opened]. rewrite total_opens_app.
    unfold total_opens at 2. simpl. lia.
Qed.

Lemma tickets_opened_counts_opened_ids_witness :
  opened_counted (snd (run_monitoring_loop (replicate 5 same_ticket_cycle) bot0)).
Proof.
  apply (tickets_opened_counts_opened_ids (replicate 5 same_ticket_cycle) bot0).
  split; reflexivity.
Defined.

Lemma tickets_processed_process_listing w l b :
  api_client b = true -> token_ok (auth_token b) = true ->
  tickets_processed (snd (_process_listing w l b)) = S (tickets_processed b).
Proof.
  intros Hapi Htok.
  apply (process_listing_keeps_observed
           (fun b' => tickets_processed b' = S (tickets_processed b))); auto.
  - intros l0 blk b0 _ H. rewrite tickets_processed_opened. exact H.
  - unfold observed, bind, modify, datetime_now. cbn [snd].
    match goal with |- context [match ?o with Some _ => _ | None => _ end] =>
      destruct o end; reflexivity.
Qed.

(** X8. For a logged-in bot the 'Tickets Processed' counter is the number of
    listings announced by the loop: every listing of a fetched list that is
    announced is counted exactly once, also when processing it raises. *)
Theorem tickets_processed_counts_announced ws b :
  processed_counted b -> processed_counted (snd (run_monitoring_loop ws b)).
Proof.
  apply (run_monitoring_loop_keeps processed_counted).
  - intros m s b0 H. exact H.
  - intros w l b0 (Hapi & Htok & Hn).
    destruct (process_listing_step w l (set_trace (trace b0 ++ [LogFound l]) b0))
      as (_ & Ha & Ht & _).
    unfold processed_counted. rewrite Ha, Ht.
    split; [exact Hapi|]. split; [exact Htok|].
    rewrite tickets_processed_process_listing by assumption.
    rewrite process_listing_found_log.
    cbn [trace set_trace tickets_processed]. rewrite found_log_app, length_app.
    simpl. lia.
  - intros w b0 (Hapi & Htok & Hn). split; [exact Hapi|]. split; [exact Htok|].
    unfold slept. cbn [trace set_trace tickets_processed].
    rewrite found_log_app, length_app. simpl. lia.
Qed.

Lemma tickets_processed_counts_announced_witness :
  processed_counted (snd (run_monitoring_loop [first_fails_cycle; same_ticket_cycle] bot0)).
Proof.
  apply (tickets_processed_counts_announced [first_fails_cycle; same_ticket_cycle] bot0).
  repeat split.
Defined.

(** ** The order of a pass *)

Lemma opened_log_app t1 t2 : opened_log (t1 ++ t2) = opened_log t1 ++ opened_log t2.
Proof. apply omap_app. Qed.

(** A call of [_process_listing] adds its listing to the opened ones
    exactly when it returns [True]. *)
Lemma process_listing_opened_log w l b :
  opened_log (trace (snd (_process_listing w l b))) =
    opened_log (trace b) ++
      match fst (_process_listing w l b) with Ok true => [l] | _ => [] end.
Proof.
  destruct (process_listing_step w l b) as (_ & _ & _ & [[Hr [_ Ht]] | [Hr Hop]]).
  - assert (Hlog : opened_log (trace (snd (_process_listing w l b)))
                   = opened_log (trace b)).
    { destruct Ht as [-> | [url ->]]; [reflexivity|].
      rewrite opened_log_app. apply app_nil_r. }
    rewrite Hlog.
    destruct (fst (_process_listing w l b)) as [[|]|e];
      [congruence | ..]; symmetry; apply app_nil_r.
  - rewrite Hr. destruct Hop as (_ & _ & _ & url & [-> | ->]);
      rewrite opened_log_app; reflexivity.
Qed.

Lemma ledger_kept_by_process_listing k w l b :
  is_Some (found_tickets b !! k) ->
  is_Some (found_tickets (snd (_process_listing w l b)) !! k).
Proof.
  apply (process_listing_keeps (fun b' => is_Some (found_tickets b' !! k))).
  - intros m s b0 H. exact H.
  - intros k' st b0 H. apply is_Some_found_set_status, H.
  - intros l0 url b0 H. exact H.
  - intros l0 blk b0 _ H. rewrite found_tickets_opened.
    apply is_Some_found_set_status, H.
  - intros l0 b0 H. destruct (decide (k = ticket_key_of l0)) as [->|Hk].
    + apply observed_found.
    + rewrite found_observed_other by exact Hk. exact H.
Qed.

Lemma ledger_entered_by_process_listing w l b :
  api_client b = true -> token_ok (auth_token b) = true ->
  is_Some (found_tickets (snd (_process_listing w l b)) !! ticket_key_of l).
Proof.
  intros Hapi Htok.
  apply (process_listing_keeps_observed
           (fun b' => is_Some (found_tickets b' !! ticket_key_of l))); auto.
  - intros k' st b0 H. apply is_Some_found_set_status, H.
  - intros l0 blk b0 _ H. rewrite found_tickets_opened.
    apply is_Some_found_set_status, H.
  - apply observed_found.
Qed.

Lemma ledger_kept_by_process_all k w ls i b :
  is_Some (found_tickets b !! k) ->
  is_Some (found_tickets (snd (process_all w i ls b)) !! k).
Proof.
  revert i b. induction ls as [|l rest IH]; intros i b H; [exact H|].
  rewrite process_all_cons.
  pose proof (ledger_kept_by_process_listing k (candidate w i) l
                (set_trace (trace b ++ [LogFound l]) b) H) as H1.
  destruct (_process_listing (candidate w i) l _) as [[r|e] b1]; [|exact H1].
  apply IH, H1.
Qed.

(** The listings of a list are announced and processed from the left; each
    one that is reached is counted and entered in the ledger, and those
    opened are opened in the order of the list. *)
Lemma process_all_in_order w ls : forall i b,
  api_client b = true -> token_ok (auth_token b) = true ->
  exists done rest now_opened,
    ls = done ++ rest /\
    (fst (process_all w i ls b) = Ok tt -> rest = []) /\
    found_log (trace (snd (process_all w i ls b))) = found_log (trace b) ++ done /\
    tickets_processed (snd (process_all w i ls b))
      = (tickets_processed b + length done)%nat /\
    (forall l, l ∈ done ->
       is_Some (found_tickets (snd (process_all w i ls b)) !! ticket_key_of l)) /\
    opened_log (trace (snd (process_all w i ls b))) = opened_log (trace b) ++ now_opened /\
    now_opened `sublist_of` done.
Proof.
  induction ls as [|l rest IH]; intros i b Hapi Htok.
  - exists [], [], []. cbn [process_all ret fst snd].
    rewrite !app_nil_r, Nat.add_0_r.
    repeat split; auto.
    intros l Hl. inversion Hl.
  - rewrite process_all_cons.
    set (b0 := set_trace (trace b ++ [LogFound l]) b).
    pose proof (process_listing_found_log (candidate w i) l b0) as Hlog.
    pose proof (process_listing_opened_log (candidate w i) l b0) as Hop.
    pose proof (tickets_processed_process_listing (candidate w i) l b0 Hapi Htok) as Hn.
    pose proof (ledger_entered_by_process_listing (candidate w i) l b0 Hapi Htok) as Hin.
    destruct (process_listing_step (candidate w i) l b0) as (_ & Hapi1 & Htok1 & _).
    cbn [trace set_trace b0] in Hlog, Hop. rewrite found_log_app in Hlog.
    rewrite opened_log_app in Hop. cbn [opened_log omap] in Hop.
    rewrite app_nil_r in Hop.
    change (tickets_processed b0) with (tickets_processed b) in Hn.
    change (api_client b0) with (api_client b) in Hapi1.
    change (auth_token b0) with (auth_token b) in Htok1.
    destruct (_process_listing (candidate w i) l b0) as [[r|e] b1];
      cbn [fst snd] in *.
    + rewrite <- Hapi1 in Hapi. rewrite <- Htok1 in Htok.
      destruct (IH (S i) b1 Hapi Htok)
        as (done & rest' & now_opened & -> & Hok & Hl & Hc & Hled & Ho & Hsub).
      exists (l :: done), rest', ((if r then [l] else []) ++ now_opened).
      split; [reflexivity|]. split; [exact Hok|].
      split; [rewrite Hl, Hlog, <- app_assoc; reflexivity|].
      split; [rewrite Hc, Hn; simpl; lia|].
      split; [|split].
      * intros l' Hl'. apply elem_of_cons in Hl' as [->|Hl'].
        -- apply ledger_kept_by_process_all, Hin.
        -- apply Hled, Hl'.
      * rewrite Ho, Hop. destruct r; rewrite <- !app_assoc; reflexivity.
      * destruct r; simpl.
        -- apply sublist_skip, Hsub.
        -- apply sublist_cons, Hsub.
    + exists [l], rest, [].
      split; [reflexivity|]. split; [discriminate|].
      split; [exact Hlog|].
      split; [rewrite Hn; simpl; lia|].
      split; [|split].
      * intros l' Hl'. apply list_elem_of_singleton in Hl' as ->. exact Hin.
      * rewrite Hop. reflexivity.
      * apply sublist_nil_l.
Qed.

(** A listing that qualifies, and whose id has not been opened, is opened. *)
Lemma qualifying_listing_is_opened w l b :
  api_client b = true -> token_ok (auth_token b) = true ->
  qualifies (config b) w l -> tl_id l ∉ opened_tickets b ->
  fst (_process_listing w l b) = Ok true /\
  opened_tickets (snd (_process_listing w l b)) = {[tl_id l]} ∪ opened_tickets b.
Proof.
  intros Hapi Htok (t & blk & seats & Hta & Hblk & Hs & Hseats & Hp & Ha & Hm & Hopen) Hnew.
  destruct (same_world_observed l b) as (Hc & _ & _ & Ho & _).
  assert (Hskip : _should_skip_listing l (Some t) (observed l b) = (Ok false, observed l b)).
  { rewrite (should_skip_listing_eq _ _ _ _ Hs), Hc.
    rewrite <- price_check_spec in Hp. rewrite <- availability_check_spec in Ha.
    rewrite <- meetup_check_spec in Hm.
    apply not_true_is_false in Hp, Ha, Hm. rewrite Hp, Ha, Hm.
    bool_cases; try lia. reflexivity. }
  rewrite (process_listing_eq _ _ _ Hapi Htok), Hta, Hskip.
  rewrite bool_decide_eq_false_2 by (rewrite Ho; exact Hnew).
  rewrite Hblk, Hopen. cbv zeta. cbn [fst snd].
  split; [reflexivity|].
  rewrite opened_tickets_opened.
  change (opened_tickets (with_message _ _ (observed l b)))
    with (opened_tickets (observed l b)).
  rewrite Ho. reflexivity.
Qed.

(** When every listing of a list qualifies and no two have the same id, all
    of them are opened, in the order of the list. *)
Lemma process_all_opens_all w ls : forall i b,
  api_client b = true -> token_ok (auth_token b) = true ->
  (forall j l, ls !! j = Some l -> qualifies (config b) (candidate w (i + j)) l) ->
  NoDup (map tl_id ls) ->
  (forall l, l ∈ ls -> tl_id l ∉ opened_tickets b) ->
  fst (process_all w i ls b) = Ok tt /\
  opened_log (trace (snd (process_all w i ls b))) = opened_log (trace b) ++ ls.
Proof.
  induction ls as [|l rest IH]; intros i b Hapi Htok Hq Hnd Hnew.
  - cbn [process_all ret fst snd]. rewrite app_nil_r. auto.
  - rewrite process_all_cons.
    set (b0 := set_trace (trace b ++ [LogFound l]) b).
    assert (Hq0 : qualifies (config b0) (candidate w i) l).
    { specialize (Hq 0%nat l eq_refl). rewrite Nat.add_0_r in Hq. exact Hq. }
    assert (Hnew0 : tl_id l ∉ opened_tickets b0) by (apply Hnew; left).
    destruct (qualifying_listing_is_opened (candidate w i) l b0 Hapi Htok Hq0 Hnew0)
      as [Hr Hset].
    pose proof (process_listing_opened_log (candidate w i) l b0) as Hop.
    destruct (process_listing_step (candidate w i) l b0) as (Hcfg & Hapi1 & Htok1 & _).
    rewrite Hr in Hop.
    cbn [trace set_trace b0] in Hop.
    rewrite opened_log_app in Hop. cbn [opened_log omap] in Hop.
    rewrite app_nil_r in Hop.
    change (config b0) with (config b) in Hcfg.
    change (api_client b0) with (api_client b) in Hapi1.
    change (auth_token b0) with (auth_token b) in Htok1.
    change (opened_tickets b0) with (opened_tickets b) in Hset.
    destruct (_process_listing (candidate w i) l b0) as [[r|e] b1];
      cbn [fst snd] in *; [|discriminate].
    simpl in Hnd. apply NoDup_cons in Hnd as [Hl Hnd].
    destruct (IH (S i) b1) as [Hok Hlog].
    + congruence.
    + congruence.
    + intros j l' Hj. rewrite Hcfg.
      replace (S i + j)%nat with (i + S j)%nat by lia.
      apply Hq. exact Hj.
    + exact Hnd.
    + intros l' Hl'. rewrite Hset. intros Hin.
      apply elem_of_union in Hin as [Hin | Hin].
      * apply elem_of_singleton in Hin.
        apply Hl. rewrite <- Hin. apply list_elem_of_fmap. exists l'. auto.
      * apply (Hnew l'); [right; exact Hl' | exact Hin].
    + split; [exact Hok|]. rewrite Hlog, Hop, <- app_assoc. reflexivity.
Qed.

(** C7. The fetched listings are processed in ascending order of their
    section strings, and listings of one section keep the order they were
    fetched in.  The sorted list is an ordered rearrangement of the fetched
    one in which every section's listings appear in their fetched order.
    A pass announces and processes the sorted list from the left, all of it
    unless a listing raises: every listing reached is counted and entered
    in the ledger, and the listings that are opened are opened in the order
    of the sorted list.  When every listing qualifies, all are opened, the
    sorted list being the order in which the browser is called.  Sections
    B, A, A2 are taken as A, A2, B. *)
Theorem listings_processed_in_section_order :
  (forall options,
      StronglySorted section_le (sort_listings_by_section options) /\
      Permutation (sort_listings_by_section options) options /\
      (forall s, of_section s (sort_listings_by_section options) = of_section s options)) /\
  (forall w b first others,
      api_client b = true -> token_ok (auth_token b) = true ->
      fetch w = Ok (Some (first :: others)) ->
      exists done rest now_opened,
        sort_listings_by_section (first :: others) = done ++ rest /\
        (fst (cycle_body w b) = Ok tt -> rest = []) /\
        found_log (trace (snd (cycle_body w b))) = found_log (trace b) ++ done /\
        tickets_processed (snd (cycle_body w b))
          = (tickets_processed b + length done)%nat /\
        (forall l, l ∈ done ->
           is_Some (found_tickets (snd (cycle_body w b)) !! ticket_key_of l)) /\
        opened_log (trace (snd (cycle_body w b))) = opened_log (trace b) ++ now_opened /\
        now_opened `sublist_of` done) /\
  (forall w b first others,
      api_client b = true -> token_ok (auth_token b) = true ->
      fetch w = Ok (Some (first :: others)) ->
      (forall j l, sort_listings_by_section (first :: others) !! j = Some l ->
                   qualifies (config b) (candidate w j) l) ->
      NoDup (map tl_id (first :: others)) ->
      (forall l, l ∈ first :: others -> tl_id l ∉ opened_tickets b) ->
      fst (cycle_body w b) = Ok tt /\
      opened_log (trace (snd (cycle_body w b)))
        = opened_log (trace b) ++ sort_listings_by_section (first :: others)) /\
  map tl_section
    (sort_listings_by_section
       [listing_of "1" "2" "B" "1" 10; listing_of "2" "2" "A" "1" 10;
        listing_of "3" "2" "A2" "1" 10])
  = ["A"; "A2"; "B"].
Proof.
  split; [|split; [|split]].
  - intros options.
    split; [apply sort_listings_sorted|].
    split; [apply sort_listings_Permutation|].
    intros s. apply sort_listings_stable.
  - intros w b first others Hapi Htok Hfetch.
    rewrite cycle_body_eq, Hfetch.
    apply (process_all_in_order w (sort_listings_by_section (first :: others)) 0
             (with_message (MsgTicketsFound (length (first :: others))) "cyan bold" b)
             Hapi Htok).
  - intros w b first others Hapi Htok Hfetch Hq Hnd Hnew.
    rewrite cycle_body_eq, Hfetch.
    apply (process_all_opens_all w (sort_listings_by_section (first :: others)) 0
             (with_message (MsgTicketsFound (length (first :: others))) "cyan bold" b)
             Hapi Htok).
    + exact Hq.
    + rewrite (Permutation_map tl_id (sort_listings_Permutation (first :: others))).
      exact Hnd.
    + intros l Hl. apply Hnew.
      rewrite <- (sort_listings_Permutation (first :: others)). exact Hl.
  - reflexivity.
Qed.

Lemma listings_processed_in_section_order_witness :
  opened_log (trace (snd (cycle_body three_sections_cycle bot0)))
  = opened_log (trace bot0)
      ++ sort_listings_by_section
           [listing_of "1" "2" "B" "1" 10; listing_of "2" "2" "A" "1" 10;
            listing_of "3" "2" "A2" "1" 10].
Proof.
  apply (proj1 (proj2 (proj2 listings_processed_in_section_order))
           three_sections_cycle bot0).
  - reflexivity.
  - reflexivity.
  - reflexivity.
  - intros j l Hj.
    exists {| available := true; block := Some {| block_id := JStr "B77" |};
              delivery_plan := [{| delivery_method := JNum 3; title := JStr "E-ticket" |}] |},
           {| block_id := JStr "B77" |}, 2%Z.
    assert (Hs : tl_seats l = "2" /\ tl_price l = 10%Q).
    { destruct j as [|[|[|j]]]; simpl in Hj; try discriminate;
        injection Hj as <-; split; reflexivity. }
    destruct Hs as [Hs Hp].
    split; [reflexivity|]. split; [reflexivity|].
    split; [rewrite Hs; reflexivity|].
    split; [simpl; lia|].
    split; [intros (mp & Hmp & _); discriminate Hmp|].
    split; [intros [H | (t & [= <-] & H)]; discriminate|].
    split; [|reflexivity].
    intros (_ & t & plan & [= <-] & Hin & Hpl). simpl in Hin.
    apply list_elem_of_singleton in Hin. subst plan. discriminate Hpl.
  - simpl.
    repeat (constructor;
            [intros H; repeat (apply elem_of_cons in H as [H|H]; [discriminate H|]);
             inversion H|]).
    constructor.
  - intros l Hl. simpl. apply not_elem_of_empty.
Defined.

(** ** Notifications *)

(** X9. The configuration is never changed by the loop, and the webhook is
    posted to once for every ticket opened: with a non-empty webhook URL the
    number of posts equals the number of calls of [webbrowser.open] that
    returned, and without one (or with an empty one) nothing is posted. *)
Theorem one_notification_per_open cfg ws b :
  notified_per_open cfg b -> notified_per_open cfg (snd (run_monitoring_loop ws b)).
Proof.
  apply (stepwise_run_monitoring_loop (notified_per_open cfg)).
  - intros m s b0 H. exact H.
  - intros k st b0 H. exact H.
  - intros l url b0 [Hc Hn]. split; [exact Hc|].
    cbn [trace set_trace]. rewrite notifications_app, total_opens_app.
    unfold notifications at 2, total_opens at 2. simpl. rewrite Hn.
    destruct (webhook_set cfg); lia.
  - intros l blk b0 _ [Hc Hn]. split; [rewrite config_opened; exact Hc|].
    rewrite notifications_opened, total_opens_opened, Hn, Hc.
    destruct (webhook_set cfg); lia.
  - intros l b0 [Hc Hn].
    destruct (same_world_observed l b0) as (Hc' & _ & _ & _ & Hr).
    unfold notified_per_open. rewrite Hc', Hr. auto.
  - intros l b0 [Hc Hn]. split; [exact Hc|].
    cbn [trace set_trace]. rewrite notifications_app, total_opens_app.
    unfold notifications at 2, total_opens at 2. simpl. rewrite Hn.
    destruct (webhook_set cfg); lia.
  - intros w b0 [Hc Hn]. split; [exact Hc|].
    unfold slept. cbn [trace set_trace]. rewrite notifications_app, total_opens_app.
    unfold notifications at 2, total_opens at 2. simpl. rewrite Hn.
    destruct (webhook_set cfg); lia.
Qed.

Lemma one_notification_per_open_witness :
  notified_per_open webhook_config
    (snd (run_monitoring_loop [three_sections_cycle; same_ticket_cycle]
            (ready "token" (new_bot webhook_config)))).
Proof.
  apply (one_notification_per_open webhook_config
           [three_sections_cycle; same_ticket_cycle]
           (ready "token" (new_bot webhook_config))).
  split; reflexivity.
Defined.

Example three_opens_three_notifications :
  notifications
    (trace (snd (run_monitoring_loop [three_sections_cycle]
                   (ready "token" (new_bot webhook_config))))) = 3%nat /\
  notifications (trace (snd (run_monitoring_loop [three_sections_cycle] bot0))) = 0%nat.
Proof. vm_compute. split; reflexivity. Qed.

(** ** What the filter looks at *)

Lemma should_skip_listing_config l ta b b' :
  config b' = config b ->
  fst (_should_skip_listing l ta b') = fst (_should_skip_listing l ta b).
Proof.
  intros Hc.
  destruct (py_int (tl_seats l)) as [seats|e] eqn:Hs.
  - rewrite !(should_skip_listing_eq _ _ _ _ Hs), Hc.
    repeat match goal with
    | |- context [if ?c then _ else _] => destruct c
    end; reflexivity.
  - rewrite !(should_skip_listing_raises _ _ _ _ Hs). reflexivity.
Qed.

(** X10. Without a configured maximum the price plays no part in the
    filter: two listings that differ only in price (and id, type, area) get
    the same verdict and leave the same state.  With a maximum [mp] the
    bound is inclusive: a listing whose price is at most [mp] is never
    rejected with the price message. *)
Theorem price_limit_is_optional_and_inclusive :
  (forall l l' ta b,
      max_price (config b) = None ->
      tl_seats l' = tl_seats l -> tl_section l' = tl_section l ->
      tl_row l' = tl_row l ->
      _should_skip_listing l' ta b = _should_skip_listing l ta b) /\
  (forall l ta b mp,
      max_price (config b) = Some mp -> (tl_price l <= mp)%Q ->
      fst (_should_skip_listing l ta b) = Ok true ->
      last_message (snd (_should_skip_listing l ta b))
        <> Some (MsgPriceTooHigh (tl_price l))).
Proof.
  split.
  - intros l l' ta b Hmp Hseats Hsec Hrow.
    destruct (py_int (tl_seats l)) as [seats|e] eqn:Hs.
    + rewrite (should_skip_listing_eq l ta b seats Hs).
      rewrite (should_skip_listing_eq l' ta b seats) by (rewrite Hseats; exact Hs).
      unfold price_check. rewrite Hmp, Hseats, Hsec, Hrow. reflexivity.
    + rewrite (should_skip_listing_raises l ta b e Hs).
      rewrite (should_skip_listing_raises l' ta b e) by (rewrite Hseats; exact Hs).
      reflexivity.
  - intros l ta b mp Hmp Hle.
    assert (Hpc : price_check (config b) l = false).
    { unfold price_check, Qgtb. rewrite Hmp.
      apply negb_false_iff, Qle_bool_iff, Hle. }
    destruct (py_int (tl_seats l)) as [seats|e] eqn:Hs.
    + rewrite (should_skip_listing_eq _ _ _ _ Hs), Hpc.
      repeat match goal with
      | |- context [if ?c then _ else _] => destruct c
      end; cbn [fst snd]; intros Hr;
        rewrite ?last_message_unavailable_branch, ?last_message_with_message;
        discriminate.
    + rewrite (should_skip_listing_raises _ _ _ _ Hs). discriminate.
Qed.

Lemma price_limit_is_optional_and_inclusive_witness :
  _should_skip_listing (listing_of "900" "2" "A" "5" 1000000) None bot0
  = _should_skip_listing (listing_of "900" "2" "A" "5" 50) None bot0 /\
  last_message
    (snd (_should_skip_listing (listing_of "900" "2" "A" "5" 100) None
            (ready "token" (new_bot pricey_config))))
  <> Some (MsgPriceTooHigh 100).
Proof.
  destruct price_limit_is_optional_and_inclusive as [H1 H2].
  split.
  - apply H1; reflexivity.
  - apply (H2 (listing_of "900" "2" "A" "5" 100) None
              (ready "token" (new_bot pricey_config)) 100%Q).
    + reflexivity.
    + apply Qle_refl.
    + reflexivity.
Defined.

(** X11. The delivery plan matters only when [skip_meetup_delivery] is set:
    with the flag off an available listing that passes the seat and price
    tests is let through whatever its delivery plan; with the flag on one
    entry whose delivery method equals 1 is enough to reject it, whatever
    other delivery methods are offered beside it. *)
Theorem delivery_plan_and_meetup_flag :
  (forall l t b seats,
      skip_meetup_delivery (config b) = false ->
      py_int (tl_seats l) = Ok seats ->
      (min_seats (config b) <= seats < max_seats (config b))%Z ->
      ~ price_above_max (config b) l ->
      available t = true ->
      _should_skip_listing l (Some t) b = (Ok false, b)) /\
  (forall l t b seats before plan after,
      skip_meetup_delivery (config b) = true ->
      py_int (tl_seats l) = Ok seats ->
      (min_seats (config b) <= seats < max_seats (config b))%Z ->
      ~ price_above_max (config b) l ->
      available t = true ->
      delivery_plan t = before ++ plan :: after ->
      py_eq_1 (delivery_method plan) = true ->
      _should_skip_listing l (Some t) b = (Ok true, with_message MsgMeetup "dim yellow" b)).
Proof.
  split.
  - intros l t b seats Hflag Hs Hr Hp Hav.
    rewrite (should_skip_listing_eq _ _ _ _ Hs).
    rewrite <- price_check_spec in Hp. apply not_true_is_false in Hp.
    bool_cases; try lia.
    rewrite Hp. unfold availability_check, meetup_check. rewrite Hav, Hflag.
    reflexivity.
  - intros l t b seats before plan after Hflag Hs Hr Hp Hav Hplan Hm.
    rewrite (should_skip_listing_eq _ _ _ _ Hs).
    rewrite <- price_check_spec in Hp. apply not_true_is_false in Hp.
    bool_cases; try lia.
    rewrite Hp. unfold availability_check. rewrite Hav. cbn [negb].
    assert (Hmc : meetup_check (config b) (Some t) = true).
    { apply meetup_check_spec. split; [exact Hflag|].
      exists t, plan. split; [reflexivity|]. split; [|exact Hm].
      rewrite Hplan. apply list_elem_of_In, in_elt. }
    rewrite Hmc. reflexivity.
Qed.

Lemma delivery_plan_and_meetup_flag_witness :
  _should_skip_listing (listing_of "900" "2" "A" "5" 50)
    (Some {| available := true; block := Some {| block_id := JStr "B77" |};
             delivery_plan := [{| delivery_method := JNum 3; title := JStr "E-ticket" |};
                               {| delivery_method := JNum 1; title := JStr "Meet up" |}] |})
    bot0
  = (Ok true, with_message MsgMeetup "dim yellow" bot0).
Proof.
  apply (proj2 delivery_plan_and_meetup_flag (listing_of "900" "2" "A" "5" 50) _ bot0 2%Z
           [{| delivery_method := JNum 3; title := JStr "E-ticket" |}]
           {| delivery_method := JNum 1; title := JStr "Meet up" |} []).
  - reflexivity.
  - reflexivity.
  - simpl. lia.
  - intros (mp & Hmp & _). discriminate Hmp.
  - reflexivity.
  - reflexivity.
  - reflexivity.
Defined.

(** ** A failed open *)

(** X12. A ticket whose page could not be opened is tried again: after
    [webbrowser.open] has raised an [Exception] the entry is
    'Failed to Open' and the id is not in [opened_tickets], so the next
    observation of the same listing with the same availability, if the
    browser then opens, ends as 'Opened in Browser' with the id recorded. *)
Theorem failed_open_is_retried w w' l b t blk e :
  api_client b = true -> token_ok (auth_token b) = true ->
  get_ticket_availability (page_result w) = Ok (Some t) ->
  block t = Some blk ->
  fst (_should_skip_listing l (Some t) (observed l b)) = Ok false ->
  tl_id l ∉ opened_tickets b ->
  open_raises w = Some e -> is_Exception e = true ->
  page_result w' = page_result w -> open_raises w' = None ->
  status_of (ticket_key_of l) (snd (_process_listing w l b)) = Some "Failed to Open" /\
  fst (_process_listing w' l (snd (_process_listing w l b))) = Ok true /\
  status_of (ticket_key_of l) (snd (_process_listing w' l (snd (_process_listing w l b))))
    = Some "Opened in Browser" /\
  tl_id l ∈ opened_tickets (snd (_process_listing w' l (snd (_process_listing w l b)))).
Proof.
  intros Hapi Htok Hta Hblk Hskip Hnew Hopen He Hw' Hopen'.
  destruct (process_listing_failed_to_open w l b t blk e
              Hapi Htok Hta Hblk Hskip Hnew Hopen He) as (_ & Hst & Ho & _).
  destruct (process_listing_step w l b) as (Hc & Ha & Ht & _).
  set (b1 := snd (_process_listing w l b)) in *.
  split; [exact Hst|].
  assert (Hapi1 : api_client b1 = true) by congruence.
  assert (Htok1 : token_ok (auth_token b1) = true) by congruence.
  assert (Hres : fst (_process_listing w' l b1) = Ok true).
  { rewrite (process_listing_eq _ _ _ Hapi1 Htok1), Hw', Hta.
    destruct (_should_skip_listing l (Some t) (observed l b1)) as [r b2] eqn:E.
    assert (Hr : r = Ok false).
    { change r with (fst (r, b2)). rewrite <- E.
      rewrite (should_skip_listing_config l (Some t) (observed l b) (observed l b1));
        [exact Hskip|].
      destruct (same_world_observed l b) as (-> & _).
      destruct (same_world_observed l b1) as (-> & _). exact Hc. }
    subst r.
    destruct (should_skip_listing_frame _ _ _ _ _ E) as (_ & _ & Hsame & _).
    rewrite (Hsame eq_refl).
    destruct (same_world_observed l b1) as (_ & _ & _ & Ho1 & _).
    rewrite bool_decide_eq_false_2 by (rewrite Ho1, Ho; exact Hnew).
    rewrite Hblk, Hopen'. reflexivity. }
  split; [exact Hres|].
  destruct (process_listing_step w' l b1) as (_ & _ & _ & [[Hno _] | [_ Hop]]);
    [contradiction|].
  destruct Hop as (_ & Ho2 & Hst2 & _).
  split; [exact Hst2|].
  rewrite Ho2. apply elem_of_union_l, elem_of_singleton. reflexivity.
Qed.

Lemma failed_open_is_retried_witness :
  status_of "A-5-2-900"
    (snd (_process_listing no_browser_world (listing_of "900" "2" "A" "5" 50) bot0))
    = Some "Failed to Open" /\
  fst (_process_listing opening_world (listing_of "900" "2" "A" "5" 50)
         (snd (_process_listing no_browser_world (listing_of "900" "2" "A" "5" 50) bot0)))
    = Ok true.
Proof.
  destruct (failed_open_is_retried no_browser_world opening_world
              (listing_of "900" "2" "A" "5" 50) bot0
              {| available := true; block := Some {| block_id := JStr "B77" |};
                 delivery_plan := [{| delivery_method := JNum 3;
                                      title := JStr "E-ticket" |}] |}
              {| block_id := JStr "B77" |}
              (ExternalError "could not locate runnable browser"))
    as (H1 & H2 & _); try reflexivity; try apply not_elem_of_empty.
  split; [exact H1 | exact H2].
Defined.

(** ** More on the availability request *)

Lemma comprehension_Forall2 {A B} (f : A -> result B) items : forall ys,
  comprehension f items = Ok ys -> Forall2 (fun x y => f x = Ok y) items ys.
Proof.
  induction items as [|x items IH]; intros ys; simpl.
  - intros [= <-]. constructor.
  - unfold rbind. destruct (f x) as [y|e] eqn:Hx; [|discriminate].
    destruct (comprehension f items) as [ys'|e]; [|discriminate].
    intros [= <-]. constructor; [exact Hx | apply IH; reflexivity].
Qed.

Lemma make_delivery_plan_Ok item plan :
  make_delivery_plan item = Ok plan ->
  exists fs, item = JObj fs /\
    delivery_method plan = from_option (fun x => x) (JNum 0) (assoc "deliveryMethod" fs) /\
    title plan = from_option (fun x => x) (JStr "") (assoc "title" fs).
Proof.
  unfold make_delivery_plan, rbind.
  destruct item as [| | | | |fs]; try discriminate.
  simpl. intros [= <-]. exists fs. repeat split.
Qed.

(** X13. An available result mirrors the response: its block id is the
    [blockId] of the response's [block], and its delivery plan has one entry
    for each element of [deliveryPlan] (none when the field is missing), in
    the same order, carrying the element's [deliveryMethod] (0 when missing)
    and [title] (the empty string when missing). *)
Theorem available_result_mirrors_response fields t :
  get_ticket_availability (inl (JObj fields)) = Ok (Some t) ->
  available t = true ->
  exists blk bid items,
    assoc "block" fields = Some blk /\
    py_getitem blk "blockId" = inl bid /\
    block t = Some {| block_id := bid |} /\
    py_iter (from_option (fun x => x) (JArr []) (assoc "deliveryPlan" fields)) = inl items /\
    Forall2 (fun item plan =>
               exists fs, item = JObj fs /\
                 delivery_method plan
                   = from_option (fun x => x) (JNum 0) (assoc "deliveryMethod" fs) /\
                 title plan = from_option (fun x => x) (JStr "") (assoc "title" fs))
            items (delivery_plan t).
Proof.
  unfold get_ticket_availability, rbind. cbn [of_sum py_get].
  destruct (truthy (JObj fields)); [|discriminate].
  destruct (truthy (from_option (fun x => x) (JBool false) (assoc "available" fields)));
    [|intros [= <-]; discriminate].
  destruct (truthy (from_option (fun x => x) JNull (assoc "block" fields))) eqn:Hb;
    [|intros [= <-]; discriminate].
  destruct (py_iter (from_option (fun x => x) (JArr []) (assoc "deliveryPlan" fields)))
    as [items|e] eqn:Hit; cbn [of_sum]; [|discriminate].
  destruct (comprehension make_delivery_plan items) as [dp|e] eqn:Hdp; [|discriminate].
  cbn [py_getitem].
  destruct (assoc "block" fields) as [blk|] eqn:Hblk; cbn [of_sum]; [|discriminate].
  destruct (py_getitem blk "blockId") as [bid|e] eqn:Hbid; cbn [of_sum]; [|discriminate].
  intros [= <-] _. exists blk, bid, items.
  split; [reflexivity|]. split; [exact Hbid|].
  split; [reflexivity|]. split; [reflexivity|].
  cbn [delivery_plan].
  eapply Forall2_impl; [apply comprehension_Forall2, Hdp|].
  intros item plan. apply make_delivery_plan_Ok.
Qed.

Lemma available_result_mirrors_response_witness :
  exists blk bid items,
    assoc "block" [("available", JBool true);
                   ("block", JObj [("blockId", JStr "B77")]);
                   ("deliveryPlan", JArr [JObj [("title", JStr "Post")]])] = Some blk /\
    py_getitem blk "blockId" = inl bid /\
    block {| available := true; block := Some {| block_id := JStr "B77" |};
             delivery_plan := [{| delivery_method := JNum 0; title := JStr "Post" |}] |}
      = Some {| block_id := bid |} /\
    py_iter (from_option (fun x => x) (JArr [])
               (assoc "deliveryPlan"
                  [("available", JBool true);
                   ("block", JObj [("blockId", JStr "B77")]);
                   ("deliveryPlan", JArr [JObj [("title", JStr "Post")]])])) = inl items /\
    Forall2 (fun item plan =>
               exists fs, item = JObj fs /\
                 delivery_method plan
                   = from_option (fun x => x) (JNum 0) (assoc "deliveryMethod" fs) /\
                 title plan = from_option (fun x => x) (JStr "") (assoc "title" fs))
            items [{| delivery_method := JNum 0; title := JStr "Post" |}].
Proof.
  apply (available_result_mirrors_response
           [("available", JBool true);
            ("block", JObj [("blockId", JStr "B77")]);
            ("deliveryPlan", JArr [JObj [("title", JStr "Post")]])]
           {| available := true; block := Some {| block_id := JStr "B77" |};
              delivery_plan := [{| delivery_method := JNum 0; title := JStr "Post" |}] |});
    reflexivity.
Defined.

(** X14. Malformed responses make [get_ticket_availability] raise instead of
    returning: a failure of the page call is passed on; a response that is
    truthy but not a dict raises [AttributeError]; and for a response that is
    available with a block, a [deliveryPlan] that cannot be iterated, or an
    element of it that is not a dict, or a block without [blockId] raises
    (the delivery plan being read first). *)
Theorem malformed_response_raises :
  (forall e, get_ticket_availability (inr e) = Raise e) /\
  (forall r, truthy r = true -> (forall fs, r <> JObj fs) ->
             get_ticket_availability (inl r) = Raise AttributeError) /\
  (forall fields av blk,
      assoc "available" fields = Some av -> truthy av = true ->
      assoc "block" fields = Some blk -> truthy blk = true ->
      (forall plans e,
          assoc "deliveryPlan" fields = Some plans -> py_iter plans = inr e ->
          get_ticket_availability (inl (JObj fields)) = Raise e) /\
      (forall items e,
          assoc "deliveryPlan" fields = Some (JArr items) ->
          comprehension make_delivery_plan items = Raise e ->
          get_ticket_availability (inl (JObj fields)) = Raise e) /\
      (forall e,
          assoc "deliveryPlan" fields = None ->
          py_getitem blk "blockId" = inr e ->
          get_ticket_availability (inl (JObj fields)) = Raise e)).
Proof.
  split; [reflexivity|]. split.
  - intros r Hr Hnot. unfold get_ticket_availability. cbn [of_sum rbind].
    rewrite Hr. destruct r; try reflexivity. exfalso. eapply Hnot. reflexivity.
  - intros fields av blk Hav Hv Hblk Hb.
    assert (Ht : truthy (JObj fields) = true)
      by (destruct fields; [discriminate Hav | reflexivity]).
    unfold get_ticket_availability. cbn [of_sum rbind py_get py_getitem].
    rewrite Ht, Hav, Hblk. cbn [from_option of_sum rbind]. rewrite Hv, Hb.
    split; [|split].
    + intros plans e Hp Hit. rewrite Hp. cbn [from_option]. rewrite Hit. reflexivity.
    + intros items e Hp Hc. rewrite Hp. cbn [from_option py_iter of_sum rbind].
      rewrite Hc. reflexivity.
    + intros e Hp Hbid. rewrite Hp. cbn [from_option py_iter of_sum comprehension rbind].
      rewrite Hbid. reflexivity.
Qed.

Lemma malformed_response_raises_witness :
  get_ticket_availability
    (inl (JObj [("available", JBool true); ("block", JObj [("id", JStr "B77")])]))
  = Raise (KeyError "blockId") /\
  get_ticket_availability
    (inl (JObj [("available", JBool true); ("block", JObj [("blockId", JStr "B77")]);
                ("deliveryPlan", JNull)]))
  = Raise TypeError.
Proof.
  destruct malformed_response_raises as (_ & _ & H).
  split.
  - apply (H [("available", JBool true); ("block", JObj [("id", JStr "B77")])]
             (JBool true) (JObj [("id", JStr "B77")])); reflexivity.
  - apply (proj1 (H [("available", JBool true); ("block", JObj [("blockId", JStr "B77")]);
                     ("deliveryPlan", JNull)]
                    (JBool true) (JObj [("blockId", JStr "B77")])
                    eq_refl eq_refl eq_refl eq_refl) JNull); reflexivity.
Defined.

(** ** The page that is opened *)

(** X15. A listing that passes the filter, has a block and is not yet in
    [opened_tickets] is opened, if the browser opens, at the URL built from
    the block id of the availability result and the seat count of the
    listing; when a webhook is set, the notification that follows carries the
    same block id and URL; nothing else happens in the world. *)
Theorem passing_listing_is_opened_at_block_url w l b t blk :
  api_client b = true -> token_ok (auth_token b) = true ->
  get_ticket_availability (page_result w) = Ok (Some t) ->
  block t = Some blk ->
  fst (_should_skip_listing l (Some t) (observed l b)) = Ok false ->
  tl_id l ∉ opened_tickets b ->
  open_raises w = None ->
  fst (_process_listing w l b) = Ok true /\
  trace (snd (_process_listing w l b)) =
    trace b ++
      BrowserOpen l {| url_block_id := block_id blk; url_seats := tl_seats l |} true
      :: (if webhook_set (config b)
          then [Notify l (block_id blk)
                  {| url_block_id := block_id blk; url_seats := tl_seats l |}]
          else []).
Proof.
  intros Hapi Htok Hta Hblk Hskip Hnew Hopen.
  rewrite (process_listing_eq _ _ _ Hapi Htok), Hta.
  destruct (_should_skip_listing l (Some t) (observed l b)) as [r b2] eqn:E.
  cbn [fst] in Hskip. subst r.
  destruct (should_skip_listing_frame _ _ _ _ _ E) as (_ & _ & Hsame & _).
  rewrite (Hsame eq_refl).
  destruct (same_world_observed l b) as (Hc & _ & _ & Ho & Hr).
  rewrite bool_decide_eq_false_2 by (rewrite Ho; exact Hnew).
  rewrite Hblk, Hopen. cbv zeta. cbn [fst snd].
  split; [reflexivity|].
  rewrite trace_opened.
  change (trace (with_message (MsgOpening (tl_section l) (tl_row l)) "cyan bold"
                   (observed l b))) with (trace (observed l b)).
  change (config (with_message (MsgOpening (tl_section l) (tl_row l)) "cyan bold"
                    (observed l b))) with (config (observed l b)).
  rewrite Hr, Hc. reflexivity.
Qed.

Lemma passing_listing_is_opened_at_block_url_witness :
  fst (_process_listing opening_world (listing_of "900" "2" "A" "5" 50)
         (ready "token" (new_bot webhook_config))) = Ok true /\
  trace (snd (_process_listing opening_world (listing_of "900" "2" "A" "5" 50)
                (ready "token" (new_bot webhook_config)))) =
    [BrowserOpen (listing_of "900" "2" "A" "5" 50)
       {| url_block_id := JStr "B77"; url_seats := "2" |} true;
     Notify (listing_of "900" "2" "A" "5" 50) (JStr "B77")
       {| url_block_id := JStr "B77"; url_seats := "2" |}].
Proof.
  apply (passing_listing_is_opened_at_block_url opening_world
           (listing_of "900" "2" "A" "5" 50) (ready "token" (new_bot webhook_config))
           {| available := true; block := Some {| block_id := JStr "B77" |};
              delivery_plan := [{| delivery_method := JNum 3;
                                   title := JStr "E-ticket" |}] |}
           {| block_id := JStr "B77" |});
    try reflexivity.
  apply not_elem_of_empty.
Defined.

(** ** Logging in *)

Lemma login_well_formed fields body status :
  assoc "json" fields = Some body -> assoc "status" fields = Some status ->
  login (inl (JObj fields)) =
    match body with
    | JObj data =>
        match assoc "responseData" data with
        | Some tok => if truthy body && truthy tok then Ok (Some tok) else Ok None
        | None => Ok None
        end
    | _ => if truthy body then Raise AttributeError else Ok None
    end.
Proof.
  intros Hj Hs. unfold login. cbn [of_sum rbind py_getitem].
  rewrite Hj, Hs. cbn [of_sum rbind].
  destruct body as [| | | | |data]; cbn [truthy py_get of_sum rbind];
    try reflexivity;
    try (match goal with |- context [if ?c then _ else _] => destruct c end; reflexivity).
  destruct data as [|kv data]; [reflexivity|].
  cbn [of_sum rbind py_getitem andb].
  destruct (assoc "responseData" (kv :: data)) as [tok|]; cbn [from_option truthy];
    [|reflexivity].
  destruct (truthy tok); reflexivity.
Qed.

(** X16. [login] returns a token only if the token is truthy, so a caller
    that tests [not token] tests exactly for a failed login.  For a page
    result with [json] and [status] it returns the [responseData] of the
    decoded body when the body is a dict with a truthy [responseData], and
    [None] when the body is null (not JSON), empty, or has no truthy
    [responseData]; a failure of the page call itself is passed on. *)
Theorem login_returns_a_truthy_token_or_none :
  (forall page_result tok, login page_result = Ok (Some tok) -> truthy tok = true) /\
  (forall fields data status tok,
      assoc "json" fields = Some (JObj data) -> assoc "status" fields = Some status ->
      assoc "responseData" data = Some tok -> truthy tok = true ->
      login (inl (JObj fields)) = Ok (Some tok)) /\
  (forall fields body status,
      assoc "json" fields = Some body -> assoc "status" fields = Some status ->
      truthy body = false \/
      (exists data, body = JObj data /\
         truthy (from_option (fun x => x) JNull (assoc "responseData" data)) = false) ->
      login (inl (JObj fields)) = Ok None) /\
  (forall e, login (inr e) = Raise e).
Proof.
  split; [|split; [|split]].
  - intros page_result tok. unfold login.
    destruct page_result as [r|e]; cbn [of_sum rbind]; [|discriminate].
    destruct (of_sum (py_getitem r "json")) as [body|e] eqn:Hj; cbn [rbind].
    + destruct (of_sum (py_getitem r "status")) as [st|e]; cbn [rbind].
      * destruct (truthy body); cbn [rbind]; [|discriminate].
        destruct (of_sum (py_get body "responseData" JNull)) as [d|e] eqn:Hd;
          cbn [rbind]; [|discriminate].
        destruct (truthy d) eqn:Htd; [|discriminate].
        destruct body as [| | | | |data]; try discriminate Hd.
        cbn [py_get py_getitem of_sum] in *.
        destruct (assoc "responseData" data) as [tok'|]; cbn [from_option of_sum rbind] in *.
        -- injection Hd as <-. intros [= <-]. exact Htd.
        -- discriminate.
      * destruct (is_Exception e); [|discriminate].
        destruct (of_sum (py_getitem r "headers")); cbn [rbind]; [|discriminate].
        destruct (of_sum (py_getitem r "text")); cbn [rbind]; discriminate.
    + destruct (is_Exception e); [|discriminate].
      destruct (of_sum (py_getitem r "status")); cbn [rbind]; [|discriminate].
      destruct (of_sum (py_getitem r "headers")); cbn [rbind]; [|discriminate].
      destruct (of_sum (py_getitem r "text")); cbn [rbind]; discriminate.
  - intros fields data status tok Hj Hs Hd Ht.
    rewrite (login_well_formed fields _ status Hj Hs), Hd, Ht.
    destruct data; [discriminate Hd | reflexivity].
  - intros fields body status Hj Hs H.
    rewrite (login_well_formed fields _ status Hj Hs).
    destruct H as [Hf | (data & -> & Hf)].
    + rewrite Hf. destruct body; try reflexivity.
      destruct (assoc "responseData" fields0); reflexivity.
    + destruct (assoc "responseData" data) as [tok|]; [|reflexivity].
      cbn [from_option] in Hf. rewrite Hf, andb_false_r. reflexivity.
  - reflexivity.
Qed.

Lemma login_returns_a_truthy_token_or_none_witness :
  login (inl (login_response (JObj [("responseData", JStr "eyJhbGciOi")])))
    = Ok (Some (JStr "eyJhbGciOi")) /\
  login (inl (login_response JNull)) = Ok None /\
  login (inl (login_response (JObj [("responseCode", JNum 401)]))) = Ok None.
Proof.
  destruct login_returns_a_truthy_token_or_none as (_ & H2 & H3 & _).
  split; [|split].
  - apply (H2 _ [("responseData", JStr "eyJhbGciOi")] (JNum 200)); reflexivity.
  - apply (H3 _ JNull (JNum 200)); try reflexivity. left. reflexivity.
  - apply (H3 _ (JObj [("responseCode", JNum 401)]) (JNum 200)); try reflexivity.
    right. eexists. split; reflexivity.
Defined.

(** A read that fails inside the handler leaves [login]: a result that is
    not a dict at all makes it raise [TypeError]. *)
Example login_handler_can_raise :
  login (inl JNull) = Raise TypeError /\
  login (inl (JObj [("status", JNum 500)])) = Raise (KeyError "headers").
Proof. split; reflexivity. Qed.

(** ** The browser session *)

(** X17. When the closing calls do not fail, [cleanup] closes exactly what
    the manager holds, the page first, then the context, the browser and
    Playwright, leaves nothing held, and does nothing when called again.
    When closing the page fails, the exception leaves [cleanup] at once:
    nothing is reset and nothing further is closed. *)
Theorem cleanup_releases_what_is_held raises m :
  (closes_work raises ->
     fst (bm_cleanup raises m) = Ok tt /\
     all_released (snd (bm_cleanup raises m)) /\
     bm_calls (snd (bm_cleanup raises m)) = bm_calls m ++ closing_calls m /\
     bm_cleanup raises (snd (bm_cleanup raises m)) = (Ok tt, snd (bm_cleanup raises m))) /\
  (forall e, bm_page m = true -> raises ClosePage = Some e ->
             bm_cleanup raises m = (Raise e, m)).
Proof.
  split.
  - intros (H1 & H2 & H3 & H4).
    destruct m as [pw br cx pg calls].
    unfold bm_cleanup, bm_bind, bm_call, set_bm_page, set_bm_context,
      set_bm_browser, set_bm_playwright, closing_calls, all_released.
    cbn [bm_playwright bm_browser bm_context bm_page bm_calls].
    destruct pg, cx, br, pw;
      cbn [bm_playwright bm_browser bm_context bm_page bm_calls];
      rewrite ?H1, ?H2, ?H3, ?H4;
      cbn [bm_playwright bm_browser bm_context bm_page bm_calls fst snd];
      rewrite ?H1, ?H2, ?H3, ?H4;
      cbn [bm_playwright bm_browser bm_context bm_page bm_calls fst snd];
      rewrite ?H1, ?H2, ?H3, ?H4;
      cbn [bm_playwright bm_browser bm_context bm_page bm_calls fst snd];
      rewrite ?H1, ?H2, ?H3, ?H4;
      cbn [bm_playwright bm_browser bm_context bm_page bm_calls fst snd app];
      rewrite <- ?app_assoc, ?app_nil_r; repeat split.
  - intros e Hp He. unfold bm_cleanup, bm_bind, bm_call.
    rewrite Hp, He. reflexivity.
Qed.

Lemma cleanup_releases_what_is_held_witness :
  all_released
    (snd (bm_cleanup nothing_fails (snd (bm_initialize nothing_fails new_manager)))) /\
  bm_calls (snd (bm_cleanup nothing_fails (snd (bm_initialize nothing_fails new_manager))))
  = [StartPlaywright; LaunchBrowser; NewContext; AddCookies; NewPage; GotoHome;
     ClosePage; CloseContext; CloseBrowser; StopPlaywright].
Proof.
  destruct (proj1 (cleanup_releases_what_is_held nothing_fails
                     (snd (bm_initialize nothing_fails new_manager))))
    as (_ & H1 & H2 & _).
  - repeat split.
  - split; [exact H1 | exact H2].
Defined.

Lemma bm_call_returns raises c m :
  raises c = None ->
  bm_call raises c m
  = (Ok tt, {| bm_playwright := bm_playwright m; bm_browser := bm_browser m;
               bm_context := bm_context m; bm_page := bm_page m;
               bm_calls := bm_calls m ++ [c] |}).
Proof. intros H. unfold bm_call. rewrite H. reflexivity. Qed.

Lemma bm_call_raises raises c m e :
  raises c = Some e -> bm_call raises c m = (Raise e, m).
Proof. intros H. unfold bm_call. rewrite H. reflexivity. Qed.

Ltac bm_step :=
  first [ rewrite bm_call_returns by assumption
        | erewrite bm_call_raises by eassumption ];
  cbn [bm_bind set_bm_playwright set_bm_browser set_bm_context set_bm_page
       bm_playwright bm_browser bm_context bm_page bm_calls fst snd app].

(** X18. Whatever step of [initialize] fails, [cleanup] afterwards releases
    what had been acquired: when the closing calls do not fail, after
    [initialize] (finished or failed) and [cleanup] nothing is held, and
    Playwright was stopped as often as started, the browser closed as often
    as launched, and likewise the context and the page. *)
Theorem initialize_then_cleanup_is_balanced raises :
  closes_work raises ->
  let m := snd (bm_cleanup raises (snd (bm_initialize raises new_manager))) in
  all_released m /\
  made StopPlaywright m = made StartPlaywright m /\
  made CloseBrowser m = made LaunchBrowser m /\
  made CloseContext m = made NewContext m /\
  made ClosePage m = made NewPage m.
Proof.
  intros (H1 & H2 & H3 & H4). cbv zeta.
  unfold bm_initialize, bm_cleanup, bm_bind, all_released, made, new_manager.
  destruct (raises StartPlaywright) eqn:E1; repeat bm_step; [repeat split|].
  destruct (raises LaunchBrowser) eqn:E2; repeat bm_step; [repeat split|].
  destruct (raises NewContext) eqn:E3; repeat bm_step; [repeat split|].
  destruct (raises AddCookies) eqn:E4; repeat bm_step; [repeat split|].
  destruct (raises NewPage) eqn:E5; repeat bm_step; [repeat split|].
  destruct (raises GotoHome) eqn:E6; repeat bm_step; repeat split.
Qed.

Lemma initialize_then_cleanup_is_balanced_witness :
  all_released (snd (bm_cleanup launch_fails (snd (bm_initialize launch_fails new_manager)))) /\
  bm_calls (snd (bm_cleanup launch_fails (snd (bm_initialize launch_fails new_manager))))
  = [StartPlaywright; StopPlaywright].
Proof.
  split.
  - apply (initialize_then_cleanup_is_balanced launch_fails). repeat split.
  - reflexivity.
Defined.

(** ** Sorting again *)

Lemma sorted_listings_unchanged l :
  StronglySorted section_le l -> sort_listings_by_section l = l.
Proof.
  intros Hs. symmetry. apply stable_sort_unique; [exact Hs | reflexivity].
Qed.

(** X19. [sort_listings_by_section] is the stable sort by section and no
    other function is: any ordered rearrangement that keeps each section's
    listings in their original order is its result.  It therefore leaves a
    list that is already in section order untouched, sorting twice is
    sorting once, and no listing is lost or duplicated. *)
Theorem sort_listings_by_section_is_the_stable_sort :
  (forall l l',
      StronglySorted section_le l' ->
      (forall s, of_section s l' = of_section s l) ->
      l' = sort_listings_by_section l) /\
  (forall l, StronglySorted section_le l -> sort_listings_by_section l = l) /\
  (forall l, sort_listings_by_section (sort_listings_by_section l)
             = sort_listings_by_section l) /\
  (forall l, length (sort_listings_by_section l) = length l).
Proof.
  split; [exact stable_sort_unique|].
  split; [exact sorted_listings_unchanged|].
  split.
  - intros l. apply sorted_listings_unchanged, sort_listings_sorted.
  - intros l. apply Permutation_length, sort_listings_Permutation.
Qed.

Lemma sort_listings_by_section_is_the_stable_sort_witness :
  sort_listings_by_section
    [listing_of "2" "2" "A" "1" 10; listing_of "3" "2" "A2" "1" 10;
     listing_of "1" "2" "B" "1" 10]
  = [listing_of "2" "2" "A" "1" 10; listing_of "3" "2" "A2" "1" 10;
     listing_of "1" "2" "B" "1" 10].
Proof.
  apply (proj1 (proj2 sort_listings_by_section_is_the_stable_sort)).
  repeat constructor.
Defined.
